(** * Step-by-step attention decoder for speech recognition

    A shallow embedding of [lingvo/tasks/asr/decoder.py]: the classes
    [AsrDecoderBase] and [AsrDecoder].  The decoder is embedded as pure
    functions over explicit state; Python exceptions become values of the
    error monad [result]; the child layers the decoder owns but does not
    define (embedding table, recurrent cells, attention, contextualizer,
    fusion, softmax, TensorFlow's random ops) are the fields of the class
    [Layers].

    Numbers.  TensorFlow floats are modelled by exact rationals [Q], so every
    statement below is a statement about the arithmetic the code writes down,
    not about rounding.  [time_step] is a [tf.int64]; it is a [Z] whose
    increment wraps around ([int64_add]). *)

From Stdlib Require Import ZArith QArith Qminmax Lia Lqa.
From stdpp Require Import base option list strings gmap.

(** ** Python exceptions *)

Inductive exn : Type :=
  | ValueError (msg : string)
  | AssertionError (msg : string)
  | AttributeError (attr : string)
  | IndexError
  | NotImplementedError (msg : string)
  | TFError (msg : string)      (* an error raised by a TensorFlow op *)
  | OutOfFuel.                  (* the model of [tf.while_loop] ran dry *)

Inductive result (A : Type) : Type :=
  | Ok (a : A)
  | Raise (e : exn).
Arguments Ok {A} a.
Arguments Raise {A} e.

#[global] Instance result_ret : MRet result := fun A a => Ok a.
#[global] Instance result_bind : MBind result := fun A B f m =>
  match m with
  | Ok a => f a
  | Raise e => Raise e
  end.
#[global] Instance result_fmap : FMap result := fun A B f m =>
  match m with
  | Ok a => Ok (f a)
  | Raise e => Raise e
  end.

(** [x[i]] on a Python list. *)
Definition py_index {A} (l : list A) (i : nat) : result A :=
  match l !! i with
  | Some x => Ok x
  | None => Raise IndexError
  end.

(** Python's [assert]. *)
Definition py_assert (b : bool) (msg : string) : result unit :=
  if b then Ok tt else Raise (AssertionError msg).

(** ** Numbers *)

Definition Qltb (x y : Q) : bool := negb (Qle_bool y x).
Definition Qeqb (x y : Q) : bool := Qeq_bool x y.

(** [tf.int64] addition. *)
Definition int64_wrap (z : Z) : Z :=
  ((z + 2 ^ 63) mod 2 ^ 64 - 2 ^ 63)%Z.
Definition int64_add (x y : Z) : Z := int64_wrap (x + y).

(** ** Tensors

    A float tensor of shape [[batch, dim]] is a list, over the batch, of
    rows; a [[time, batch, dim]] tensor is a list of those. *)

Abbreviation vec := (list Q).
Abbreviation mat := (list (list Q)).

Definition vec_add (x y : vec) : vec := zip_with Qplus x y.
(** [x + y] on two [[batch, dim]] tensors of the same shape. *)
Definition mat_add (x y : mat) : mat := zip_with vec_add x y.
(** [tf.concat([x, y], 1)]. *)
Definition tf_concat1 (x y : mat) : mat := zip_with app x y.
(** The first part of [tf.split(x, [n, m], axis=-1)]. *)
Definition tf_split_fst (n : nat) (x : mat) : mat := take n <$> x.
Definition tf_zeros (bs d : nat) : mat := replicate bs (replicate d 0%Q).

(** [tf.transpose] of a [[n, m, ...]] tensor whose rows all have the length
    of the first one: element [j] of the result collects element [j] of every
    row.  [m] is the length of the result. *)
Fixpoint transpose_n {A} (m : nat) (x : list (list A)) : list (list A) :=
  match m with
  | O => []
  | S m' => omap head x :: transpose_n m' (drop 1 <$> x)
  end.
Definition tf_transpose {A} (x : list (list A)) : list (list A) :=
  transpose_n (length (default [] (head x))) x.

(** ** TensorArray

    A [tf.TensorArray] of fixed size: a slot is empty until it is written. *)

Abbreviation TensorArray A := (list (option A)).

Definition _NewTensorArray {A} (max_seq_length : nat) : TensorArray A :=
  replicate max_seq_length None.

(** [_ToTensorArray]: a TensorArray of size [max_seq_length] unstacked from [v]. *)
Definition _ToTensorArray {A} (v : list A) (max_seq_length : nat)
  : result (TensorArray A) :=
  if decide (length v = max_seq_length) then Ok (Some <$> v)
  else Raise (TFError "TensorArray.unstack: size mismatch").

Definition ta_read {A} (ta : TensorArray A) (time : nat) : result A :=
  match ta !! time with
  | Some (Some x) => Ok x
  | Some None => Raise (TFError "TensorArray.read: slot not written")
  | None => Raise (TFError "TensorArray.read: index out of range")
  end.

Definition ta_write {A} (ta : TensorArray A) (time : nat) (x : A)
  : result (TensorArray A) :=
  if decide (time < length ta) then Ok (<[time := Some x]> ta)
  else Raise (TFError "TensorArray.write: index out of range").

Fixpoint ta_stack {A} (ta : TensorArray A) : result (list A) :=
  match ta with
  | [] => Ok []
  | Some x :: ta' => xs ← ta_stack ta'; Ok (x :: xs)
  | None :: _ => Raise (TFError "TensorArray.stack: slot not written")
  end.

(** ** Decoder state *)

(** [misc_states.step_state]. *)
Record StepState : Type := {
  global_step : Z;
  time_step : Z;
}.

(** [misc_states]: the step counters and, under scheduled sampling,
    [prev_predicted_ids] and [groundtruth_p]. *)
Record MiscStates : Type := {
  step_state : StepState;
  prev_predicted_ids : option (list Z);
  groundtruth_p : option Q;
}.

(** A leaf of a flattened [NestedMap]: an integer or a float tensor. *)
Inductive leaf : Type :=
  | IntLeaf (x : list Z)
  | FloatLeaf (x : mat).

(** ** Child layers

    Each record lists the methods of one collaborator that the decoder calls.
    The weights [theta] are the same [NestedMap] throughout a forward pass and
    every child only reads its own slice, so a child below stands for the
    layer applied to its slice of [theta]. *)

Record EmbeddingLayer : Type := {
  (** One row of the table; [EmbLookup] on a tensor of ids looks every id up. *)
  EmbLookup : Z → vec;
}.

Record RNNCell (RnnState : Type) : Type := {
  rnn_zero_state : nat → RnnState;
  (** [FProp(theta, state0, NestedMap(act=[a0, a1], padding=padding))],
      first component. *)
  FProp : RnnState → mat → mat → mat → RnnState;
  GetOutput : RnnState → mat;
}.
Arguments rnn_zero_state {RnnState} _ _.
Arguments FProp {RnnState} _ _ _ _ _.
Arguments GetOutput {RnnState} _ _.

Record Attention (PackedSrc AttenState : Type) : Type := {
  InitForSourcePacked : list mat → list mat → mat → PackedSrc;
  ZeroAttentionState : nat → nat → AttenState;
  (** [(packed_src, query, attention_state, per_step_source_padding,
      step_state)]; returns context, probabilities and the new state. *)
  ComputeContextVectorWithSource :
    PackedSrc → mat → AttenState → option mat → StepState →
    mat * mat * AttenState;
}.
Arguments InitForSourcePacked {PackedSrc AttenState} _ _ _ _.
Arguments ZeroAttentionState {PackedSrc AttenState} _ _ _.
Arguments ComputeContextVectorWithSource {PackedSrc AttenState} _ _ _ _ _ _.

Record Contextualizer (PackedSrc : Type) : Type := {
  GetContextDim : nat;
  ZeroAttention : nat → MiscStates → mat → PackedSrc → mat;
  QueryAttention : mat → MiscStates → mat → PackedSrc → mat;
}.
Arguments GetContextDim {PackedSrc} _.
Arguments ZeroAttention {PackedSrc} _ _ _ _ _.
Arguments QueryAttention {PackedSrc} _ _ _ _ _.

(** The fusion methods work on one step ([ids] of shape [[batch]]) and on a
    whole sequence ([[time, batch]]); a Rocq function has one type, so each
    method appears twice, the sequence form with the suffix [_seq]. *)
Record Fusion (FusionState LmOutput LmOutputSeq AuxTensor : Type) : Type := {
  fusion_zero_state : nat → FusionState;
  FPropLm : FusionState → list Z → mat → LmOutput * FusionState;
  FuseEmb : FusionState → LmOutput → mat → mat * FusionState;
  FuseOutput : FusionState → LmOutput → mat → mat * FusionState;
  (** [(state, logits, is_eval)]. *)
  ComputeLogitsWithLM : FusionState → mat → bool → mat;
  FPropLm_seq :
    FusionState → list (list Z) → list mat → gmap string AuxTensor →
    LmOutputSeq * FusionState;
  FuseEmb_seq : FusionState → LmOutputSeq → list mat → list mat * FusionState;
  FuseOutput_seq :
    FusionState → LmOutputSeq → list mat → list mat * FusionState;
  ComputeLogitsWithLM_seq : FusionState → list mat → bool → list mat;
  (** [state.Flatten()]. *)
  fusion_Flatten : FusionState → list leaf;
}.
Arguments fusion_zero_state {_ _ _ _} _ _.
Arguments FPropLm {_ _ _ _} _ _ _ _.
Arguments FuseEmb {_ _ _ _} _ _ _ _.
Arguments FuseOutput {_ _ _ _} _ _ _ _.
Arguments ComputeLogitsWithLM {_ _ _ _} _ _ _ _.
Arguments FPropLm_seq {_ _ _ _} _ _ _ _ _.
Arguments FuseEmb_seq {_ _ _ _} _ _ _ _.
Arguments FuseOutput_seq {_ _ _ _} _ _ _ _.
Arguments ComputeLogitsWithLM_seq {_ _ _ _} _ _ _ _.
Arguments fusion_Flatten {_ _ _ _} _ _.

(** Of what the softmax layer returns the decoder reads [.logits] only. *)
Record SoftmaxLayer : Type := {
  (** [FProp(theta, [inputs], class_weights, class_ids).logits], one step. *)
  softmax_FProp : mat → option (list Q) → option (list Z) → mat;
  (** The same on a [[time, batch, dim]] input. *)
  softmax_FProp_seq : list mat → list (list Q) → list (list Z) → list mat;
  (** [XentLoss([inputs], class_weights, class_ids).logits]. *)
  softmax_XentLoss : mat → mat → list (list Z) → mat;
}.

(** TensorFlow's random ops, as oracles: what an op draws is a function of
    its arguments and, for the two sampling ops, of the time step it is run
    at. *)
Record RandomOps : Type := {
  (** [tf.nn.dropout(x, keep_prob, seed)] on a [[batch, dim]] tensor. *)
  tf_nn_dropout : mat → Q → option Z → mat;
  (** [py_utils.DeterministicDropout(x, keep_prob, seeds)]. *)
  DeterministicDropout : mat → Q → list Z → mat;
  (** [tf.nn.dropout] on the [[batch, time, dim]] target embeddings. *)
  tf_nn_dropout3 : list mat → Q → option Z → list mat;
  DeterministicDropout3 : list mat → Q → list Z → list mat;
  (** [tf.random_uniform([n], seed)] run at a time step: values in [0, 1). *)
  tf_random_uniform : Z → nat → option Z → list Q;
  (** [tf.multinomial(log_softmax(logits), 1, seed)] run at a time step,
      already reshaped to [[batch]] ids. *)
  tf_multinomial : Z → mat → option Z → list Z;
}.

Class Layers : Type := {
  RnnState : Type;
  AttenState : Type;
  PackedSrc : Type;
  FusionState : Type;
  LmOutput : Type;
  LmOutputSeq : Type;
  AuxTensor : Type;
  emb : EmbeddingLayer;
  rnn_cell : list (RNNCell RnnState);
  atten : Attention PackedSrc AttenState;
  contextualizer : Contextualizer PackedSrc;
  fusion : Fusion FusionState LmOutput LmOutputSeq AuxTensor;
  softmax : SoftmaxLayer;
  random : RandomOps;
  (** [state.m], the output part of a cell state. *)
  rnn_state_m : RnnState → mat;
  (** Slice [t] along the first axis of an auxiliary target tensor. *)
  aux_time_slice : AuxTensor → nat → AuxTensor;
  (** [tf.nn.sparse_softmax_cross_entropy_with_logits(labels, logits)] and
      [tf.nn.softmax_cross_entropy_with_logits(labels, logits)] on one token:
      they involve [exp] and [log], and are left to the layer. *)
  sparse_softmax_cross_entropy_with_logits : Z → vec → Q;
  softmax_cross_entropy_with_logits : vec → vec → Q;
  (** [tf.nn.log_softmax] on a [[batch, num_classes]] tensor. *)
  tf_nn_log_softmax : mat → mat;
  (** [py_utils.GenerateSeedFromName]. *)
  GenerateSeedFromName : string → Z;
  (** [py_utils.use_tpu()]. *)
  use_tpu : bool;
}.

(** The complete state carried from one step to the next.  A [NestedMap] in
    the source: the fields that are set and deleted on the way are options. *)
Record DecoderStepState `{Layers} : Type := {
  rnn_states : list RnnState;
  atten_context : mat;
  atten_probs : mat;
  atten_states : AttenState;
  fusion_states : option FusionState;
  misc_states : MiscStates;
  logits : option leaf;
  step_outs : option mat;
}.

(** [TargetInfo], one step; [temb] is its field [emb]. [label] and [weight]
    are [None] in beam search. *)
Record TargetInfo `{Layers} : Type := {
  id : list Z;
  label : option (list Z);
  weight : option (list Q);
  temb : mat;
  padding : mat;
  misc : gmap string AuxTensor;
}.

(** [TargetInfo] holding the [TensorArray]s of a training pass
    ([target_info_tas]). *)
Record TargetInfoTas `{Layers} : Type := {
  id_ta : TensorArray (list Z);
  label_ta : TensorArray (list Z);
  weight_ta : TensorArray (list Q);
  emb_ta : TensorArray mat;
  padding_ta : TensorArray mat;
  misc_ta : gmap string AuxTensor;
}.

(** [SequenceOutTensorArrays]. *)
Record SequenceOutTensorArrays : Type := {
  rnn_outs : list (TensorArray mat);
  step_outs_ta : TensorArray mat;
  atten_probs_ta : TensorArray mat;
  logits_ta : TensorArray mat;
  fusion_ta : list (TensorArray leaf);
  misc_ta_out : list (TensorArray leaf);
}.

(** [targets]: the batch of target sequences, every tensor [[batch, time]]. *)
Record Targets `{Layers} : Type := {
  ids : list (list Z);
  labels : list (list Z);
  weights : list (list Q);
  paddings : list (list Q);
  fst_bias_probs : option AuxTensor;
}.

(** ** Parameters *)

Record LabelSmoothingParams : Type := {
  num_classes : nat;
}.

Record ParamsT : Type := {
  (* Inherited from the base layer and the base decoder. *)
  name : string;
  is_eval : bool;
  random_seed : option Z;
  packed_input : bool;
  target_seq_len : nat;
  target_sos_id : Z;
  (* Defined by [AsrDecoderBase.Params]. *)
  dropout_prob : Q;
  emb_dim : nat;
  emb_vocab_size : nat;
  label_smoothing : option LabelSmoothingParams;
  rnn_cell_dim : nat;
  rnn_cell_hidden_dim : nat;
  attention_hidden_dim : nat;
  softmax_num_classes : nat;
  softmax_uses_attention : bool;
  source_dim : nat;
  atten_context_dim : nat;
  first_rnn_input_dim : nat;
  rnn_layers : nat;
  residual_start : Z;
  parallel_iterations : nat;
  per_token_avg_loss : bool;
  min_ground_truth_prob : Q;
  min_prob_step : Q;
  prob_decay_start_step : Q;
  use_while_loop_based_unrolling : bool;
  logit_types : list (string * Q);
  use_unnormalized_logits_as_log_probs : bool;
  fusion_lm_vocab_size : nat;
}.

(** [AsrDecoderBase.Params]: the defaults, over the parameters [super] of the
    base class (of which only [target_seq_len] is overridden). *)
Definition Params (super : ParamsT) : ParamsT :=
  let vocab := 96%nat in
  {| name := name super;
     is_eval := is_eval super;
     random_seed := random_seed super;
     packed_input := packed_input super;
     target_seq_len := 300;
     target_sos_id := target_sos_id super;
     dropout_prob := 0.0;
     emb_dim := 96;
     emb_vocab_size := vocab;
     label_smoothing := None;
     rnn_cell_dim := 256;
     rnn_cell_hidden_dim := 0;
     attention_hidden_dim := 128;
     softmax_num_classes := vocab;
     softmax_uses_attention := true;
     source_dim := 512;
     atten_context_dim := 0;
     first_rnn_input_dim := 0;
     rnn_layers := 1;
     residual_start := 0;
     parallel_iterations := 30;
     per_token_avg_loss := true;
     min_ground_truth_prob := 1.0;
     min_prob_step := 1e6;
     prob_decay_start_step := 1e4;
     use_while_loop_based_unrolling := true;
     logit_types := [("logits", 1.0%Q)];
     use_unnormalized_logits_as_log_probs := true;
     fusion_lm_vocab_size := vocab |}.

(** Truthiness of an optional integer ([if p.random_seed:]). *)
Definition truthy (x : option Z) : bool :=
  match x with
  | Some z => negb (z =? 0)%Z
  | None => false
  end.

(** ** The decoder object *)

(** [self]: the parameters and what [__init__] derives from them.
    [softmax_input_dim] and [smoother_num_classes] are the values [__init__]
    writes into [p.softmax.input_dim] and [p.label_smoothing.num_classes]. *)
Record AsrDecoderBase : Type := {
  params : ParamsT;
  _max_label_prob : Q;
  _decay_interval : Q;
  _prng_seed : Z;
  softmax_input_dim : nat;
  smoother_num_classes : option nat;
}.

Section Decoder.
Context `{L : Layers}.

Definition _GetAttenContextDim (p : ParamsT) : nat :=
  let audio_context_dim :=
    if (atten_context_dim p =? 0)%nat then source_dim p
    else atten_context_dim p in
  let additional_context_dim := GetContextDim contextualizer in
  (audio_context_dim + additional_context_dim)%nat.

(** [AsrDecoderBase.__init__].  The constructors of the base class and of
    the child layers are outside this file; the checks below are the ones
    [__init__] itself makes, in the order it makes them. *)
Definition __init__ (params : ParamsT) : result AsrDecoderBase :=
  let p := params in
  _ ← py_assert (negb (packed_input p))
        "Packed inputs are not yet supported for AsrDecoderBase.";
  let max_label_prob := (1 - min_ground_truth_prob p)%Q in
  let decay_interval := (min_prob_step p - prob_decay_start_step p)%Q in
  if Qle_bool decay_interval 0 then
    Raise (ValueError "min_prob_step (%d) <= prob_decay_start_step (%d)")
  else
    let prng_seed :=
      if truthy (random_seed p) then default 0%Z (random_seed p)
      else GenerateSeedFromName (name p) in
    let atten_context_dim := _GetAttenContextDim p in
    _ ← py_assert (0 <? atten_context_dim)%nat "";
    let input_dim :=
      if softmax_uses_attention p
      then (rnn_cell_dim p + atten_context_dim)%nat
      else rnn_cell_dim p in
    smoother ←
      match label_smoothing p with
      | None => Ok None
      | Some ls =>
          if (num_classes ls =? 0)%nat then Ok (Some (softmax_num_classes p))
          else if negb (num_classes ls =? softmax_num_classes p)%nat then
            Raise (ValueError
              "label_smoothing.num_classes ({}) does not match softmax.num_classes ({})")
          else Ok (Some (num_classes ls))
      end;
    Ok {| params := p;
          _max_label_prob := max_label_prob;
          _decay_interval := decay_interval;
          _prng_seed := prng_seed;
          softmax_input_dim := input_dim;
          smoother_num_classes := smoother |}.

(** The two dropout ops, for the tensor type [A] they are applied to. *)
Class DropoutOps (A : Type) : Type := {
  nn_dropout : A → Q → option Z → A;
  deterministic_dropout : A → Q → list Z → A;
}.
#[global] Instance mat_dropout : DropoutOps mat :=
  {| nn_dropout := tf_nn_dropout random;
     deterministic_dropout := DeterministicDropout random |}.
#[global] Instance embs_dropout : DropoutOps (list mat) :=
  {| nn_dropout := tf_nn_dropout3 random;
     deterministic_dropout := DeterministicDropout3 random |}.

Definition _ApplyDropout {A} `{DropoutOps A} (self : AsrDecoderBase)
    (x_in : A) (deterministic : bool) (extra_seed : option Z)
    (step_state : option StepState) : result A :=
  let p := params self in
  _ ← py_assert (Qle_bool 0 (dropout_prob p) && Qltb (dropout_prob p) 1.0) "";
  if is_eval p || Qeqb (dropout_prob p) 0.0 then Ok x_in
  else
    let seed := _prng_seed self in
    let seed := if truthy extra_seed then (seed + default 0 extra_seed)%Z
                else seed in
    if deterministic then
      match step_state with
      | None => Raise (AssertionError "")
      | Some ss =>
          let seeds := [int64_add seed (global_step ss);
                        int64_add seed (time_step ss)] in
          Ok (deterministic_dropout x_in (1.0 - dropout_prob p)%Q seeds)
      end
    else
      let seed := if truthy (random_seed p) then Some seed else None in
      Ok (nn_dropout x_in (1.0 - dropout_prob p)%Q seed).

(** ** Miscellaneous state and scheduled sampling *)

(** The ground-truth sampling probability at a global step: the arithmetic
    of [MiscZeroState], [tf.to_float] being the injection of [Z] into [Q]. *)
Definition groundtruth_p_at (self : AsrDecoderBase) (gstep : Z) : Q :=
  let p := params self in
  let step := inject_Z gstep in
  let sampling_p := ((step - prob_decay_start_step p) / _decay_interval self)%Q in
  let groundtruth_p := (1 - (_max_label_prob self * sampling_p))%Q in
  let groundtruth_p := Qmax groundtruth_p (min_ground_truth_prob p) in
  let groundtruth_p := Qmin groundtruth_p 1.0 in
  groundtruth_p.

(** [tf.reshape(target_ids[:, 0], [bs])]. *)
Definition first_column (target_ids : list (list Z)) (bs : nat)
  : result (list Z) :=
  col ← mapM (λ row, py_index row 0) target_ids;
  if decide (length col = bs) then Ok col
  else Raise (TFError "reshape: size mismatch").

(** [MiscZeroState]; [gstep] is the value of [GetOrCreateGlobalStep()]. *)
Definition MiscZeroState (self : AsrDecoderBase) (gstep : Z)
    (target_ids : list (list Z)) (bs : nat) : result MiscStates :=
  let misc_zero_state :=
    {| step_state := {| global_step := gstep; time_step := 0 |};
       prev_predicted_ids := None;
       groundtruth_p := None |} in
  if Qltb 0 (_max_label_prob self) then
    ids0 ← first_column target_ids bs;
    Ok {| step_state := step_state misc_zero_state;
          prev_predicted_ids := Some ids0;
          groundtruth_p := Some (groundtruth_p_at self gstep) |}
  else Ok misc_zero_state.

Definition set_time_step (t : Z) (m : MiscStates) : MiscStates :=
  {| step_state := {| global_step := global_step (step_state m);
                      time_step := t |};
     prev_predicted_ids := prev_predicted_ids m;
     groundtruth_p := groundtruth_p m |}.

Definition set_prev_predicted_ids (x : list Z) (m : MiscStates) : MiscStates :=
  {| step_state := step_state m;
     prev_predicted_ids := Some x;
     groundtruth_p := groundtruth_p m |}.

Definition set_misc_states (m : MiscStates) (s : DecoderStepState)
  : DecoderStepState :=
  {| rnn_states := rnn_states s; atten_context := atten_context s;
     atten_probs := atten_probs s; atten_states := atten_states s;
     fusion_states := fusion_states s; misc_states := m;
     logits := logits s; step_outs := step_outs s |}.

Definition set_logits (x : option leaf) (s : DecoderStepState)
  : DecoderStepState :=
  {| rnn_states := rnn_states s; atten_context := atten_context s;
     atten_probs := atten_probs s; atten_states := atten_states s;
     fusion_states := fusion_states s; misc_states := misc_states s;
     logits := x; step_outs := step_outs s |}.

Definition set_fusion_states (x : option FusionState) (s : DecoderStepState)
  : DecoderStepState :=
  {| rnn_states := rnn_states s; atten_context := atten_context s;
     atten_probs := atten_probs s; atten_states := atten_states s;
     fusion_states := x; misc_states := misc_states s;
     logits := logits s; step_outs := step_outs s |}.

Definition set_step_outs (x : option mat) (s : DecoderStepState)
  : DecoderStepState :=
  {| rnn_states := rnn_states s; atten_context := atten_context s;
     atten_probs := atten_probs s; atten_states := atten_states s;
     fusion_states := fusion_states s; misc_states := misc_states s;
     logits := logits s; step_outs := x |}.

(** A tensor used where a float tensor is required. *)
Definition as_float (x : leaf) : result mat :=
  match x with
  | FloatLeaf m => Ok m
  | IntLeaf _ => Raise (TFError "expected a float tensor")
  end.

(** [PostStepDecoderStateUpdate(decoder_step_state, logits=None)]. *)
Definition PostStepDecoderStateUpdate (self : AsrDecoderBase)
    (decoder_step_state : DecoderStepState) (logits : option leaf)
  : result DecoderStepState :=
  let p := params self in
  decoder_step_state ←
    (if negb (use_while_loop_based_unrolling p) then
       if Qltb (min_ground_truth_prob p) 1.0 then
         Raise (ValueError "SS is not yet supported")
       else Ok decoder_step_state
     else
       match logits with
       | None => Raise (ValueError "logits cannot be None")
       | Some lg =>
           let decoder_step_state := set_logits (Some lg) decoder_step_state in
           if Qltb 0 (_max_label_prob self) then
             lgf ← as_float lg;
             let log_probs := tf_nn_log_softmax lgf in
             let pred_ids :=
               tf_multinomial random
                 (time_step (step_state (misc_states decoder_step_state)))
                 log_probs (random_seed p) in
             Ok (set_misc_states
                   (set_prev_predicted_ids pred_ids
                      (misc_states decoder_step_state))
                   decoder_step_state)
           else Ok decoder_step_state
       end);
  let misc := misc_states decoder_step_state in
  Ok (set_misc_states
        (set_time_step (int64_add (time_step (step_state misc)) 1) misc)
        decoder_step_state).

(** ** Target information *)

(** [CreateTargetInfoMisc]. *)
Definition CreateTargetInfoMisc (targets : Targets) : gmap string AuxTensor :=
  match fst_bias_probs targets with
  | Some x => {["fst_bias_probs" := x]}
  | None => ∅
  end.

(** [_GetInitialTargetInfo]; [target_embs] is [[batch, time, emb_dim]]. *)
Definition _GetInitialTargetInfo (targets : Targets) (max_seq_length : nat)
    (target_embs : list mat) : result TargetInfoTas :=
  id ← _ToTensorArray (tf_transpose (ids targets)) max_seq_length;
  label ← _ToTensorArray (tf_transpose (labels targets)) max_seq_length;
  weight ← _ToTensorArray (tf_transpose (weights targets)) max_seq_length;
  emb ← _ToTensorArray (tf_transpose target_embs) max_seq_length;
  padding ←
    _ToTensorArray
      ((λ row : list Q, (λ x, [x]) <$> row) <$> tf_transpose (paddings targets))
      max_seq_length;
  Ok {| id_ta := id; label_ta := label; weight_ta := weight; emb_ta := emb;
        padding_ta := padding; misc_ta := CreateTargetInfoMisc targets |}.

(** [getattr] on a field of [misc_states] that scheduled sampling adds. *)
Definition getattr {A} (attr : string) (x : option A) : result A :=
  match x with
  | Some a => Ok a
  | None => Raise (AttributeError attr)
  end.

(** [tf.where(cond, x, y)] with [cond] of shape [[batch]]: row [i] of the
    result is row [i] of [x] where [cond] holds and of [y] elsewhere. *)
Definition tf_where {A} (cond : list bool) (x y : list A) : result (list A) :=
  if decide (length x = length cond ∧ length y = length cond) then
    Ok (zip_with (λ c xy, if c : bool then xy.1 else xy.2) cond (zip x y))
  else Raise (TFError "where: shapes differ").

(** [TargetsToBeFedAtCurrentDecodeStep] of the base class.  The uniform draw
    is the oracle's value at this time step. *)
Definition TargetsToBeFedAtCurrentDecodeStep (self : AsrDecoderBase)
    (time : nat) (decoder_step_state : DecoderStepState)
    (target_info_tas : TargetInfoTas) : result TargetInfo :=
  target_id ← ta_read (id_ta target_info_tas) time;
  label ← ta_read (label_ta target_info_tas) time;
  weight ← ta_read (weight_ta target_info_tas) time;
  emb0 ← ta_read (emb_ta target_info_tas) time;
  padding ← ta_read (padding_ta target_info_tas) time;
  let misc : gmap string AuxTensor := ∅ in
  '(emb1, target_id) ←
    (if Qltb 0 (_max_label_prob self) then
       let misc_states := misc_states decoder_step_state in
       ids_prev ← getattr "prev_predicted_ids" (prev_predicted_ids misc_states);
       let dec_bs := length ids_prev in
       gp ← getattr "groundtruth_p" (groundtruth_p misc_states);
       let pick_groundtruth :=
         (λ u, Qltb u gp) <$>
           tf_random_uniform random (Z.of_nat time) dec_bs
             (random_seed (params self)) in
       emb1 ← tf_where pick_groundtruth emb0 (EmbLookup emb <$> ids_prev);
       target_id ← tf_where pick_groundtruth target_id ids_prev;
       Ok (emb1, target_id)
     else Ok (emb0, target_id));
  Ok {| id := target_id; label := Some label; weight := Some weight;
        temb := emb1; padding := padding; misc := misc |}.

(** [OverrideEmbedding]. *)
Definition OverrideEmbedding (target_info : TargetInfo) (new_emb : mat)
  : TargetInfo :=
  {| id := id target_info; label := label target_info;
     weight := weight target_info; temb := new_emb;
     padding := padding target_info; misc := misc target_info |}.

(** ** One decoding step ([AsrDecoder]) *)

(** [_ComputeAttention]. *)
Definition _ComputeAttention (rnn_out : mat) (packed_src : PackedSrc)
    (attention_state : AttenState) (per_step_src_padding : option mat)
    (step_state : StepState) : mat * mat * AttenState :=
  ComputeContextVectorWithSource atten packed_src rnn_out attention_state
    per_step_src_padding step_state.

(** [i + 1 >= self.params.residual_start > 0]. *)
Definition residual_applies (p : ParamsT) (i : nat) : bool :=
  (residual_start p <=? Z.of_nat i + 1)%Z && (0 <? residual_start p)%Z.

(** The body of the loop [for i, cell in enumerate(self.rnn_cell[1:], 1)] of
    [SingleDecodeStep]; the loop variables are [rnn_out] and
    [new_rnn_states]. *)
Definition rnn_layer_body (self : AsrDecoderBase)
    (cur_target_info : TargetInfo) (decoder_step_state : DecoderStepState)
    (new_atten_context : mat) (use_deterministic_random : bool)
    (i : nat) (cell : RNNCell RnnState) (vars : mat * list RnnState)
  : result (mat * list RnnState) :=
  let '(rnn_out, new_rnn_states) := vars in
  let misc_states := misc_states decoder_step_state in
  state_i ← py_index (rnn_states decoder_step_state) i;
  let new_rnn_states_i :=
    FProp cell state_i rnn_out new_atten_context (padding cur_target_info) in
  let new_rnn_states := new_rnn_states ++ [new_rnn_states_i] in
  let new_rnn_out := GetOutput cell new_rnn_states_i in
  new_rnn_out ←
    _ApplyDropout self new_rnn_out use_deterministic_random
      (Some (Z.of_nat i * 1000)%Z) (Some (step_state misc_states));
  let rnn_out :=
    if residual_applies (params self) i then mat_add rnn_out new_rnn_out
    else new_rnn_out in
  Ok (rnn_out, new_rnn_states).

(** The loop: [cells] are the cells still to run, [i] the index of the first. *)
Fixpoint rnn_layers_loop (body : nat → RNNCell RnnState →
      mat * list RnnState → result (mat * list RnnState))
    (cells : list (RNNCell RnnState)) (i : nat) (vars : mat * list RnnState)
  : result (mat * list RnnState) :=
  match cells with
  | [] => Ok vars
  | cell :: cells' =>
      vars' ← body i cell vars;
      rnn_layers_loop body cells' (S i) vars'
  end.

(** The values [rnn_out] takes at the end of each iteration of that loop:
    the outputs of layers [i], [i + 1], ... *)
Fixpoint rnn_layers_trace (body : nat → RNNCell RnnState →
      mat * list RnnState → result (mat * list RnnState))
    (cells : list (RNNCell RnnState)) (i : nat) (vars : mat * list RnnState)
  : result (list mat) :=
  match cells with
  | [] => Ok []
  | cell :: cells' =>
      vars' ← body i cell vars;
      outs ← rnn_layers_trace body cells' (S i) vars';
      Ok (vars'.1 :: outs)
  end.

(** [AsrDecoder.SingleDecodeStep]. *)
Definition SingleDecodeStep (self : AsrDecoderBase) (packed_src : PackedSrc)
    (cur_target_info : TargetInfo) (decoder_step_state : DecoderStepState)
    (per_step_src_padding : option mat) (use_deterministic_random : bool)
  : result (mat * DecoderStepState) :=
  let misc_states := misc_states decoder_step_state in
  cell_0 ← py_index rnn_cell 0;
  state_0 ← py_index (rnn_states decoder_step_state) 0;
  let new_rnn_states_0 :=
    FProp cell_0 state_0 (temb cur_target_info)
      (atten_context decoder_step_state) (padding cur_target_info) in
  let new_rnn_states := [new_rnn_states_0] in
  let rnn_out := GetOutput cell_0 new_rnn_states_0 in
  let '(new_atten_context, new_atten_probs, new_atten_states) :=
    _ComputeAttention rnn_out packed_src (atten_states decoder_step_state)
      per_step_src_padding (step_state misc_states) in
  let new_atten_context :=
    QueryAttention contextualizer rnn_out misc_states new_atten_context
      packed_src in
  '(rnn_out, new_rnn_states) ←
    rnn_layers_loop
      (rnn_layer_body self cur_target_info decoder_step_state
         new_atten_context use_deterministic_random)
      (drop 1 rnn_cell) 1 (rnn_out, new_rnn_states);
  let step_out := tf_concat1 rnn_out new_atten_context in
  Ok (step_out,
      {| rnn_states := new_rnn_states;
         atten_context := new_atten_context;
         atten_probs := new_atten_probs;
         atten_states := new_atten_states;
         fusion_states := None;
         misc_states := misc_states;
         logits := None;
         step_outs := None |}).

(** The output of every layer in one [SingleDecodeStep]: the value of
    [rnn_out] after layer 0 and at the end of each iteration of the loop. *)
Definition layer_outputs (self : AsrDecoderBase) (packed_src : PackedSrc)
    (cur_target_info : TargetInfo) (decoder_step_state : DecoderStepState)
    (per_step_src_padding : option mat) (use_deterministic_random : bool)
  : result (list mat) :=
  let misc_states := misc_states decoder_step_state in
  cell_0 ← py_index rnn_cell 0;
  state_0 ← py_index (rnn_states decoder_step_state) 0;
  let new_rnn_states_0 :=
    FProp cell_0 state_0 (temb cur_target_info)
      (atten_context decoder_step_state) (padding cur_target_info) in
  let rnn_out := GetOutput cell_0 new_rnn_states_0 in
  let '(new_atten_context, _, _) :=
    _ComputeAttention rnn_out packed_src (atten_states decoder_step_state)
      per_step_src_padding (step_state misc_states) in
  let new_atten_context :=
    QueryAttention contextualizer rnn_out misc_states new_atten_context
      packed_src in
  outs ←
    rnn_layers_trace
      (rnn_layer_body self cur_target_info decoder_step_state
         new_atten_context use_deterministic_random)
      (drop 1 rnn_cell) 1 (rnn_out, [new_rnn_states_0]);
  Ok (rnn_out :: outs).

(** ** Zero state *)

(** [_InitAttention]. *)
Definition _InitAttention (source_encs : list mat) (source_paddings : mat)
  : PackedSrc :=
  InitForSourcePacked atten source_encs source_encs source_paddings.

(** [BaseZeroState]. *)
Definition BaseZeroState (self : AsrDecoderBase) (source_encs : list mat)
    (source_paddings : mat) (bs : nat) (misc_zero_states : MiscStates)
    (per_step_source_padding : option mat)
  : result (list RnnState * mat * mat * AttenState * PackedSrc) :=
  let p := params self in
  let step_state := step_state misc_zero_states in
  rnn_states ←
    mapM (λ i, cell ← py_index rnn_cell i; Ok (rnn_zero_state cell bs))
         (seq 0 (rnn_layers p));
  let packed_src := _InitAttention source_encs source_paddings in
  let zero_atten_state :=
    ZeroAttentionState atten (length source_encs) bs in
  let '(atten_context, atten_probs, atten_states) :=
    ComputeContextVectorWithSource atten packed_src
      (tf_zeros bs (rnn_cell_dim p)) zero_atten_state
      per_step_source_padding step_state in
  let atten_context :=
    ZeroAttention contextualizer bs misc_zero_states atten_context
      packed_src in
  Ok (rnn_states, atten_context, atten_probs, atten_states, packed_src).

(** [DecoderStepZeroState]. *)
Definition DecoderStepZeroState (self : AsrDecoderBase) (gstep : Z)
    (source_encs : list mat) (source_paddings : mat)
    (target_ids : list (list Z)) (bs : nat)
  : result (DecoderStepState * PackedSrc) :=
  misc_zero_states ← MiscZeroState self gstep target_ids bs;
  '(rnn_states, atten_context, atten_probs, atten_states, packed_src) ←
    BaseZeroState self source_encs source_paddings bs misc_zero_states None;
  Ok ({| rnn_states := rnn_states;
         atten_context := atten_context;
         atten_probs := atten_probs;
         atten_states := atten_states;
         fusion_states := Some (fusion_zero_state fusion bs);
         misc_states := misc_zero_states;
         logits := None;
         step_outs := None |}, packed_src).

(** ** Beam search callbacks ([AsrDecoder]) *)

Record AllAttenStates : Type := {
  bs_atten_context : mat;
  bs_atten_probs : mat;
  bs_atten_states : AttenState;
}.

(** The opaque state the beam search driver threads through the callbacks. *)
Record BeamSearchStates : Type := {
  bs_rnn_states : list RnnState;
  all_atten_states : AllAttenStates;
  bs_fusion_states : FusionState;
  bs_misc_states : MiscStates;
}.

(** [bs_results]. *)
Record BeamSearchResults : Type := {
  res_atten_probs : mat;
  log_probs : mat;
}.

(** [InitDecoder]. *)
Definition InitDecoder (self : AsrDecoderBase) (gstep : Z)
    (source_encs : list mat) (source_paddings : mat) (dec_bs : nat)
  : result DecoderStepState :=
  '(decoder_step_zero_state, _) ←
    DecoderStepZeroState self gstep source_encs source_paddings
      (replicate dec_bs [(1 * target_sos_id (params self))%Z]) dec_bs;
  Ok decoder_step_zero_state.

(** [_PostProcessAttenProbsForBeamSearch]. *)
Definition _PostProcessAttenProbsForBeamSearch (atten_probs : mat) : mat :=
  atten_probs.

(** [_GetNumHypsForBeamSearch]; [source_encs] is [[time, batch, dim]]. *)
Definition _GetNumHypsForBeamSearch (source_encs : list mat)
    (num_hyps_per_beam : nat) : nat :=
  (length (default [] (head source_encs)) * num_hyps_per_beam)%nat.

(** [_InitBeamSearchStateCallback]. *)
Definition _InitBeamSearchStateCallback (self : AsrDecoderBase) (gstep : Z)
    (source_encs : list mat) (source_paddings : mat) (num_hyps_per_beam : nat)
  : result (mat * BeamSearchStates) :=
  let num_hyps := _GetNumHypsForBeamSearch source_encs num_hyps_per_beam in
  s ← InitDecoder self gstep source_encs source_paddings num_hyps;
  fusion_states ← getattr "fusion_states" (fusion_states s);
  let atten_probs := _PostProcessAttenProbsForBeamSearch (atten_probs s) in
  Ok (atten_probs,
      {| bs_rnn_states := rnn_states s;
         all_atten_states :=
           {| bs_atten_context := atten_context s;
              bs_atten_probs := atten_probs;
              bs_atten_states := atten_states s |};
         bs_fusion_states := fusion_states;
         bs_misc_states := misc_states s |}).

(** [_PreBeamSearchStepCallback]; [step_ids] is [[batch, 1]]. *)
Definition _PreBeamSearchStepCallback (self : AsrDecoderBase)
    (source_encs : list mat) (source_paddings : mat)
    (step_ids : list (list Z)) (states : BeamSearchStates)
    (num_hyps_per_beam : nat)
  : result (BeamSearchResults * BeamSearchStates) :=
  let p := params self in
  let fake_step_labels := step_ids in
  let step_paddings : mat := (λ row : list Z, (λ _, 0%Q) <$> row) <$> step_ids in
  let step_weights : mat := (λ row : list Z, (λ _, 1%Q) <$> row) <$> step_ids in
  let embs := EmbLookup emb <$> concat step_ids in
  let prev_rnn_states := bs_rnn_states states in
  let prev_atten_states := bs_atten_states (all_atten_states states) in
  let prev_atten_context := bs_atten_context (all_atten_states states) in
  let prev_atten_probs := bs_atten_probs (all_atten_states states) in
  let prev_fusion_states := bs_fusion_states states in
  let prev_misc_states := bs_misc_states states in
  let prev_decoder_step_state :=
    {| rnn_states := prev_rnn_states;
       atten_context := prev_atten_context;
       atten_probs := prev_atten_probs;
       atten_states := prev_atten_states;
       fusion_states := None;
       misc_states := prev_misc_states;
       logits := None;
       step_outs := None |} in
  let cur_target_info :=
    {| id := concat step_ids; label := None; weight := None; temb := embs;
       padding := step_paddings; misc := ∅ |} in
  let '(lm_output, fusion_states) :=
    FPropLm fusion prev_fusion_states (id cur_target_info)
      (padding cur_target_info) in
  let '(fused_emb, fusion_states) :=
    FuseEmb fusion fusion_states lm_output (temb cur_target_info) in
  let cur_target_info := OverrideEmbedding cur_target_info fused_emb in
  let packed_src := _InitAttention source_encs source_paddings in
  '(step_out, new_decoder_step_state) ←
    SingleDecodeStep self packed_src cur_target_info prev_decoder_step_state
      None false;
  let atten_context := atten_context new_decoder_step_state in
  let atten_probs := atten_probs new_decoder_step_state in
  let rnn_states := rnn_states new_decoder_step_state in
  let atten_states := atten_states new_decoder_step_state in
  let misc_states := misc_states new_decoder_step_state in
  let softmax_input :=
    if softmax_uses_attention p then step_out
    else tf_split_fst (rnn_cell_dim p) step_out in
  let '(softmax_input, fusion_states) :=
    FuseOutput fusion fusion_states lm_output softmax_input in
  let xent_loss_logits :=
    softmax_XentLoss softmax softmax_input step_weights fake_step_labels in
  let logits :=
    ComputeLogitsWithLM fusion fusion_states xent_loss_logits true in
  let log_probs :=
    if use_unnormalized_logits_as_log_probs p then logits
    else tf_nn_log_softmax logits in
  let atten_probs := _PostProcessAttenProbsForBeamSearch atten_probs in
  Ok ({| res_atten_probs := atten_probs; log_probs := log_probs |},
      {| bs_rnn_states := rnn_states;
         all_atten_states :=
           {| bs_atten_context := atten_context;
              bs_atten_probs := atten_probs;
              bs_atten_states := atten_states |};
         bs_fusion_states := fusion_states;
         bs_misc_states := misc_states |}).

(** [_PostBeamSearchStepCallback]. *)
Definition _PostBeamSearchStepCallback (states : BeamSearchStates)
  : BeamSearchStates := states.

(** ** Loss and metrics *)

Definition Qsum (l : list Q) : Q := foldr Qplus 0%Q l.

(** [tf.reduce_sum] of a [[batch, time]] tensor. *)
Definition reduce_sum (x : list (list Q)) : Q := Qsum (Qsum <$> x).
(** [tf.reduce_sum(x, 1)]. *)
Definition reduce_sum_1 (x : list (list Q)) : list Q := Qsum <$> x.
(** [x * y] on two [[batch, time]] tensors of the same shape. *)
Definition mul2 (x y : list (list Q)) : list (list Q) :=
  zip_with (zip_with Qmult) x y.

(** [tf.argmax] of a vector: the first index of a largest entry. *)
Fixpoint argmax_from (i best_i : Z) (best : Q) (v : vec) : Z :=
  match v with
  | [] => best_i
  | x :: v' =>
      if Qltb best x then argmax_from (i + 1) i x v'
      else argmax_from (i + 1) best_i best v'
  end.
Definition tf_argmax (v : vec) : Z :=
  match v with
  | [] => 0
  | x :: v' => argmax_from 1 0 x v'
  end.

(** The per-token cross-entropy [per_example_loss] of [_ComputeMetrics]. *)
Definition per_example_loss (logits : list mat) (target_labels : list (list Z))
    (target_probs : option (list mat)) : list (list Q) :=
  match target_probs with
  | Some probs =>
      zip_with (zip_with softmax_cross_entropy_with_logits) probs logits
  | None =>
      zip_with (zip_with sparse_softmax_cross_entropy_with_logits)
        target_labels logits
  end.

(** [_ComputeMetrics]: the metrics, each a (value, weight) pair, and the
    per-sequence loss. [logits] is [[batch, time, num_classes]]. *)
Definition _ComputeMetrics (self : AsrDecoderBase) (logits : list mat)
    (target_labels : list (list Z)) (target_weights : list (list Q))
    (target_probs : option (list mat)) : gmap string (Q * Q) * list Q :=
  let p := params self in
  let target_weights_sum := reduce_sum target_weights in
  let target_weights_sum_eps := (target_weights_sum + 0.000001)%Q in
  let correct_preds : list (list Q) :=
    zip_with
      (zip_with (λ (v : vec) (l : Z), if (tf_argmax v =? l)%Z then 1%Q else 0%Q))
      logits target_labels in
  let correct_next_preds := reduce_sum (mul2 correct_preds target_weights) in
  let accuracy := (correct_next_preds / target_weights_sum_eps)%Q in
  let per_example_loss := per_example_loss logits target_labels target_probs in
  let per_sequence_loss := reduce_sum_1 (mul2 per_example_loss target_weights) in
  let per_token_avg_loss' :=
    (Qsum per_sequence_loss / target_weights_sum_eps)%Q in
  let '(loss, loss_weight) :=
    if per_token_avg_loss p then (per_token_avg_loss', target_weights_sum)
    else
      ((Qsum per_sequence_loss
          / inject_Z (Z.of_nat (length per_sequence_loss)))%Q,
       inject_Z (Z.of_nat (length per_sequence_loss))) in
  let metrics : gmap string (Q * Q) :=
    <["log_pplx" := (per_token_avg_loss', target_weights_sum)]>
      {["loss" := (loss, loss_weight)]} in
  let metrics :=
    if negb use_tpu then
      <["fraction_of_correct_next_step_preds" :=
          (accuracy, target_weights_sum)]> metrics
    else metrics in
  (metrics, per_sequence_loss).

(** The per-token average loss as the specification words it: the sum of
    [per_example_loss * weight] over every token of the batch, divided by the
    sum of the weights plus [1e-6]. *)
Definition per_token_avg_loss_spec (per_example_loss weight : list (list Q))
  : Q :=
  (Qsum (concat (mul2 per_example_loss weight))
     / (Qsum (concat weight) + 1e-6))%Q.

(** ** Predictions *)

(** What [ComputePredictions] returns: [logits] is
    [[batch, time, num_classes]], [attention.probs] is
    [[batch, time, source_length]].  The summaries the unrollers add on the
    way do not enter the predictions and are left out, as are the additional
    attention maps of the function-based unroller. *)
Record Predictions : Type := {
  predictions_logits : list mat;
  predictions_logits_without_bias : option (list mat);
  predictions_attention_probs : list mat;
  predictions_source_enc_len : option (list Q);
}.

(** ** The graph-loop unroller *)

(** [misc_states.Flatten()]: the leaves in the order of their keys. *)
Definition misc_Flatten (m : MiscStates) : list leaf :=
  match groundtruth_p m with Some g => [FloatLeaf [[g]]] | None => [] end
  ++ match prev_predicted_ids m with Some x => [IntLeaf x] | None => [] end
  ++ [IntLeaf [global_step (step_state m)];
      IntLeaf [time_step (step_state m)]].

(** [_GetInitialSeqStateTensorArrays]. *)
Definition _GetInitialSeqStateTensorArrays (self : AsrDecoderBase)
    (max_seq_length : nat)
    (decoder_step_state_zero_fusion_flat : list leaf)
    (decoder_step_state_zero_misc_flat : list leaf)
  : SequenceOutTensorArrays :=
  let p := params self in
  {| rnn_outs :=
       (λ _, _NewTensorArray max_seq_length) <$> seq 0 (rnn_layers p);
     step_outs_ta := _NewTensorArray max_seq_length;
     atten_probs_ta := _NewTensorArray max_seq_length;
     logits_ta := _NewTensorArray max_seq_length;
     fusion_ta :=
       (λ _, _NewTensorArray max_seq_length)
         <$> decoder_step_state_zero_fusion_flat;
     misc_ta_out :=
       (λ _, _NewTensorArray max_seq_length)
         <$> decoder_step_state_zero_misc_flat |}.

(** The loop [for i in range(len(xs)): new.append(tas[i].write(time, xs[i]))],
    from index [i] on. *)
Fixpoint write_each_from {A} (tas : list (TensorArray A)) (time i : nat)
    (xs : list A) : result (list (TensorArray A)) :=
  match xs with
  | [] => Ok []
  | x :: xs' =>
      ta ← py_index tas i;
      ta' ← ta_write ta time x;
      new ← write_each_from tas time (S i) xs';
      Ok (ta' :: new)
  end.
Definition write_each {A} (tas : list (TensorArray A)) (time : nat)
    (xs : list A) : result (list (TensorArray A)) :=
  write_each_from tas time 0 xs.

(** [_GetNewAttenProbs]. *)
Definition _GetNewAttenProbs (seq_out_tas : SequenceOutTensorArrays)
    (time : nat) (decoder_step_state : DecoderStepState)
  : result (TensorArray mat) :=
  ta_write (atten_probs_ta seq_out_tas) time (atten_probs decoder_step_state).

(** [_UpdateSequenceOutTensorArrays]. *)
Definition _UpdateSequenceOutTensorArrays
    (decoder_step_state : DecoderStepState) (time : nat) (step_outs : mat)
    (seq_out_tas : SequenceOutTensorArrays) : result SequenceOutTensorArrays :=
  _ ← py_assert
        (length (rnn_outs seq_out_tas)
           =? length (rnn_states decoder_step_state))%nat "";
  new_rnn_outs ←
    write_each (rnn_outs seq_out_tas) time
      (rnn_state_m <$> rnn_states decoder_step_state);
  lg ← getattr "logits" (logits decoder_step_state);
  lg ← as_float lg;
  new_logits_ta ← ta_write (logits_ta seq_out_tas) time lg;
  new_step_outs_ta ← ta_write (step_outs_ta seq_out_tas) time step_outs;
  new_atten_probs_ta ← _GetNewAttenProbs seq_out_tas time decoder_step_state;
  fs ← getattr "fusion_states" (fusion_states decoder_step_state);
  new_seq_outs_fusion_states ←
    write_each (fusion_ta seq_out_tas) time (fusion_Flatten fusion fs);
  new_seq_outs_misc_states ←
    write_each (misc_ta_out seq_out_tas) time
      (misc_Flatten (misc_states decoder_step_state));
  Ok {| rnn_outs := new_rnn_outs;
        step_outs_ta := new_step_outs_ta;
        atten_probs_ta := new_atten_probs_ta;
        logits_ta := new_logits_ta;
        fusion_ta := new_seq_outs_fusion_states;
        misc_ta_out := new_seq_outs_misc_states |}.

(** [_GetPredictionFromSequenceOutTensorArrays]. *)
Definition _GetPredictionFromSequenceOutTensorArrays
    (seq_out_tas : SequenceOutTensorArrays) : result Predictions :=
  lg ← ta_stack (logits_ta seq_out_tas);
  probs ← ta_stack (atten_probs_ta seq_out_tas);
  Ok {| predictions_logits := tf_transpose lg;
        predictions_logits_without_bias := None;
        predictions_attention_probs := tf_transpose probs;
        predictions_source_enc_len := None |}.

(** [tf.while_loop(cond, body, loop_vars)], run for at most [fuel]
    iterations. *)
Fixpoint tf_while_loop {V} (fuel : nat) (cond : V → bool)
    (body : V → result V) (loop_vars : V) : result V :=
  if cond loop_vars then
    match fuel with
    | O => Raise OutOfFuel
    | S fuel' =>
        loop_vars' ← body loop_vars;
        tf_while_loop fuel' cond body loop_vars'
    end
  else Ok loop_vars.

Abbreviation LoopVars :=
  (nat * DecoderStepState * TargetInfoTas * SequenceOutTensorArrays)%type.

(** [_LoopContinue] of [ComputePredictionsDynamic]. *)
Definition _LoopContinue (max_seq_length : nat) (vars : LoopVars) : bool :=
  let '(time, _, _, _) := vars in
  (time <? max_seq_length)%nat.

(** [_LoopBody] of [ComputePredictionsDynamic]. *)
Definition _LoopBody (self : AsrDecoderBase) (packed_src : PackedSrc)
    (vars : LoopVars) : result LoopVars :=
  let '(time, old_decoder_step_state, target_info_tas, seq_out_tas) := vars in
  cur_target_info ←
    TargetsToBeFedAtCurrentDecodeStep self time old_decoder_step_state
      target_info_tas;
  old_fusion_states ←
    getattr "fusion_states" (fusion_states old_decoder_step_state);
  let '(lm_output, fusion_states') :=
    FPropLm fusion old_fusion_states (id cur_target_info)
      (padding cur_target_info) in
  let '(fused_emb, fusion_states') :=
    FuseEmb fusion fusion_states' lm_output (temb cur_target_info) in
  let cur_target_info := OverrideEmbedding cur_target_info fused_emb in
  '(step_outs, decoder_step_state) ←
    SingleDecodeStep self packed_src cur_target_info old_decoder_step_state
      None false;
  let '(step_outs, fusion_states') :=
    FuseOutput fusion fusion_states' lm_output step_outs in
  let decoder_step_state :=
    set_fusion_states (Some fusion_states') decoder_step_state in
  let xent_loss_logits :=
    softmax_FProp softmax step_outs (weight cur_target_info)
      (label cur_target_info) in
  decoder_step_state ←
    PostStepDecoderStateUpdate self decoder_step_state
      (Some (FloatLeaf xent_loss_logits));
  fs ← getattr "fusion_states" (fusion_states decoder_step_state);
  lg ← getattr "logits" (logits decoder_step_state);
  lg ← as_float lg;
  let decoder_step_state :=
    set_logits (Some (FloatLeaf (ComputeLogitsWithLM fusion fs lg false)))
      decoder_step_state in
  new_seq_out_tas ←
    _UpdateSequenceOutTensorArrays decoder_step_state time step_outs
      seq_out_tas;
  let decoder_step_state := set_logits None decoder_step_state in
  Ok (S time, decoder_step_state, target_info_tas, new_seq_out_tas).

(** [EmbLookup] on the [[batch, time]] target ids. *)
Definition EmbLookup_targets (target_ids : list (list Z)) : list mat :=
  (λ row : list Z, EmbLookup emb <$> row) <$> target_ids.

(** [ComputePredictionsDynamic]; [gstep] is the global step.  The loop counts
    [time] up from 0 to [max_seq_length], which is the fuel it is given. *)
Definition ComputePredictionsDynamic (self : AsrDecoderBase) (gstep : Z)
    (source_encs : list mat) (source_paddings : mat) (targets : Targets)
  : result Predictions :=
  let p := params self in
  let dec_bs := length (ids targets) in
  let max_seq_length := length (default [] (head (ids targets))) in
  let target_embs := EmbLookup_targets (ids targets) in
  target_embs ← _ApplyDropout self target_embs false None None;
  target_info_tas ← _GetInitialTargetInfo targets max_seq_length target_embs;
  let time := 0%nat in
  '(decoder_step_state_zero, packed_src) ←
    DecoderStepZeroState self gstep source_encs source_paddings (ids targets)
      dec_bs;
  fs0 ← getattr "fusion_states" (fusion_states decoder_step_state_zero);
  let decoder_step_state_zero_fusion_flat := fusion_Flatten fusion fs0 in
  let decoder_step_state_zero_misc_flat :=
    misc_Flatten (misc_states decoder_step_state_zero) in
  let seq_out_tas :=
    _GetInitialSeqStateTensorArrays self max_seq_length
      decoder_step_state_zero_fusion_flat decoder_step_state_zero_misc_flat in
  let loop_vars : LoopVars :=
    (time, decoder_step_state_zero, target_info_tas, seq_out_tas) in
  '(_, _, _, seq_out_tas) ←
    tf_while_loop max_seq_length (_LoopContinue max_seq_length)
      (_LoopBody self packed_src) loop_vars;
  softmax_input ← ta_stack (step_outs_ta seq_out_tas);
  let softmax_input := tf_transpose softmax_input in
  _GetPredictionFromSequenceOutTensorArrays seq_out_tas.

(** ** The function-based unroller *)

(** The [inputs] of the scan: every field is time-major. *)
Record Inputs : Type := {
  inputs_id : list (list Z);
  inputs_label : list (list Z);
  inputs_weight : list (list Q);
  inputs_emb : list mat;
  inputs_padding : list mat;
  inputs_misc : gmap string AuxTensor;
}.

(** The slice of [inputs] at one time step. *)
Definition inputs_at (inputs : Inputs) (t : nat) : result TargetInfo :=
  e ← py_index (inputs_emb inputs) t;
  i ← py_index (inputs_id inputs) t;
  l ← py_index (inputs_label inputs) t;
  pad ← py_index (inputs_padding inputs) t;
  w ← py_index (inputs_weight inputs) t;
  Ok {| id := i; label := Some l; weight := Some w; temb := e;
        padding := pad;
        misc := (λ x, aux_time_slice x t) <$> inputs_misc inputs |}.

(** The scan proper: [cell_fn] over the slices, collecting every state. *)
Fixpoint Recurrent_scan {S X} (cell_fn : S → X → result S) (state0 : S)
    (xs : list X) : result (list S) :=
  match xs with
  | [] => Ok []
  | x :: xs' =>
      state1 ← cell_fn state0 x;
      acc ← Recurrent_scan cell_fn state1 xs';
      Ok (state1 :: acc)
  end.

(** Modelled from the spec: [recurrent.Recurrent] is defined in
    [lingvo/core/recurrent.py], not in this file.  The specification
    describes it as a generic scan-style recurrent primitive threading the
    state through the time steps: it slices [inputs] along time (the length
    is that of the first leaf, [emb]), applies [cell_fn] from [state0] in
    time order and returns the states stacked over time. *)
Definition Recurrent (cell_fn : DecoderStepState → TargetInfo →
      result DecoderStepState)
    (state0 : DecoderStepState) (inputs : Inputs)
  : result (list DecoderStepState) :=
  slices ← mapM (inputs_at inputs) (seq 0 (length (inputs_emb inputs)));
  Recurrent_scan cell_fn state0 slices.

(** [RnnStep] of [ComputePredictionsFunctional]. *)
Definition RnnStep (self : AsrDecoderBase) (packed_src : PackedSrc)
    (state0 : DecoderStepState) (inputs : TargetInfo)
  : result DecoderStepState :=
  '(step_outs, state1) ←
    SingleDecodeStep self packed_src inputs state0 None true;
  let state1 := set_step_outs (Some step_outs) state1 in
  PostStepDecoderStateUpdate self state1 (IntLeaf <$> label inputs).

(** [ComputePredictionsFunctional]. *)
Definition ComputePredictionsFunctional (self : AsrDecoderBase) (gstep : Z)
    (source_encs : list mat) (source_paddings : mat) (targets : Targets)
  : result Predictions :=
  let p := params self in
  _ ← py_assert (Qeqb (min_ground_truth_prob p) 1.0) "";
  let dec_bs := length (ids targets) in
  '(state0, packed_src) ←
    DecoderStepZeroState self gstep source_encs source_paddings (ids targets)
      dec_bs;
  let atten_context_dim := _GetAttenContextDim p in
  let out_dim := (rnn_cell_dim p + atten_context_dim)%nat in
  let state0 := set_step_outs (Some (tf_zeros dec_bs out_dim)) state0 in
  let target_embs := EmbLookup_targets (ids targets) in
  target_embs ← _ApplyDropout self target_embs false None None;
  let inputs :=
    {| inputs_id := tf_transpose (ids targets);
       inputs_label := tf_transpose (labels targets);
       inputs_weight := tf_transpose (weights targets);
       inputs_emb := tf_transpose target_embs;
       inputs_padding :=
         (λ row : list Q, (λ x, [x]) <$> row)
           <$> tf_transpose (paddings targets);
       inputs_misc := CreateTargetInfoMisc targets |} in
  fs0 ← getattr "fusion_states" (fusion_states state0);
  let '(lm_output, fs) :=
    FPropLm_seq fusion fs0 (inputs_id inputs) (inputs_padding inputs)
      (inputs_misc inputs) in
  let '(fused_emb, fs) := FuseEmb_seq fusion fs lm_output (inputs_emb inputs) in
  let inputs :=
    {| inputs_id := inputs_id inputs; inputs_label := inputs_label inputs;
       inputs_weight := inputs_weight inputs; inputs_emb := fused_emb;
       inputs_padding := inputs_padding inputs;
       inputs_misc := inputs_misc inputs |} in
  let state0 := set_fusion_states (Some fs) state0 in
  let state0_no_fusion := set_fusion_states None state0 in
  accumulated_states ←
    Recurrent (RnnStep self packed_src) state0_no_fusion inputs;
  accumulated_step_outs ←
    mapM (λ s, getattr "step_outs" (step_outs s)) accumulated_states;
  let step_out :=
    if negb (softmax_uses_attention p) then
      tf_split_fst (rnn_cell_dim p) <$> accumulated_step_outs
    else accumulated_step_outs in
  let '(softmax_input, fs) := FuseOutput_seq fusion fs lm_output step_out in
  let xent_loss_logits :=
    softmax_FProp_seq softmax softmax_input (inputs_weight inputs)
      (inputs_label inputs) in
  let seq_logits := xent_loss_logits in
  let adjusted_logits := ComputeLogitsWithLM_seq fusion fs seq_logits false in
  Ok {| predictions_logits := tf_transpose adjusted_logits;
        predictions_logits_without_bias := Some (tf_transpose seq_logits);
        predictions_attention_probs :=
          tf_transpose (atten_probs <$> accumulated_states);
        predictions_source_enc_len := None |}.

(** [ComputePredictions]; [source_paddings] is [[time, batch]]. *)
Definition ComputePredictions (self : AsrDecoderBase) (gstep : Z)
    (source_encs : list mat) (source_paddings : mat) (targets : Targets)
  : result Predictions :=
  let p := params self in
  predictions ←
    (if use_while_loop_based_unrolling p then
       ComputePredictionsDynamic self gstep source_encs source_paddings
         targets
     else
       ComputePredictionsFunctional self gstep source_encs source_paddings
         targets);
  Ok {| predictions_logits := predictions_logits predictions;
        predictions_logits_without_bias :=
          predictions_logits_without_bias predictions;
        predictions_attention_probs :=
          predictions_attention_probs predictions;
        predictions_source_enc_len :=
          Some (Qsum <$> tf_transpose
                  ((λ row : vec, (λ x, 1 - x)%Q <$> row) <$> source_paddings))
     |}.

(** ** The loss of a training pass *)

(** [AddToMetric] of [ComputeMetricsAndPerSequenceLoss]. *)
Definition AddToMetric (acc : Q * Q) (scale : Q) (metric : Q * Q) : Q * Q :=
  ((acc.1 + scale * metric.1)%Q, (acc.2 + scale * metric.2)%Q).

(** [merged_per_sequence_loss]: the Python float it is initialised to, then a
    [[batch]] tensor. *)
Inductive PerSequenceLoss : Type :=
  | PyFloat (x : Q)
  | PerSequence (v : list Q).

(** [merged_per_sequence_loss += loss_weight * per_sequence_loss]; two
    tensors added have the same shape. *)
Definition add_per_sequence_loss (merged : PerSequenceLoss) (loss_weight : Q)
    (per_sequence_loss : list Q) : PerSequenceLoss :=
  match merged with
  | PyFloat x =>
      PerSequence ((λ v, x + loss_weight * v)%Q <$> per_sequence_loss)
  | PerSequence a =>
      PerSequence
        (zip_with Qplus a ((λ v, loss_weight * v)%Q <$> per_sequence_loss))
  end.

(** [getattr(predictions, logit_name)], used as logits.  Of the fields of
    the predictions only [logits] and [logits_without_bias] are logits. *)
Definition predictions_getattr (predictions : Predictions)
    (logit_name : string) : result (list mat) :=
  if decide (logit_name = "logits") then Ok (predictions_logits predictions)
  else if decide (logit_name = "logits_without_bias") then
    getattr "logits_without_bias"
      (predictions_logits_without_bias predictions)
  else if decide (logit_name = "attention") then
    Raise (TFError "not a logits tensor")
  else if decide (logit_name = "source_enc_len") then
    _ ← getattr "source_enc_len" (predictions_source_enc_len predictions);
    Raise (TFError "not a logits tensor")
  else Raise (AttributeError logit_name).

#[global] Instance Q_inhabited : Inhabited Q := populate 0%Q.

(** The body of the loop [for k, v in metrics.iteritems()]. *)
Definition merge_metric (logit_name : string) (loss_weight : Q)
    (merged_metrics : gmap string (Q * Q)) (kv : string * (Q * Q))
  : gmap string (Q * Q) :=
  let '(k, v) := kv in
  let merged_metrics := <[k +:+ "/" +:+ logit_name := v]> merged_metrics in
  let merged_metrics :=
    match merged_metrics !! k with
    | None => <[k := (0%Q, 0%Q)]> merged_metrics
    | Some _ => merged_metrics
    end in
  <[k := AddToMetric (merged_metrics !!! k) loss_weight v]> merged_metrics.

Section Loss.

(** [self.smoother.FProp(theta.smoother, paddings, labels, ids)]: the label
    smoothing layer, a child the decoder owns when [p.label_smoothing] is
    set. *)
Variable smoother_FProp : mat → list (list Z) → list (list Z) → list mat.

(** The body of the loop [for logit_name, loss_weight in
    p.logit_types.iteritems()]. *)
Definition merge_head (self : AsrDecoderBase) (predictions : Predictions)
    (targets : Targets) (target_probs : option (list mat))
    (acc : gmap string (Q * Q) * PerSequenceLoss) (head : string * Q)
  : result (gmap string (Q * Q) * PerSequenceLoss) :=
  let '(merged_metrics, merged_per_sequence_loss) := acc in
  let '(logit_name, loss_weight) := head in
  lg ← predictions_getattr predictions logit_name;
  let '(metrics, per_sequence_loss) :=
    _ComputeMetrics self lg (labels targets) (weights targets) target_probs in
  let merged_metrics :=
    foldl (merge_metric logit_name loss_weight) merged_metrics
      (map_to_list metrics) in
  Ok (merged_metrics,
      add_per_sequence_loss merged_per_sequence_loss loss_weight
        per_sequence_loss).

Fixpoint merge_heads (self : AsrDecoderBase) (predictions : Predictions)
    (targets : Targets) (target_probs : option (list mat))
    (heads : list (string * Q))
    (acc : gmap string (Q * Q) * PerSequenceLoss)
  : result (gmap string (Q * Q) * PerSequenceLoss) :=
  match heads with
  | [] => Ok acc
  | head :: heads' =>
      acc' ← merge_head self predictions targets target_probs acc head;
      merge_heads self predictions targets target_probs heads' acc'
  end.

(** [ComputeMetricsAndPerSequenceLoss]. *)
Definition ComputeMetricsAndPerSequenceLoss (self : AsrDecoderBase)
    (predictions : Predictions) (targets : Targets)
  : result (gmap string (Q * Q) * PerSequenceLoss) :=
  let p := params self in
  let target_probs :=
    match label_smoothing p with
    | Some _ =>
        Some (smoother_FProp (paddings targets) (labels targets)
                (ids targets))
    | None => None
    end in
  let merged_metrics : gmap string (Q * Q) := ∅ in
  let merged_per_sequence_loss := PyFloat 0 in
  merge_heads self predictions targets target_probs (logit_types p)
    (merged_metrics, merged_per_sequence_loss).

(** [ComputeLoss]. *)
Definition ComputeLoss (self : AsrDecoderBase) (predictions : Predictions)
    (targets : Targets) : result (gmap string (Q * Q)) :=
  '(metrics, _) ← ComputeMetricsAndPerSequenceLoss self predictions targets;
  Ok metrics.

(** [AsrDecoderBase.FProp]. *)
Definition decoder_FProp (self : AsrDecoderBase) (gstep : Z)
    (source_encs : list mat) (source_paddings : mat) (targets : Targets)
  : result (gmap string (Q * Q)) :=
  predictions ←
    ComputePredictions self gstep source_encs source_paddings targets;
  ComputeLoss self predictions targets.

(** [FPropWithPerExampleLoss]. *)
Definition FPropWithPerExampleLoss (self : AsrDecoderBase) (gstep : Z)
    (source_encs : list mat) (source_paddings : mat) (targets : Targets)
  : result (gmap string (Q * Q) * PerSequenceLoss) :=
  predictions ←
    ComputePredictions self gstep source_encs source_paddings targets;
  ComputeMetricsAndPerSequenceLoss self predictions targets.

(** [FPropWithPredictions]. *)
Definition FPropWithPredictions (self : AsrDecoderBase) (gstep : Z)
    (source_encs : list mat) (source_paddings : mat) (targets : Targets)
  : result (gmap string (Q * Q) * Predictions) :=
  predictions ←
    ComputePredictions self gstep source_encs source_paddings targets;
  '(metrics, _) ← ComputeMetricsAndPerSequenceLoss self predictions targets;
  Ok (metrics, predictions).

End Loss.

End Decoder.

(** ** Concrete layers

    Small layers on which the decoder can be run: every tensor has one
    feature per example. *)

Module Toy.

Definition row_sum (x : mat) : mat := (λ r : vec, [Qsum r]) <$> x.

(** A cell whose state is its output: the sum of its two inputs, row by
    row, plus [k]. *)
Definition sum_cell (k : Q) : RNNCell mat :=
  {| rnn_zero_state := λ bs, tf_zeros bs 1;
     FProp := λ _ a0 a1 _,
       (λ r : vec, [(k + Qsum r)%Q]) <$> tf_concat1 a0 a1;
     GetOutput := λ s, s |}.

(** A cell whose output is [k] whatever it is fed. *)
Definition const_cell (k : Q) : RNNCell mat :=
  {| rnn_zero_state := λ bs, tf_zeros bs 1;
     FProp := λ _ a0 _ _, (λ _ : vec, [k]) <$> a0;
     GetOutput := λ s, s |}.

(** Attention whose context is the zero vector. *)
Definition zero_attention : Attention unit unit :=
  {| InitForSourcePacked := λ _ _ _, tt;
     ZeroAttentionState := λ _ _, tt;
     ComputeContextVectorWithSource := λ _ query _ _ _,
       ((λ _ : vec, [0%Q]) <$> query, (λ _ : vec, [1%Q]) <$> query, tt) |}.

(** Attention whose context is the query plus the time step. *)
Definition query_attention : Attention unit unit :=
  {| InitForSourcePacked := λ _ _ _, tt;
     ZeroAttentionState := λ _ _, tt;
     ComputeContextVectorWithSource := λ _ query _ _ ss,
       ((λ r : vec, [(inject_Z (time_step ss) + Qsum r)%Q]) <$> query,
        (λ _ : vec, [1%Q]) <$> query, tt) |}.

Definition null_contextualizer : Contextualizer unit :=
  {| GetContextDim := 0;
     ZeroAttention := λ _ _ ctx _, ctx;
     QueryAttention := λ _ _ ctx _, ctx |}.

(** No fusion: everything passes through. *)
Definition null_fusion : Fusion unit unit unit Z :=
  {| fusion_zero_state := λ _, tt;
     FPropLm := λ s _ _, (tt, s);
     FuseEmb := λ s _ e, (e, s);
     FuseOutput := λ s _ o, (o, s);
     ComputeLogitsWithLM := λ _ lg _, lg;
     FPropLm_seq := λ s _ _ _, (tt, s);
     FuseEmb_seq := λ s _ e, (e, s);
     FuseOutput_seq := λ s _ o, (o, s);
     ComputeLogitsWithLM_seq := λ _ lg _, lg;
     fusion_Flatten := λ _, [] |}.

(** A softmax layer with two classes whose logits are minus and plus the sum
    of the input row. *)
Definition two_class_logits (x : mat) : mat :=
  (λ r : vec, [(- Qsum r)%Q; Qsum r]) <$> x.
Definition two_class_softmax : SoftmaxLayer :=
  {| softmax_FProp := λ x _ _, two_class_logits x;
     softmax_FProp_seq := λ xs _ _, two_class_logits <$> xs;
     softmax_XentLoss := λ x _ _, two_class_logits x |}.

(** Random ops that drew: a dropout mask keeping everything for
    [tf.nn.dropout], a mask dropping everything for the deterministic
    dropout, [u] for every uniform draw, class 1 for every sample. *)
Definition drawn (u : Q) : RandomOps :=
  {| tf_nn_dropout := λ x keep _, (λ r : vec, (λ v, v / keep)%Q <$> r) <$> x;
     DeterministicDropout := λ x _ _, (λ r : vec, (λ _, 0%Q) <$> r) <$> x;
     tf_nn_dropout3 := λ x _ _, x;
     DeterministicDropout3 := λ x _ _, x;
     tf_random_uniform := λ _ n _, replicate n u;
     tf_multinomial := λ _ lg _, (λ _, 1%Z) <$> lg |}.

(** A decoder over the given cells, attention and uniform draw. *)
Definition layers (cells : list (RNNCell mat)) (att : Attention unit unit)
    (u : Q) : Layers :=
  {| RnnState := mat;
     AttenState := unit;
     PackedSrc := unit;
     FusionState := unit;
     LmOutput := unit;
     LmOutputSeq := unit;
     AuxTensor := Z;
     emb := {| EmbLookup := λ i, [inject_Z i] |};
     rnn_cell := cells;
     atten := att;
     contextualizer := null_contextualizer;
     fusion := null_fusion;
     softmax := two_class_softmax;
     random := drawn u;
     rnn_state_m := λ s, s;
     aux_time_slice := λ x _, x;
     sparse_softmax_cross_entropy_with_logits := λ l v, (Qsum v - nth (Z.to_nat l) v 0)%Q;
     softmax_cross_entropy_with_logits := λ pr v, Qsum (zip_with Qmult pr v);
     tf_nn_log_softmax := λ x, (λ r : vec, (λ v, v - Qsum r)%Q <$> r) <$> x;
     GenerateSeedFromName := λ _, 1234%Z;
     use_tpu := false |}.

(** Parameters of a small decoder. *)
Definition hparams_with (uses_attention : bool) (n_layers : nat)
    (res_start : Z) (dropout min_gt : Q) (while_loop : bool) : ParamsT :=
  {| name := "decoder";
     is_eval := false;
     random_seed := None;
     packed_input := false;
     target_seq_len := 3;
     target_sos_id := 1;
     dropout_prob := dropout;
     emb_dim := 1;
     emb_vocab_size := 2;
     label_smoothing := None;
     rnn_cell_dim := 1;
     rnn_cell_hidden_dim := 0;
     attention_hidden_dim := 1;
     softmax_num_classes := 2;
     softmax_uses_attention := uses_attention;
     source_dim := 1;
     atten_context_dim := 0;
     first_rnn_input_dim := 0;
     rnn_layers := n_layers;
     residual_start := res_start;
     parallel_iterations := 30;
     per_token_avg_loss := true;
     min_ground_truth_prob := min_gt;
     min_prob_step := 1e6;
     prob_decay_start_step := 1e4;
     use_while_loop_based_unrolling := while_loop;
     logit_types := [("logits", 1.0%Q)];
     use_unnormalized_logits_as_log_probs := true;
     fusion_lm_vocab_size := 2 |}.

Definition hparams : nat → Z → Q → Q → bool → ParamsT := hparams_with true.

(** The object [__init__] builds from [hparams_with]. *)
Definition decoder_with (uses_attention : bool) (n_layers : nat)
    (res_start : Z) (dropout min_gt : Q) (while_loop : bool)
  : AsrDecoderBase :=
  {| params :=
       hparams_with uses_attention n_layers res_start dropout min_gt
         while_loop;
     _max_label_prob := (1 - min_gt)%Q;
     _decay_interval := (1e6 - 1e4)%Q;
     _prng_seed := 1234;
     softmax_input_dim := if uses_attention then 2 else 1;
     smoother_num_classes := None |}.
Definition decoder : nat → Z → Q → Q → bool → AsrDecoderBase :=
  decoder_with true.

(** A decoder state holding [n] cell states, for a batch of one example at
    time step 0, with scheduled-sampling fields as given. *)
Definition state (L : Layers) (sts : list RnnState) (ast : AttenState)
    (prev : option (list Z)) (gp : option Q) : DecoderStepState :=
  {| rnn_states := sts;
     atten_context := [[0%Q]];
     atten_probs := [[1%Q]];
     atten_states := ast;
     fusion_states := None;
     misc_states :=
       {| step_state := {| global_step := 0; time_step := 0 |};
          prev_predicted_ids := prev;
          groundtruth_p := gp |};
     logits := None;
     step_outs := None |}.

(** The state of a beam search over one hypothesis. *)
Definition beam_states (L : Layers) (sts : list RnnState) (ast : AttenState)
    (fs : FusionState) : BeamSearchStates :=
  {| bs_rnn_states := sts;
     all_atten_states :=
       {| bs_atten_context := [[0%Q]]; bs_atten_probs := [[1%Q]];
          bs_atten_states := ast |};
     bs_fusion_states := fs;
     bs_misc_states :=
       {| step_state := {| global_step := 0; time_step := 0 |};
          prev_predicted_ids := None; groundtruth_p := None |} |}.

(** A step input for a batch of one example: token [i], embedding [i]. *)
Definition target (L : Layers) (i : Z) : TargetInfo :=
  {| id := [i]; label := Some [i]; weight := Some [1%Q];
     temb := [[inject_Z i]]; padding := [[0%Q]]; misc := ∅ |}.

(** Two target sequences of three tokens. *)
Definition targets (L : Layers) (aux : option AuxTensor) : Targets :=
  {| ids := [[1; 0; 1]; [0; 1; 1]]%Z;
     labels := [[0; 1; 1]; [1; 1; 0]]%Z;
     weights := [[1; 1; 1]; [1; 1; 0]]%Q;
     paddings := [[0; 0; 0]; [0; 0; 1]]%Q;
     fst_bias_probs := aux |}.

(** Logits for two sequences of three tokens over four classes. *)
Definition logits4 : list mat :=
  [[[1; 2; 3; 4]; [0; 0; 0; 0]; [4; 3; 2; 1]];
   [[1; 0; 1; 0]; [2; 2; 2; 2]; [0; 1; 0; 1]]]%Q.

Definition three_const : Layers :=
  layers [const_cell 1; const_cell 10; const_cell 100] zero_attention 0.5.
Definition three_sum : Layers :=
  layers [sum_cell 1; sum_cell 10; sum_cell 100] query_attention 0.5.
Definition two_sum : Layers :=
  layers [sum_cell 1; sum_cell 10] query_attention 0.5.
Definition one_sum : Layers :=
  layers [sum_cell 1] query_attention 0.5.

End Toy.

(** ** Notions used in the statements *)

(** A draw of [tf.random_uniform([n])]: [n] values in [0, 1). *)
Definition uniform_draws (u : list Q) (n : nat) : Prop :=
  length u = n ∧ Forall (λ x, (0 <= x)%Q ∧ (x < 1)%Q) u.

(** The same parameters with another value of one flag. *)
Definition set_flags (while_loop unnormalized : bool) (p : ParamsT) : ParamsT :=
  {| name := name p;
     is_eval := is_eval p;
     random_seed := random_seed p;
     packed_input := packed_input p;
     target_seq_len := target_seq_len p;
     target_sos_id := target_sos_id p;
     dropout_prob := dropout_prob p;
     emb_dim := emb_dim p;
     emb_vocab_size := emb_vocab_size p;
     label_smoothing := label_smoothing p;
     rnn_cell_dim := rnn_cell_dim p;
     rnn_cell_hidden_dim := rnn_cell_hidden_dim p;
     attention_hidden_dim := attention_hidden_dim p;
     softmax_num_classes := softmax_num_classes p;
     softmax_uses_attention := softmax_uses_attention p;
     source_dim := source_dim p;
     atten_context_dim := atten_context_dim p;
     first_rnn_input_dim := first_rnn_input_dim p;
     rnn_layers := rnn_layers p;
     residual_start := residual_start p;
     parallel_iterations := parallel_iterations p;
     per_token_avg_loss := per_token_avg_loss p;
     min_ground_truth_prob := min_ground_truth_prob p;
     min_prob_step := min_prob_step p;
     prob_decay_start_step := prob_decay_start_step p;
     use_while_loop_based_unrolling := while_loop;
     logit_types := logit_types p;
     use_unnormalized_logits_as_log_probs := unnormalized;
     fusion_lm_vocab_size := fusion_lm_vocab_size p |}.

Definition set_use_while_loop_based_unrolling (b : bool) (p : ParamsT)
  : ParamsT :=
  set_flags b (use_unnormalized_logits_as_log_probs p) p.

Definition set_use_unnormalized_logits_as_log_probs (b : bool) (p : ParamsT)
  : ParamsT :=
  set_flags (use_while_loop_based_unrolling p) b p.

(** The same decoder with other parameters. *)
Definition with_params (p : ParamsT) (self : AsrDecoderBase) : AsrDecoderBase :=
  {| params := p;
     _max_label_prob := _max_label_prob self;
     _decay_interval := _decay_interval self;
     _prng_seed := _prng_seed self;
     softmax_input_dim := softmax_input_dim self;
     smoother_num_classes := smoother_num_classes self |}.

(** The same layers with other random ops. *)
Definition with_random (r : RandomOps) (L : Layers) : Layers :=
  {| RnnState := RnnState;
     AttenState := AttenState;
     PackedSrc := PackedSrc;
     FusionState := FusionState;
     LmOutput := LmOutput;
     LmOutputSeq := LmOutputSeq;
     AuxTensor := AuxTensor;
     emb := emb;
     rnn_cell := rnn_cell;
     atten := atten;
     contextualizer := contextualizer;
     fusion := fusion;
     softmax := softmax;
     random := r;
     rnn_state_m := rnn_state_m;
     aux_time_slice := aux_time_slice;
     sparse_softmax_cross_entropy_with_logits :=
       sparse_softmax_cross_entropy_with_logits;
     softmax_cross_entropy_with_logits := softmax_cross_entropy_with_logits;
     tf_nn_log_softmax := tf_nn_log_softmax;
     GenerateSeedFromName := GenerateSeedFromName;
     use_tpu := use_tpu |}.

Section Stated.
Context `{L : Layers}.

(** The residual scenario as the specification states it: three layers,
    [residual_start = 2]; layers 1 and 2 put out their cell output (layer 2's
    after dropout) with no residual sum, and layer 3 puts out layer 2's
    dropped-out output plus its own cell output before dropout. *)
Definition residual_scenario_as_stated (self : AsrDecoderBase)
    (packed_src : PackedSrc) (cur_target_info : TargetInfo)
    (decoder_step_state : DecoderStepState) : Prop :=
  ∀ c1 c2 c3 s1 s2 s3 new_atten_context d2,
    rnn_cell = [c1; c2; c3] →
    rnn_states decoder_step_state = [s1; s2; s3] →
    residual_start (params self) = 2%Z →
    let misc_states := misc_states decoder_step_state in
    let out1 :=
      GetOutput c1
        (FProp c1 s1 (temb cur_target_info) (atten_context decoder_step_state)
           (padding cur_target_info)) in
    new_atten_context =
      QueryAttention contextualizer out1 misc_states
        (_ComputeAttention out1 packed_src (atten_states decoder_step_state)
           None (step_state misc_states)).1.1
        packed_src →
    _ApplyDropout self
      (GetOutput c2
         (FProp c2 s2 out1 new_atten_context (padding cur_target_info)))
      false (Some 1000%Z) (Some (step_state misc_states)) = Ok d2 →
    let raw3 :=
      GetOutput c3
        (FProp c3 s3 d2 new_atten_context (padding cur_target_info)) in
    layer_outputs self packed_src cur_target_info decoder_step_state None
      false = Ok [out1; d2; mat_add d2 raw3].

End Stated.

(** ** Notions used in the comparison of the two unrollers *)

Section Unrolled.
Context `{L : Layers}.

(** Dropout is off: evaluation mode, or probability 0; the probability is in
    [0, 1), as [_ApplyDropout] asserts. *)
Definition dropout_inactive (p : ParamsT) : Prop :=
  (0 <= dropout_prob p)%Q ∧ (dropout_prob p < 1)%Q
  ∧ (is_eval p = true ∨ (dropout_prob p == 0)%Q).

(** The targets are four [[batch, time]] tensors of one shape. *)
Definition wf_targets (targets : Targets) : Prop :=
  let bs := length (ids targets) in
  let T := length (default [] (head (ids targets))) in
  length (labels targets) = bs ∧ length (weights targets) = bs
  ∧ length (paddings targets) = bs
  ∧ Forall (λ r, length r = T) (ids targets)
  ∧ Forall (λ r, length r = T) (labels targets)
  ∧ Forall (λ r, length r = T) (weights targets)
  ∧ Forall (λ r, length r = T) (paddings targets).

(** The softmax layer computes the logits of a sequence step by step. *)
Definition softmax_timewise : Prop :=
  ∀ (xs : list mat) (ws : list (list Q)) (ls : list (list Z)),
    length ws = length xs → length ls = length xs →
    softmax_FProp_seq softmax xs ws ls
    = zip_with (λ x wl, softmax_FProp softmax x (Some wl.1) (Some wl.2))
        xs (zip ws ls).

(** The number of leaves of a fusion state does not depend on its values. *)
Definition fusion_flat_static : Prop :=
  ∀ f f' : FusionState,
    length (fusion_Flatten fusion f) = length (fusion_Flatten fusion f').

(** What the fusion module is given at one step: the ids and padding fed, the
    embedding, the step output of the decoder and the logits of the softmax
    layer. *)
Record FusionIn : Type := {
  fi_id : list Z;
  fi_padding : mat;
  fi_emb : mat;
  fi_step_out : mat;
  fi_logits : mat;
}.

(** What it makes of them: the fused embedding, the fused step output and the
    adjusted logits. *)
Record FusionOut : Type := {
  fo_emb : mat;
  fo_step_out : mat;
  fo_logits : mat;
}.

(** The single-step fusion methods threaded through the steps of a sequence,
    in the order the graph-loop unroller calls them. *)
Fixpoint fusion_unrolled (f : FusionState) (xs : list FusionIn)
  : list FusionOut :=
  match xs with
  | [] => []
  | x :: xs' =>
      let '(lm_output, f1) := FPropLm fusion f (fi_id x) (fi_padding x) in
      let '(fused_emb, f2) := FuseEmb fusion f1 lm_output (fi_emb x) in
      let '(fused_out, f3) := FuseOutput fusion f2 lm_output (fi_step_out x) in
      {| fo_emb := fused_emb; fo_step_out := fused_out;
         fo_logits := ComputeLogitsWithLM fusion f3 (fi_logits x) false |}
      :: fusion_unrolled f3 xs'
  end.

(** The whole-sequence fusion methods return at every step what the
    single-step methods return when threaded through the steps. *)
Definition fusion_seq_agrees : Prop :=
  ∀ (f : FusionState) (aux : gmap string AuxTensor) (xs : list FusionIn),
    let '(lm_output, f1) :=
      FPropLm_seq fusion f (fi_id <$> xs) (fi_padding <$> xs) aux in
    let '(fused_emb, f2) :=
      FuseEmb_seq fusion f1 lm_output (fi_emb <$> xs) in
    let '(fused_out, f3) :=
      FuseOutput_seq fusion f2 lm_output (fi_step_out <$> xs) in
    fused_emb = fo_emb <$> fusion_unrolled f xs
    ∧ fused_out = fo_step_out <$> fusion_unrolled f xs
    ∧ ComputeLogitsWithLM_seq fusion f3 (fi_logits <$> xs) false
      = fo_logits <$> fusion_unrolled f xs.

(** One time step of the targets. *)
Record Slice : Type := {
  s_id : list Z;
  s_label : list Z;
  s_weight : list Q;
  s_emb : mat;
  s_padding : mat;
}.

(** What one decoding step of a training pass computes. *)
Record StepRec : Type := {
  r_emb : mat;          (* the embedding fed, fused *)
  r_step_outs : mat;    (* the step output of [SingleDecodeStep] *)
  r_fused_out : mat;    (* the step output, fused *)
  r_xent_logits : mat;  (* the logits of the softmax layer *)
  r_logits : mat;       (* the logits, adjusted by the fusion module *)
  r_atten_probs : mat;
  r_state : DecoderStepState;
}.

Definition slice_target (x : Slice) (e : mat) : TargetInfo :=
  {| id := s_id x; label := Some (s_label x); weight := Some (s_weight x);
     temb := e; padding := s_padding x; misc := ∅ |}.

Definition bump_time_step (s : DecoderStepState) : DecoderStepState :=
  let m := misc_states s in
  set_misc_states
    (set_time_step (int64_add (time_step (step_state m)) 1) m) s.

(** The steps of a training pass without scheduled sampling, one after the
    other: what the body of the graph loop computes, without the arrays. *)
Fixpoint unrolled (self : AsrDecoderBase) (packed_src : PackedSrc)
    (s : DecoderStepState) (f : FusionState) (xs : list Slice)
  : result (list StepRec) :=
  match xs with
  | [] => Ok []
  | x :: xs' =>
      let '(lm_output, f1) := FPropLm fusion f (s_id x) (s_padding x) in
      let '(fused_emb, f2) := FuseEmb fusion f1 lm_output (s_emb x) in
      '(step_outs, s1) ←
        SingleDecodeStep self packed_src (slice_target x fused_emb) s None
          false;
      let '(fused_out, f3) := FuseOutput fusion f2 lm_output step_outs in
      let xent :=
        softmax_FProp softmax fused_out (Some (s_weight x))
          (Some (s_label x)) in
      let s2 := bump_time_step (set_fusion_states (Some f3) s1) in
      rest ← unrolled self packed_src s2 f3 xs';
      Ok ({| r_emb := fused_emb; r_step_outs := step_outs;
             r_fused_out := fused_out; r_xent_logits := xent;
             r_logits := ComputeLogitsWithLM fusion f3 xent false;
             r_atten_probs := atten_probs s1;
             r_state := s2 |} :: rest)
  end.

(** The fusion module saw, step by step, the decoder's step outputs and the
    softmax layer's logits. *)
Definition fusion_inputs (xs : list Slice) (recs : list StepRec)
  : list FusionIn :=
  zip_with (λ x r, {| fi_id := s_id x; fi_padding := s_padding x;
                      fi_emb := s_emb x; fi_step_out := r_step_outs r;
                      fi_logits := r_xent_logits r |}) xs recs.

(** The time slices of the targets, time-major. *)
Definition slices (ids : list (list Z)) (labels : list (list Z))
    (weights : list (list Q)) (embs : list mat) (paddings : list mat)
  : list Slice :=
  (λ t, {| s_id := ids !!! t; s_label := labels !!! t;
           s_weight := weights !!! t; s_emb := embs !!! t;
           s_padding := paddings !!! t |}) <$> seq 0 (length ids).

(** Two states that [SingleDecodeStep] cannot tell apart. *)
Definition same_core (s s' : DecoderStepState) : Prop :=
  rnn_states s = rnn_states s' ∧ atten_context s = atten_context s'
  ∧ atten_states s = atten_states s' ∧ misc_states s = misc_states s'.

(** The output arrays of the graph loop before step [length done]: [n] slots
    to go. *)
Definition written {A} (ta : TensorArray A) (done : list A) (n : nat) : Prop :=
  ta = (Some <$> done) ++ replicate n None.

(** The time slices of [targets], with the embeddings of the target ids. *)
Definition time_slices (targets : Targets) : list Slice :=
  slices (tf_transpose (ids targets)) (tf_transpose (labels targets))
    (tf_transpose (weights targets))
    (tf_transpose (EmbLookup_targets (ids targets)))
    ((λ row : list Q, (λ x, [x]) <$> row) <$> tf_transpose (paddings targets)).

(** The target arrays hold the slices [xs] from time [t] on. *)
Definition tas_hold (tas : TargetInfoTas) (t : nat) (xs : list Slice) : Prop :=
  ∀ k x, xs !! k = Some x →
    ta_read (id_ta tas) (t + k) = Ok (s_id x)
    ∧ ta_read (label_ta tas) (t + k) = Ok (s_label x)
    ∧ ta_read (weight_ta tas) (t + k) = Ok (s_weight x)
    ∧ ta_read (emb_ta tas) (t + k) = Ok (s_emb x)
    ∧ ta_read (padding_ta tas) (t + k) = Ok (s_padding x).

(** The output arrays of the graph loop after the steps [recs], with [n]
    steps to go: [T] is the size of every array, [nf] the number of leaves
    of a fusion state. *)
Definition arrays_ok (T nf : nat) (o : SequenceOutTensorArrays)
    (recs : list StepRec) (n : nat) : Prop :=
  written (logits_ta o) (r_logits <$> recs) n
  ∧ written (step_outs_ta o) (r_fused_out <$> recs) n
  ∧ written (atten_probs_ta o) (r_atten_probs <$> recs) n
  ∧ length (rnn_outs o) = length rnn_cell
  ∧ Forall (λ ta, length ta = T) (rnn_outs o)
  ∧ length (fusion_ta o) = nf
  ∧ Forall (λ ta, length ta = T) (fusion_ta o)
  ∧ length (misc_ta_out o) = 2%nat
  ∧ Forall (λ ta, length ta = T) (misc_ta_out o).

(** The state the graph loop carries when scheduled sampling is off. *)
Definition loop_state (s : DecoderStepState) (f : FusionState) : Prop :=
  fusion_states s = Some f ∧ logits s = None
  ∧ length (rnn_states s) = length rnn_cell
  ∧ prev_predicted_ids (misc_states s) = None
  ∧ groundtruth_p (misc_states s) = None.

Definition fusion_outputs (recs : list StepRec) : list FusionOut :=
  (λ r, {| fo_emb := r_emb r; fo_step_out := r_fused_out r;
           fo_logits := r_logits r |}) <$> recs.

(** The two unrollers agree as the specification states it: whenever
    scheduled sampling is off, the logits they return are equal. *)
Definition logits_agree_as_stated (p : ParamsT) (gstep : Z)
    (source_encs : list mat) (source_paddings : mat) (targets : Targets)
  : Prop :=
  ∀ graph_loop functional dyn fn,
    __init__ (set_use_while_loop_based_unrolling true p) = Ok graph_loop →
    __init__ (set_use_while_loop_based_unrolling false p) = Ok functional →
    (min_ground_truth_prob p == 1)%Q →
    ComputePredictions graph_loop gstep source_encs source_paddings targets
      = Ok dyn →
    ComputePredictions functional gstep source_encs source_paddings targets
      = Ok fn →
    predictions_logits dyn = predictions_logits fn.

End Unrolled.

(** ** Notions used in the further properties *)

(** The same parameters with other logit heads. *)
Definition set_logit_types (heads : list (string * Q)) (p : ParamsT)
  : ParamsT :=
  {| name := name p;
     is_eval := is_eval p;
     random_seed := random_seed p;
     packed_input := packed_input p;
     target_seq_len := target_seq_len p;
     target_sos_id := target_sos_id p;
     dropout_prob := dropout_prob p;
     emb_dim := emb_dim p;
     emb_vocab_size := emb_vocab_size p;
     label_smoothing := label_smoothing p;
     rnn_cell_dim := rnn_cell_dim p;
     rnn_cell_hidden_dim := rnn_cell_hidden_dim p;
     attention_hidden_dim := attention_hidden_dim p;
     softmax_num_classes := softmax_num_classes p;
     softmax_uses_attention := softmax_uses_attention p;
     source_dim := source_dim p;
     atten_context_dim := atten_context_dim p;
     first_rnn_input_dim := first_rnn_input_dim p;
     rnn_layers := rnn_layers p;
     residual_start := residual_start p;
     parallel_iterations := parallel_iterations p;
     per_token_avg_loss := per_token_avg_loss p;
     min_ground_truth_prob := min_ground_truth_prob p;
     min_prob_step := min_prob_step p;
     prob_decay_start_step := prob_decay_start_step p;
     use_while_loop_based_unrolling := use_while_loop_based_unrolling p;
     logit_types := heads;
     use_unnormalized_logits_as_log_probs :=
       use_unnormalized_logits_as_log_probs p;
     fusion_lm_vocab_size := fusion_lm_vocab_size p |}.

(** Logits that differ from [Toy.logits4] at the last token of the second
    sequence only. *)
Definition logits4_last_changed : list mat :=
  [[[1; 2; 3; 4]; [0; 0; 0; 0]; [4; 3; 2; 1]];
   [[1; 0; 1; 0]; [2; 2; 2; 2]; [9; 9; 9; 0]]]%Q.

(** Predictions holding [Toy.logits4] under both logit heads. *)
Definition two_head_predictions : Predictions :=
  {| predictions_logits := Toy.logits4;
     predictions_logits_without_bias := Some logits4_last_changed;
     predictions_attention_probs := [];
     predictions_source_enc_len := None |}.

(** Targets whose two sequences are empty. *)
Definition empty_targets (L : Layers) : Targets :=
  {| ids := [[]; []]; labels := [[]; []]; weights := [[]; []];
     paddings := [[]; []]; fst_bias_probs := None |}.

(** The names of the metrics [_ComputeMetrics] can return. *)
Definition metric_names : list string :=
  ["loss"; "log_pplx"; "fraction_of_correct_next_step_preds"].

Section MoreStated.
Context `{L : Layers}.

(** The metrics and the per-sequence loss of one logit head: what
    [_ComputeMetrics] makes of the field [logit_name] of the predictions. *)
Definition head_metrics (self : AsrDecoderBase) (predictions : Predictions)
    (targets : Targets) (target_probs : option (list mat))
    (logit_name : string) : result (gmap string (Q * Q) * list Q) :=
  lg ← predictions_getattr predictions logit_name;
  Ok (_ComputeMetrics self lg (labels targets) (weights targets)
        target_probs).

(** The target distribution [ComputeMetricsAndPerSequenceLoss] hands to
    [_ComputeMetrics]. *)
Definition smoothed_target_probs
    (smoother_FProp : mat → list (list Z) → list (list Z) → list mat)
    (self : AsrDecoderBase) (targets : Targets) : option (list mat) :=
  match label_smoothing (params self) with
  | Some _ =>
      Some (smoother_FProp (paddings targets) (labels targets) (ids targets))
  | None => None
  end.

End MoreStated.

(** * Properties *)

(** ** Comparisons on [Q] *)

Lemma Qltb_true (x y : Q) : Qltb x y = true ↔ (x < y)%Q.
Proof.
  unfold Qltb. rewrite negb_true_iff, <- not_true_iff_false, Qle_bool_iff.
  split; [apply Qnot_le_lt | apply Qlt_not_le].
Qed.

Lemma Qltb_false (x y : Q) : Qltb x y = false ↔ (y <= x)%Q.
Proof.
  unfold Qltb. rewrite negb_false_iff. apply Qle_bool_iff.
Qed.

Lemma Qeqb_true (x y : Q) : Qeqb x y = true ↔ (x == y)%Q.
Proof. apply Qeq_bool_iff. Qed.

Lemma Qle_bool_false (x y : Q) : Qle_bool x y = false ↔ (y < x)%Q.
Proof.
  rewrite <- not_true_iff_false, Qle_bool_iff.
  split; [apply Qnot_le_lt | apply Qlt_not_le].
Qed.

(** ** The error monad *)

Lemma bind_Ok {A B} (m : result A) (f : A → result B) (b : B) :
  m ≫= f = Ok b ↔ ∃ a, m = Ok a ∧ f a = Ok b.
Proof.
  destruct m as [a|e]; simpl.
  - split; [eauto | intros (a' & [= ->] & ?); done].
  - split; [done | intros (a' & [=] & ?)].
Qed.

Lemma py_assert_Ok (b : bool) (msg : string) (u : unit) :
  py_assert b msg = Ok u ↔ b = true.
Proof. destruct b, u; simpl; split; congruence. Qed.

(** Solves the inversion of a monadic computation that returned. *)
Ltac inv_result :=
  repeat match goal with
  | H : Ok _ = Ok _ |- _ => injection H as H; subst
  | H : Raise _ = Ok _ |- _ => discriminate H
  | H : _ ≫= _ = Ok _ |- _ =>
      let a := fresh "a" in
      let Ha := fresh "Ha" in
      apply bind_Ok in H; destruct H as (a & Ha & H)
  | H : py_assert _ _ = Ok _ |- _ => apply py_assert_Ok in H
  end.

Section Properties.
Context `{L : Layers}.

(** ** Construction *)

(** What a decoder that [__init__] returned is made of. *)
Lemma init_Ok (p : ParamsT) (self : AsrDecoderBase) :
  __init__ p = Ok self →
  params self = p
  ∧ _max_label_prob self = (1 - min_ground_truth_prob p)%Q
  ∧ _decay_interval self = (min_prob_step p - prob_decay_start_step p)%Q
  ∧ (0 < _decay_interval self)%Q
  ∧ packed_input p = false.
Proof.
  unfold __init__. intros H. inv_result.
  destruct (Qle_bool _ 0) eqn:Hd; [discriminate|].
  inv_result. apply Qle_bool_false in Hd. apply negb_true_iff in Ha.
  simpl. done.
Qed.

(** [__init__] never reads [use_while_loop_based_unrolling]: whether it
    raises depends on the other parameters alone. *)
Lemma init_total (p : ParamsT) :
  packed_input p = false →
  (prob_decay_start_step p < min_prob_step p)%Q →
  (0 < _GetAttenContextDim p)%nat →
  label_smoothing p = None →
  ∃ self, __init__ p = Ok self.
Proof.
  intros Hp Hd Hc Hl. unfold __init__. rewrite Hp. simpl.
  destruct (Qle_bool _ 0) eqn:E.
  { apply Qle_bool_iff in E. lra. }
  apply Nat.ltb_lt in Hc. rewrite Hc, Hl. simpl. eauto.
Qed.

(** ** The sampling schedule *)

Lemma groundtruth_p_at_mono (self : AsrDecoderBase) (s1 s2 : Z) :
  (0 < _decay_interval self)%Q → (0 <= _max_label_prob self)%Q →
  (s1 ≤ s2)%Z →
  (groundtruth_p_at self s2 <= groundtruth_p_at self s1)%Q.
Proof.
  intros Hd Hm Hs. unfold groundtruth_p_at.
  apply Q.min_le_compat_r, Q.max_le_compat_r.
  assert (inject_Z s1 <= inject_Z s2)%Q as Hq by (rewrite <- Zle_Qle; lia).
  assert ((inject_Z s1 - prob_decay_start_step (params self))
            / _decay_interval self
          <= (inject_Z s2 - prob_decay_start_step (params self))
            / _decay_interval self)%Q as Hdiv.
  { unfold Qdiv. apply Qmult_le_compat_r; [lra|].
    apply Qlt_le_weak, Qinv_lt_0_compat, Hd. }
  nra.
Qed.

Lemma groundtruth_p_at_lower (self : AsrDecoderBase) (s : Z) :
  (min_ground_truth_prob (params self) <= 1)%Q →
  (min_ground_truth_prob (params self) <= groundtruth_p_at self s)%Q.
Proof.
  intros H. unfold groundtruth_p_at.
  apply Q.min_glb; [apply Q.le_max_r | lra].
Qed.

Lemma groundtruth_p_at_start (self : AsrDecoderBase) (s : Z) :
  (0 < _decay_interval self)%Q → (0 <= _max_label_prob self)%Q →
  (inject_Z s <= prob_decay_start_step (params self))%Q →
  (groundtruth_p_at self s == 1)%Q.
Proof.
  intros Hd Hm Hs. unfold groundtruth_p_at.
  assert ((inject_Z s - prob_decay_start_step (params self))
            / _decay_interval self <= 0)%Q as Hdiv.
  { unfold Qdiv. pose proof (Qinv_lt_0_compat _ Hd). nra. }
  etransitivity; [apply Q.min_r | reflexivity].
  eapply Qle_trans; [|apply Q.le_max_l]. nra.
Qed.

Lemma MiscZeroState_groundtruth_p (self : AsrDecoderBase) (s : Z)
    (target_ids : list (list Z)) (bs : nat) (m : MiscStates) (g : Q) :
  MiscZeroState self s target_ids bs = Ok m → groundtruth_p m = Some g →
  g = groundtruth_p_at self s ∧ (0 < _max_label_prob self)%Q.
Proof.
  unfold MiscZeroState. intros H Hg.
  destruct (Qltb 0 _) eqn:E.
  - inv_result. simpl in Hg. apply Qltb_true in E. split; congruence.
  - inv_result. discriminate.
Qed.

(** C3. The ground-truth sampling probability that [MiscZeroState] computes
    is non-increasing in the global step, never below
    [min_ground_truth_prob], and 1 at every global step up to
    [prob_decay_start_step]. *)
Theorem groundtruth_p_schedule (p : ParamsT) (self : AsrDecoderBase)
    (s1 s2 : Z) (target_ids : list (list Z)) (bs : nat)
    (m1 m2 : MiscStates) (g1 g2 : Q) :
  __init__ p = Ok self →
  MiscZeroState self s1 target_ids bs = Ok m1 → groundtruth_p m1 = Some g1 →
  MiscZeroState self s2 target_ids bs = Ok m2 → groundtruth_p m2 = Some g2 →
  ((s1 ≤ s2)%Z → (g2 <= g1)%Q)
  ∧ (min_ground_truth_prob p <= g1)%Q
  ∧ ((inject_Z s1 <= prob_decay_start_step p)%Q → (g1 == 1)%Q).
Proof.
  intros Hi H1 Hg1 H2 Hg2.
  destruct (init_Ok _ _ Hi) as (Hp & Hm & _ & Hd & _).
  destruct (MiscZeroState_groundtruth_p _ _ _ _ _ _ H1 Hg1) as [-> Hpos].
  destruct (MiscZeroState_groundtruth_p _ _ _ _ _ _ H2 Hg2) as [-> _].
  assert (0 <= _max_label_prob self)%Q as Hnn by lra.
  rewrite Hm in Hpos. clear Hm.
  split; [|split].
  - intros Hs. by apply groundtruth_p_at_mono.
  - rewrite <- Hp. apply groundtruth_p_at_lower. rewrite Hp. lra.
  - rewrite <- Hp. intros Hs. by apply groundtruth_p_at_start.
Qed.

(** ** The post-step update *)

Lemma int64_add_1 (t : Z) :
  (- 2 ^ 63 ≤ t < 2 ^ 63 - 1)%Z → int64_add t 1 = (t + 1)%Z.
Proof.
  intros H. unfold int64_add, int64_wrap.
  rewrite Z.mod_small; lia.
Qed.

(** C4. [PostStepDecoderStateUpdate] raises [ValueError] exactly when the
    function-based unroller is configured together with scheduled sampling,
    or the graph-loop unroller is configured and [logits] is [None]; whenever
    it returns, [time_step] has been incremented by 1 (in [tf.int64], so by
    exactly 1 below the largest value), and it returns whenever neither case
    holds and the logits are a float tensor. *)
Theorem PostStepDecoderStateUpdate_raises_iff (self : AsrDecoderBase)
    (decoder_step_state : DecoderStepState) (logits : option leaf) :
  let p := params self in
  let t := time_step (step_state (misc_states decoder_step_state)) in
  ((∃ msg, PostStepDecoderStateUpdate self decoder_step_state logits
           = Raise (ValueError msg))
   ↔ (use_while_loop_based_unrolling p = false
      ∧ (min_ground_truth_prob p < 1)%Q)
     ∨ (use_while_loop_based_unrolling p = true ∧ logits = None))
  ∧ (∀ s', PostStepDecoderStateUpdate self decoder_step_state logits = Ok s' →
       time_step (step_state (misc_states s')) = int64_add t 1
       ∧ ((- 2 ^ 63 ≤ t < 2 ^ 63 - 1)%Z →
          time_step (step_state (misc_states s')) = (t + 1)%Z))
  ∧ (∀ lg, logits = Some (FloatLeaf lg) →
       ¬ (use_while_loop_based_unrolling p = false
          ∧ (min_ground_truth_prob p < 1)%Q) →
       ∃ s', PostStepDecoderStateUpdate self decoder_step_state logits
             = Ok s').
Proof.
  intros p t. subst p t. unfold PostStepDecoderStateUpdate.
  destruct (use_while_loop_based_unrolling (params self)) eqn:Hw; simpl.
  - destruct logits as [[x|x]|]; simpl;
      try (destruct (Qltb 0 (_max_label_prob self)) eqn:Hs; simpl).
    all: split;
      [ split;
        [ intros [msg H]; try discriminate H; auto
        | intros [[H1 H2]|[H1 H2]]; try discriminate; eauto ]
      | split;
        [ intros s' H;
          first [ discriminate H
                | injection H as <-; simpl; split; [done | apply int64_add_1] ]
        | intros lg H Hn; try discriminate H; eauto ] ].
  - destruct (Qltb (min_ground_truth_prob (params self)) 1.0) eqn:Hs; simpl;
      [apply Qltb_true in Hs | apply Qltb_false in Hs].
    all: split;
      [ split;
        [ intros [msg H];
          first [ discriminate H | left; split; [done | lra] ]
        | intros [[H1 H2]|[H1 H2]]; try discriminate; try lra; eauto ]
      | split;
        [ intros s' H;
          first [ discriminate H
                | injection H as <-; simpl; split; [done | apply int64_add_1] ]
        | intros lg H Hn;
          first [ exfalso; apply Hn; split; [done | lra] | eauto ] ] ].
Qed.

(** ** Scheduled sampling with the function-based unroller *)

(** C5, as the code has it. Scheduled sampling configured together with the
    function-based unroller is not an error of [__init__], which accepts the
    parameters whatever the unrolling flag is; it is an error of the forward
    pass: [ComputePredictions] fails on the assertion of
    [ComputePredictionsFunctional] before any decoding step, and
    [PostStepDecoderStateUpdate] raises [ValueError]. *)
Theorem scheduled_sampling_functional_fails_at_call (p : ParamsT)
    (self : AsrDecoderBase) (gstep : Z) (source_encs : list mat)
    (source_paddings : mat) (targets : Targets)
    (decoder_step_state : DecoderStepState) (logits : option leaf) :
  __init__ p = Ok self →
  (min_ground_truth_prob p < 1)%Q →
  use_while_loop_based_unrolling p = false →
  ComputePredictions self gstep source_encs source_paddings targets
    = Raise (AssertionError "")
  ∧ PostStepDecoderStateUpdate self decoder_step_state logits
    = Raise (ValueError "SS is not yet supported").
Proof.
  intros Hi Hss Hw. destruct (init_Ok _ _ Hi) as (Hp & _).
  split.
  - unfold ComputePredictions, ComputePredictionsFunctional.
    rewrite Hp, Hw.
    destruct (Qeqb (min_ground_truth_prob p) 1.0) eqn:E; [|done].
    apply Qeqb_true in E. lra.
  - unfold PostStepDecoderStateUpdate. rewrite Hp, Hw. simpl.
    assert (Qltb (min_ground_truth_prob p) 1.0 = true) as ->; [|done].
    apply Qltb_true. lra.
Qed.

End Properties.

Section TargetProperties.
Context `{L : Layers}.

(** ** Targets fed at a step *)

Lemma tf_where_all_true {A} (cond : list bool) (x y : list A) :
  Forall (λ c, c = true) cond → length x = length cond →
  length y = length cond → tf_where cond x y = Ok x.
Proof.
  intros Hc Hx Hy. unfold tf_where.
  rewrite decide_True by done. f_equal.
  revert x y Hx Hy. induction Hc as [|c cond -> _ IH]; intros x y Hx Hy.
  - by destruct x.
  - destruct x as [|a x], y as [|b y]; try discriminate. simpl.
    f_equal. apply IH; simpl in *; lia.
Qed.

(** C7. At a step where [groundtruth_p] is 1, whatever [tf.random_uniform]
    draws in [0, 1), the target fed is the ground truth: its id and its
    embedding are the ones read from the target buffer. *)
Theorem groundtruth_fed_when_p_is_one (self : AsrDecoderBase) (time : nat)
    (decoder_step_state : DecoderStepState) (target_info_tas : TargetInfoTas)
    (target_id : list Z) (label : list Z) (weight : list Q) (emb0 : mat)
    (padding : mat) (gp : Q) (ids_prev : list Z) :
  ta_read (id_ta target_info_tas) time = Ok target_id →
  ta_read (label_ta target_info_tas) time = Ok label →
  ta_read (weight_ta target_info_tas) time = Ok weight →
  ta_read (emb_ta target_info_tas) time = Ok emb0 →
  ta_read (padding_ta target_info_tas) time = Ok padding →
  groundtruth_p (misc_states decoder_step_state) = Some gp →
  (gp == 1)%Q →
  prev_predicted_ids (misc_states decoder_step_state) = Some ids_prev →
  length target_id = length ids_prev →
  length emb0 = length ids_prev →
  uniform_draws
    (tf_random_uniform random (Z.of_nat time) (length ids_prev)
       (random_seed (params self)))
    (length ids_prev) →
  ∃ target_info,
    TargetsToBeFedAtCurrentDecodeStep self time decoder_step_state
      target_info_tas = Ok target_info
    ∧ id target_info = target_id
    ∧ temb target_info = emb0.
Proof.
  intros Hid Hlabel Hweight Hemb Hpad Hgp Hone Hprev Hlid Hlemb [Hlen Hu].
  unfold TargetsToBeFedAtCurrentDecodeStep.
  rewrite Hid, Hlabel, Hweight, Hemb, Hpad. simpl.
  destruct (Qltb 0 (_max_label_prob self)); simpl; [|eauto].
  rewrite Hprev, Hgp. simpl.
  set (u := tf_random_uniform _ _ _ _) in *.
  assert (Forall (λ c, c = true) ((λ x, Qltb x gp) <$> u)) as Hpick.
  { apply Forall_fmap. eapply Forall_impl; [exact Hu|].
    intros x [_ Hx]. simpl. apply Qltb_true. lra. }
  rewrite !tf_where_all_true; try done;
    rewrite ?length_fmap; try congruence.
  simpl. eauto.
Qed.

(** C9. The target fed at a step by the base class carries an empty [misc],
    whatever [CreateTargetInfoMisc] stored in the [misc] of the target
    buffer: with [fst_bias_probs] among the targets the buffer holds it, and
    the step input does not. *)
Theorem step_misc_is_empty (self : AsrDecoderBase) (targets : Targets)
    (max_seq_length : nat) (target_embs : list mat)
    (target_info_tas : TargetInfoTas) (time : nat)
    (decoder_step_state : DecoderStepState) (target_info : TargetInfo) :
  _GetInitialTargetInfo targets max_seq_length target_embs
    = Ok target_info_tas →
  TargetsToBeFedAtCurrentDecodeStep self time decoder_step_state
    target_info_tas = Ok target_info →
  misc target_info = ∅
  ∧ misc_ta target_info_tas = CreateTargetInfoMisc targets
  ∧ (∀ x, fst_bias_probs targets = Some x →
       misc_ta target_info_tas !! "fst_bias_probs" = Some x
       ∧ misc target_info !! "fst_bias_probs" = None).
Proof.
  intros Hinit Hfed.
  assert (misc target_info = ∅) as Hmisc.
  { unfold TargetsToBeFedAtCurrentDecodeStep in Hfed. inv_result.
    destruct a4 as [emb1 tid]. inv_result. done. }
  assert (misc_ta target_info_tas = CreateTargetInfoMisc targets) as Hta.
  { unfold _GetInitialTargetInfo in Hinit. inv_result. done. }
  split; [done | split; [done|]].
  intros x Hx. rewrite Hmisc, Hta. unfold CreateTargetInfoMisc. rewrite Hx.
  split; [apply lookup_singleton_eq | apply lookup_empty].
Qed.

End TargetProperties.

Section StepProperties.
Context `{L : Layers}.

(** ** One decoding step *)

Lemma ApplyDropout_total {A} `{DropoutOps A} (self : AsrDecoderBase)
    (x : A) (deterministic : bool) (extra_seed : option Z) (ss : StepState) :
  (0 <= dropout_prob (params self))%Q → (dropout_prob (params self) < 1)%Q →
  ∃ y, _ApplyDropout self x deterministic extra_seed (Some ss) = Ok y.
Proof.
  intros H0 H1. unfold _ApplyDropout.
  assert (Qle_bool 0 (dropout_prob (params self)) = true) as ->
    by by apply Qle_bool_iff.
  assert (Qltb (dropout_prob (params self)) 1.0 = true) as ->
    by (apply Qltb_true; lra).
  simpl. destruct (_ || _); [eauto|]. destruct deterministic; eauto.
Qed.

(** Dropout does nothing in evaluation mode and at probability 0. *)
Lemma ApplyDropout_inactive {A} `{DropoutOps A} (self : AsrDecoderBase)
    (x : A) (deterministic : bool) (extra_seed : option Z)
    (ss : option StepState) :
  (0 <= dropout_prob (params self))%Q → (dropout_prob (params self) < 1)%Q →
  is_eval (params self) = true ∨ (dropout_prob (params self) == 0)%Q →
  _ApplyDropout self x deterministic extra_seed ss = Ok x.
Proof.
  intros H0 H1 Hin. unfold _ApplyDropout.
  assert (Qle_bool 0 (dropout_prob (params self)) = true) as ->
    by by apply Qle_bool_iff.
  assert (Qltb (dropout_prob (params self)) 1.0 = true) as ->
    by (apply Qltb_true; lra).
  simpl.
  assert (is_eval (params self) || Qeqb (dropout_prob (params self)) 0.0
          = true) as ->; [|done].
  apply orb_true_iff. destruct Hin as [?|Hz]; [by left | right].
  apply Qeqb_true. rewrite Hz. reflexivity.
Qed.

Lemma rnn_layer_body_total (self : AsrDecoderBase) (cur : TargetInfo)
    (s : DecoderStepState) (ctx : mat) (det : bool) (i : nat)
    (cell : RNNCell RnnState) (vars : mat * list RnnState) :
  (0 <= dropout_prob (params self))%Q → (dropout_prob (params self) < 1)%Q →
  (i < length (rnn_states s))%nat →
  ∃ vars', rnn_layer_body self cur s ctx det i cell vars = Ok vars'.
Proof.
  intros H0 H1 Hi. unfold rnn_layer_body. destruct vars as [rnn_out sts].
  destruct (lookup_lt_is_Some_2 _ _ Hi) as [st Hst].
  unfold py_index. rewrite Hst. simpl.
  destruct (ApplyDropout_total self
              (GetOutput cell (FProp cell st rnn_out ctx (padding cur)))
              det (Some (Z.of_nat i * 1000)%Z)
              (step_state (misc_states s)) H0 H1) as [y ->].
  simpl. eauto.
Qed.

(** One iteration of the loop over the layers, given what dropout returns. *)
Lemma rnn_layer_body_eq (self : AsrDecoderBase) (cur : TargetInfo)
    (s : DecoderStepState) (ctx : mat) (det : bool) (i : nat)
    (cell : RNNCell RnnState) (rnn_out : mat) (sts : list RnnState)
    (st : RnnState) (d : mat) :
  rnn_states s !! i = Some st →
  _ApplyDropout self (GetOutput cell (FProp cell st rnn_out ctx (padding cur)))
    det (Some (Z.of_nat i * 1000)%Z) (Some (step_state (misc_states s)))
    = Ok d →
  rnn_layer_body self cur s ctx det i cell (rnn_out, sts)
  = Ok (if residual_applies (params self) i then mat_add rnn_out d else d,
        sts ++ [FProp cell st rnn_out ctx (padding cur)]).
Proof.
  intros Hst Hd. unfold rnn_layer_body, py_index. rewrite Hst. simpl.
  rewrite Hd. done.
Qed.

Lemma rnn_layers_trace_total (self : AsrDecoderBase) (cur : TargetInfo)
    (s : DecoderStepState) (ctx : mat) (det : bool)
    (cells : list (RNNCell RnnState)) (i : nat) (vars : mat * list RnnState) :
  (0 <= dropout_prob (params self))%Q → (dropout_prob (params self) < 1)%Q →
  (i + length cells ≤ length (rnn_states s))%nat →
  ∃ outs,
    rnn_layers_trace (rnn_layer_body self cur s ctx det) cells i vars
      = Ok outs
    ∧ length outs = length cells.
Proof.
  intros H0 H1. revert i vars.
  induction cells as [|cell cells IH]; intros i vars Hlen; simpl in *.
  - by exists [].
  - destruct (rnn_layer_body_total self cur s ctx det i cell vars H0 H1)
      as [vars' ->]; [lia|]. simpl.
    destruct (IH (S i) vars') as (outs & -> & Hl); [lia|]. simpl.
    eexists. split; [done|]. simpl. by rewrite Hl.
Qed.

(** The last traced output is the [rnn_out] that the loop returns. *)
Lemma rnn_layers_loop_trace (body : nat → RNNCell RnnState →
      mat * list RnnState → result (mat * list RnnState))
    (cells : list (RNNCell RnnState)) (i : nat) (vars : mat * list RnnState)
    (outs : list mat) :
  rnn_layers_trace body cells i vars = Ok outs →
  ∃ vars', rnn_layers_loop body cells i vars = Ok vars'
           ∧ vars'.1 = default vars.1 (last outs).
Proof.
  revert i vars outs. induction cells as [|cell cells IH];
    intros i vars outs H; simpl in *.
  - inv_result. eauto.
  - inv_result.
    destruct (IH _ _ _ Ha0) as (vars' & Hl & Hv).
    exists vars'. split; [by rewrite Ha|]. rewrite Hv.
    destruct a0 as [|o outs']; [done|].
    change (last (a.1 :: o :: outs')) with (last (o :: outs')).
    destruct (last (o :: outs')) eqn:E; [done|].
    by apply last_None in E.
Qed.

(** The loop over the layers only appends to the list of new cell states. *)
Lemma rnn_layers_loop_prefix (self : AsrDecoderBase) (cur : TargetInfo)
    (s : DecoderStepState) (ctx : mat) (det : bool)
    (cells : list (RNNCell RnnState)) (i : nat)
    (vars vars' : mat * list RnnState) :
  rnn_layers_loop (rnn_layer_body self cur s ctx det) cells i vars = Ok vars' →
  ∃ ext, vars'.2 = vars.2 ++ ext.
Proof.
  revert i vars. induction cells as [|cell cells IH]; intros i vars H;
    cbn [rnn_layers_loop] in H.
  - inv_result. exists []. by rewrite app_nil_r.
  - apply bind_Ok in H. destruct H as (vars1 & Hbody & H).
    destruct (IH _ _ H) as [ext ->].
    unfold rnn_layer_body in Hbody. destruct vars as [ro sts].
    apply bind_Ok in Hbody. destruct Hbody as (st & _ & Hbody).
    apply bind_Ok in Hbody. destruct Hbody as (d & _ & Hbody).
    injection Hbody as <-. cbn [snd]. eexists. by rewrite <- app_assoc.
Qed.

(** C10. Whatever [residual_start] is, [SingleDecodeStep] uses the output
    of the first layer as its cell puts it out on the embedding and the
    previous attention context, with no residual sum: that raw output is
    what the attention is queried with, what the second layer is fed, the
    first summand when the second layer is residual-summed, and, with a
    single layer, the output of the step itself. The residual decision is
    taken for the first time at the second layer ([i = 1]). The step
    returns as soon as the state holds one cell state per layer and the
    dropout probability is in [0, 1); its output is the output of the last
    layer followed by the new attention context. *)
Theorem first_layer_has_no_residual (self : AsrDecoderBase)
    (packed_src : PackedSrc) (cur_target_info : TargetInfo)
    (decoder_step_state : DecoderStepState)
    (per_step_src_padding : option mat) (use_deterministic_random : bool)
    (cell_0 : RNNCell RnnState) (cells : list (RNNCell RnnState))
    (state_0 : RnnState) (states : list RnnState) :
  let misc_states := misc_states decoder_step_state in
  let out_0 :=
    GetOutput cell_0
      (FProp cell_0 state_0 (temb cur_target_info)
         (atten_context decoder_step_state) (padding cur_target_info)) in
  let attended :=
    _ComputeAttention out_0 packed_src (atten_states decoder_step_state)
      per_step_src_padding (step_state misc_states) in
  let context :=
    QueryAttention contextualizer out_0 misc_states attended.1.1 packed_src in
  rnn_cell = cell_0 :: cells →
  rnn_states decoder_step_state = state_0 :: states →
  (length cells ≤ length states)%nat →
  (0 <= dropout_prob (params self))%Q →
  (dropout_prob (params self) < 1)%Q →
  ∃ outs step_out new_state,
    SingleDecodeStep self packed_src cur_target_info decoder_step_state
      per_step_src_padding use_deterministic_random
    = Ok (step_out, new_state)
    ∧ layer_outputs self packed_src cur_target_info decoder_step_state
        per_step_src_padding use_deterministic_random
      = Ok (out_0 :: outs)
    ∧ length outs = length cells
    ∧ step_out = tf_concat1 (default out_0 (last outs)) context
    ∧ (cells = [] → step_out = tf_concat1 out_0 context)
    ∧ atten_context new_state = context
    ∧ atten_probs new_state = attended.1.2
    ∧ atten_states new_state = attended.2
    ∧ ∀ cell_1 state_1 d_1,
        cells !! 0%nat = Some cell_1 → states !! 0%nat = Some state_1 →
        _ApplyDropout self
          (GetOutput cell_1
             (FProp cell_1 state_1 out_0 context (padding cur_target_info)))
          use_deterministic_random (Some 1000%Z)
          (Some (step_state misc_states)) = Ok d_1 →
        rnn_states new_state !! 1%nat
        = Some (FProp cell_1 state_1 out_0 context (padding cur_target_info))
        ∧ outs !! 0%nat
          = Some (if residual_applies (params self) 1 then mat_add out_0 d_1
                  else d_1).
Proof.
  intros ms out_0 attended context Hc Hs Hlen H0 H1.
  subst context attended ms.
  unfold layer_outputs, SingleDecodeStep. rewrite Hc, Hs.
  cbn [py_index lookup list_lookup mbind result_bind drop]. fold out_0.
  destruct (_ComputeAttention out_0 _ _ _ _) as [[ctx probs] ast].
  cbn [fst snd]. rewrite drop_0.
  set (context := QueryAttention contextualizer out_0
                    (misc_states decoder_step_state) ctx packed_src).
  destruct (rnn_layers_trace_total self cur_target_info decoder_step_state
              context use_deterministic_random cells 1
              (out_0, [FProp cell_0 state_0 (temb cur_target_info)
                         (atten_context decoder_step_state)
                         (padding cur_target_info)]) H0 H1)
    as (outs & Ht & Hl); [rewrite Hs; simpl; lia|].
  destruct (rnn_layers_loop_trace _ _ _ _ _ Ht) as ([ro sts] & Hloop & Hro).
  destruct (rnn_layers_loop_prefix _ _ _ _ _ _ _ _ _ Hloop) as [ext Hext].
  cbn [fst snd] in Hro, Hext. rewrite Ht, Hloop.
  cbn [mbind result_bind]. exists outs. eexists _, _.
  split; [done|]. split; [done|]. split; [done|].
  split; [by rewrite Hro|].
  split. { intros ->. destruct outs; [by rewrite Hro | done]. }
  cbn [atten_context atten_probs atten_states rnn_states].
  split; [done|]. split; [done|]. split; [done|].
  intros cell_1 state_1 d_1 Hc1 Hs1 Hd.
  destruct cells as [|c1 cells']; [done|]. injection Hc1 as ->.
  destruct states as [|s1 states']; [done|]. injection Hs1 as ->.
  cbn [rnn_layers_loop rnn_layers_trace] in Hloop, Ht.
  assert (rnn_states decoder_step_state !! 1%nat = Some state_1) as Hst
    by by rewrite Hs.
  rewrite (rnn_layer_body_eq _ _ _ _ _ _ _ _ _ _ _ Hst Hd) in Hloop, Ht.
  cbn [mbind result_bind] in Hloop, Ht.
  destruct (rnn_layers_loop_prefix _ _ _ _ _ _ _ _ _ Hloop) as [ext' Hext'].
  cbn [fst snd] in Hext'. split; [by rewrite Hext'|].
  apply bind_Ok in Ht. destruct Ht as (outs' & _ & Ht).
  injection Ht as <-. done.
Qed.

(** C6, as the code has it. With three layers and [residual_start = 2],
    layer 1 puts out its cell output (no dropout, no residual sum); layer 2
    puts out layer 1's output plus its own dropped-out cell output; layer 3
    puts out layer 2's output plus its own dropped-out cell output; and the
    step output is layer 3's output followed by the attention context. *)
Theorem residual_from_layer_two (self : AsrDecoderBase)
    (packed_src : PackedSrc) (cur_target_info : TargetInfo)
    (decoder_step_state : DecoderStepState)
    (use_deterministic_random : bool)
    (c1 c2 c3 : RNNCell RnnState) (s1 s2 s3 : RnnState)
    (new_atten_context d2 d3 : mat) :
  let misc_states := misc_states decoder_step_state in
  let out1 :=
    GetOutput c1
      (FProp c1 s1 (temb cur_target_info) (atten_context decoder_step_state)
         (padding cur_target_info)) in
  let out2 := mat_add out1 d2 in
  let out3 := mat_add out2 d3 in
  rnn_cell = [c1; c2; c3] →
  rnn_states decoder_step_state = [s1; s2; s3] →
  residual_start (params self) = 2%Z →
  new_atten_context =
    QueryAttention contextualizer out1 misc_states
      (_ComputeAttention out1 packed_src (atten_states decoder_step_state)
         None (step_state misc_states)).1.1
      packed_src →
  _ApplyDropout self
    (GetOutput c2
       (FProp c2 s2 out1 new_atten_context (padding cur_target_info)))
    use_deterministic_random (Some 1000%Z) (Some (step_state misc_states))
    = Ok d2 →
  _ApplyDropout self
    (GetOutput c3
       (FProp c3 s3 out2 new_atten_context (padding cur_target_info)))
    use_deterministic_random (Some 2000%Z) (Some (step_state misc_states))
    = Ok d3 →
  layer_outputs self packed_src cur_target_info decoder_step_state None
    use_deterministic_random = Ok [out1; out2; out3]
  ∧ ∃ new_state,
      SingleDecodeStep self packed_src cur_target_info decoder_step_state
        None use_deterministic_random
      = Ok (tf_concat1 out3 new_atten_context, new_state).
Proof.
  intros misc_states0 out1 out2 out3 Hc Hs Hr Hctx Hd2 Hd3.
  subst misc_states0 out3 out2 out1.
  assert (residual_applies (params self) 1 = true) as Hr1
    by (unfold residual_applies; by rewrite Hr).
  assert (residual_applies (params self) 2 = true) as Hr2
    by (unfold residual_applies; by rewrite Hr).
  unfold layer_outputs, SingleDecodeStep.
  rewrite Hc, Hs. cbn [py_index lookup list_lookup mbind result_bind drop].
  destruct (_ComputeAttention _ _ _ _ _) as [[ctx probs] ast] eqn:Hatt.
  cbn [fst] in Hctx. subst new_atten_context.
  cbn [rnn_layers_trace rnn_layers_loop].
  erewrite rnn_layer_body_eq; [| by rewrite Hs | exact Hd2].
  rewrite Hr1. cbn [mbind result_bind].
  erewrite rnn_layer_body_eq; [| by rewrite Hs | exact Hd3].
  rewrite Hr2. cbn [mbind result_bind fst].
  split; [done | eauto].
Qed.

(** ** The beam search step *)

(** C8. [log_probs] of the pre-step callback is the fusion-adjusted logits
    themselves when [use_unnormalized_logits_as_log_probs] is set and their
    [log_softmax] when it is not: the logits are [ComputeLogitsWithLM] of the
    softmax layer's logits under the fusion state the callback returns, and
    the two settings of the flag differ by [log_softmax] alone. The flag is
    set by default. *)
Theorem log_probs_by_flag (self : AsrDecoderBase) (source_encs : list mat)
    (source_paddings : mat) (step_ids : list (list Z))
    (states : BeamSearchStates) (num_hyps_per_beam : nat)
    (results : BeamSearchResults) (new_states : BeamSearchStates) :
  let p := params self in
  let raw := with_params (set_use_unnormalized_logits_as_log_probs true p) self in
  let normalized :=
    with_params (set_use_unnormalized_logits_as_log_probs false p) self in
  _PreBeamSearchStepCallback self source_encs source_paddings step_ids states
    num_hyps_per_beam = Ok (results, new_states) →
  (∃ softmax_input,
     let logits :=
       ComputeLogitsWithLM fusion (bs_fusion_states new_states)
         (softmax_XentLoss softmax softmax_input
            ((λ row : list Z, (λ _, 1%Q) <$> row) <$> step_ids) step_ids)
         true in
     log_probs results =
       (if use_unnormalized_logits_as_log_probs p then logits
        else tf_nn_log_softmax logits)
     ∧ _PreBeamSearchStepCallback raw source_encs source_paddings step_ids
         states num_hyps_per_beam
       = Ok ({| res_atten_probs := res_atten_probs results;
                log_probs := logits |}, new_states)
     ∧ _PreBeamSearchStepCallback normalized source_encs source_paddings
         step_ids states num_hyps_per_beam
       = Ok ({| res_atten_probs := res_atten_probs results;
                log_probs := tf_nn_log_softmax logits |}, new_states))
  ∧ ∀ super, use_unnormalized_logits_as_log_probs (Params super) = true.
Proof.
  intros p raw normalized H. split; [|done].
  subst raw normalized. unfold _PreBeamSearchStepCallback in *.
  destruct (FPropLm _ _ _ _) as [lm fs1].
  destruct (FuseEmb _ _ _ _) as [fused fs2].
  change (SingleDecodeStep (with_params _ self))
    with (SingleDecodeStep self).
  inv_result. destruct a as [step_out nds]. rewrite Ha. simpl.
  change (softmax_uses_attention (params (with_params _ self)))
    with (softmax_uses_attention (params self)).
  change (rnn_cell_dim (params (with_params _ self)))
    with (rnn_cell_dim (params self)).
  destruct (FuseOutput _ _ _ _) as [softmax_input fs3] eqn:Hfo.
  inv_result. simpl.
  exists softmax_input. done.
Qed.

End StepProperties.

Section MetricsProperties.
Context `{L : Layers}.

(** ** Loss *)

Lemma Qsum_app (x y : list Q) : (Qsum (x ++ y) == Qsum x + Qsum y)%Q.
Proof.
  induction x as [|a x IH]; simpl.
  - ring.
  - rewrite IH. ring.
Qed.

(** Summing the row sums is summing every entry. *)
Lemma reduce_sum_concat (x : list (list Q)) :
  (reduce_sum x == Qsum (concat x))%Q.
Proof.
  unfold reduce_sum. induction x as [|r x IH]; simpl.
  - reflexivity.
  - rewrite Qsum_app, IH. reflexivity.
Qed.

(** C2. With [per_token_avg_loss] set, the ['loss'] metric of
    [_ComputeMetrics] is the sum over all tokens of the per-token
    cross-entropy times the weight, divided by the sum of the weights plus
    [1e-6]; its weight is the sum of the weights.  [_ComputeMetrics] is a
    function of its arguments: whatever the random ops draw, it returns the
    same. *)
Theorem per_token_avg_loss_formula (self : AsrDecoderBase) (logits : list mat)
    (target_labels : list (list Z)) (target_weights : list (list Q))
    (target_probs : option (list mat)) :
  per_token_avg_loss (params self) = true →
  (∃ loss,
     (_ComputeMetrics self logits target_labels target_weights target_probs).1
       !! "loss" = Some (loss, reduce_sum target_weights)
     ∧ (loss ==
        per_token_avg_loss_spec
          (per_example_loss logits target_labels target_probs)
          target_weights)%Q)
  ∧ ∀ r : RandomOps,
      _ComputeMetrics (L := with_random r L) self logits target_labels
        target_weights target_probs
      = _ComputeMetrics self logits target_labels target_weights target_probs.
Proof.
  intros Hp. split; [|done].
  unfold _ComputeMetrics. rewrite Hp. cbn [fst].
  eexists. split.
  - destruct (negb use_tpu);
      rewrite ?lookup_insert_ne by done; apply lookup_singleton_eq.
  - unfold per_token_avg_loss_spec, Qdiv, reduce_sum_1.
    apply Qmult_comp.
    + apply reduce_sum_concat.
    + apply Qinv_comp, Qplus_comp; [apply reduce_sum_concat | reflexivity].
Qed.

End MetricsProperties.

(** ** Lists, tensors and TensorArrays *)

Lemma mapM_result_Ok {A B} (f : A → result B) (l : list A) :
  (∀ x, x ∈ l → ∃ y, f x = Ok y) →
  ∃ ys, mapM f l = Ok ys ∧ length ys = length l.
Proof.
  induction l as [|x l IH]; intros Hf; simpl.
  - by exists [].
  - destruct (Hf x) as [y Hy]; [left|].
    destruct IH as (ys & Hys & Hl).
    { intros z Hz. apply Hf. by right. }
    exists (y :: ys). rewrite Hy. simpl. rewrite Hys. simpl.
    split; [done | by rewrite Hl].
Qed.

Lemma mapM_result_fmap {A B} (f : A → result B) (g : A → B) (l : list A) :
  (∀ x, x ∈ l → f x = Ok (g x)) → mapM f l = Ok (g <$> l).
Proof.
  induction l as [|x l IH]; intros Hf; simpl; [done|].
  rewrite (Hf x) by left. simpl. rewrite IH; [done|].
  intros z Hz. apply Hf. by right.
Qed.

Lemma length_transpose_n {A} (m : nat) (x : list (list A)) :
  length (transpose_n m x) = m.
Proof.
  revert x. induction m as [|m IH]; intros x; simpl; [done | by rewrite IH].
Qed.

Lemma length_tf_transpose {A} (x : list (list A)) :
  length (tf_transpose x) = length (default [] (head x)).
Proof. apply length_transpose_n. Qed.

(** The time dimension of a [[batch, time]] tensor with [bs] rows of length
    [T], which is 0 for an empty batch. *)
Lemma length_head_rows {A} (x : list (list A)) (bs T : nat) :
  length x = bs → Forall (λ r, length r = T) x → (bs = 0 → T = 0)%nat →
  length (default [] (head x)) = T.
Proof.
  intros Hl Hr Hz. destruct x as [|r x]; simpl in *.
  - symmetry. by apply Hz.
  - by inversion Hr.
Qed.

Lemma ToTensorArray_Ok {A} (v : list A) (n : nat) :
  length v = n → _ToTensorArray v n = Ok (Some <$> v).
Proof. intros H. unfold _ToTensorArray. by rewrite decide_True. Qed.

Lemma ta_read_Some {A} (v : list A) (t : nat) (x : A) :
  v !! t = Some x → ta_read (Some <$> v) t = Ok x.
Proof. intros H. unfold ta_read. by rewrite list_lookup_fmap, H. Qed.

Lemma ta_stack_Some {A} (v : list A) : ta_stack (Some <$> v) = Ok v.
Proof.
  induction v as [|x v IH]; [done|].
  rewrite fmap_cons. cbn [ta_stack]. by rewrite IH.
Qed.

Lemma ta_write_length {A} (ta ta' : TensorArray A) (t : nat) (x : A) :
  ta_write ta t x = Ok ta' → length ta' = length ta.
Proof.
  unfold ta_write. destruct (decide _); [|done].
  intros [= <-]. apply length_insert.
Qed.

Lemma ta_write_Ok {A} (ta : TensorArray A) (t : nat) (x : A) :
  (t < length ta)%nat → ∃ ta', ta_write ta t x = Ok ta'.
Proof. intros H. unfold ta_write. rewrite decide_True by done. eauto. Qed.

(** Writing the next slot of an array filled in time order. *)
Lemma ta_write_written {A} (ta : TensorArray A) (done : list A) (n : nat)
    (x : A) :
  written ta done (S n) →
  ∃ ta', ta_write ta (length done) x = Ok ta' ∧ written ta' (done ++ [x]) n.
Proof.
  unfold written. intros ->. unfold ta_write.
  rewrite decide_True.
  2:{ rewrite length_app, length_fmap, length_replicate. lia. }
  eexists. split; [done|].
  rewrite fmap_app. simpl. rewrite <- (assoc_L (++)). simpl.
  replace (length done) with (length (Some <$> done) + 0)%nat
    by (rewrite length_fmap; lia).
  by rewrite insert_app_r.
Qed.

Lemma written_length {A} (ta : TensorArray A) (done : list A) (n : nat) :
  written ta done n → length ta = (length done + n)%nat.
Proof.
  unfold written. intros ->.
  by rewrite length_app, length_fmap, length_replicate.
Qed.

Lemma written_stack {A} (ta : TensorArray A) (done : list A) :
  written ta done 0 → ta_stack ta = Ok done.
Proof.
  unfold written. intros ->. simpl. rewrite app_nil_r. apply ta_stack_Some.
Qed.

Lemma NewTensorArray_written {A} (n : nat) :
  written (_NewTensorArray (A := A) n) [] n.
Proof. done. Qed.

(** [write_each] succeeds when there is an array for every value and the
    time is in range; the arrays keep their number and their sizes. *)
Lemma write_each_from_Ok {A} (tas : list (TensorArray A)) (t T i : nat)
    (xs : list A) :
  (i + length xs ≤ length tas)%nat → (t < T)%nat →
  Forall (λ ta, length ta = T) tas →
  ∃ tas', write_each_from tas t i xs = Ok tas'
          ∧ length tas' = length xs
          ∧ Forall (λ ta, length ta = T) tas'.
Proof.
  intros Hl Ht Hs. revert i Hl.
  induction xs as [|x xs IH]; intros i Hl; simpl in *.
  - by exists [].
  - destruct (lookup_lt_is_Some_2 tas i) as [ta Hta]; [lia|].
    unfold py_index. rewrite Hta. simpl.
    assert (length ta = T) as HT.
    { eapply (Forall_lookup_1 _ _ _ _ Hs Hta). }
    destruct (ta_write_Ok ta t x) as [ta' Hw]; [lia|].
    rewrite Hw. simpl.
    destruct (IH (S i)) as (tas' & -> & Hl' & Hf'); [lia|]. simpl.
    eexists. split; [done|]. simpl. split; [by rewrite Hl'|].
    constructor; [|done]. apply ta_write_length in Hw. lia.
Qed.

Lemma write_each_Ok {A} (tas : list (TensorArray A)) (t T : nat)
    (xs : list A) :
  length xs = length tas → (t < T)%nat →
  Forall (λ ta, length ta = T) tas →
  ∃ tas', write_each tas t xs = Ok tas'
          ∧ length tas' = length tas
          ∧ Forall (λ ta, length ta = T) tas'.
Proof.
  intros Hl Ht Hs.
  destruct (write_each_from_Ok tas t T 0 xs) as (tas' & H & Hl' & Hf);
    [lia | done | done |].
  exists tas'. split; [done | split; [lia | done]].
Qed.

Section UnrolledProperties.
Context `{L : Layers}.

(** ** One step, whatever the unroller *)

Lemma rnn_layers_loop_ext
    (body body' : nat → RNNCell RnnState → mat * list RnnState →
                  result (mat * list RnnState))
    (cells : list (RNNCell RnnState)) (i : nat) (vars : mat * list RnnState) :
  (∀ i cell vars, body i cell vars = body' i cell vars) →
  rnn_layers_loop body cells i vars = rnn_layers_loop body' cells i vars.
Proof.
  intros Hb. revert i vars. induction cells as [|cell cells IH];
    intros i vars; simpl; [done|].
  rewrite Hb. destruct (body' i cell vars); simpl; [apply IH | done].
Qed.

(** With dropout off, [SingleDecodeStep] reads the embedding and the padding
    of its input and the recurrent, attention and miscellaneous state; it
    reads neither the unrolling flag nor [use_deterministic_random]. *)
Lemma SingleDecodeStep_ext (self : AsrDecoderBase) (b : bool)
    (packed_src : PackedSrc) (c c' : TargetInfo) (s s' : DecoderStepState)
    (pad : option mat) (det det' : bool) :
  dropout_inactive (params self) →
  same_core s s' → temb c = temb c' → padding c = padding c' →
  SingleDecodeStep
    (with_params (set_use_while_loop_based_unrolling b (params self)) self)
    packed_src c' s' pad det'
  = SingleDecodeStep self packed_src c s pad det.
Proof.
  intros (H0 & H1 & Hin) (Hr & Hc & Ha & Hm) He Hp.
  unfold SingleDecodeStep. rewrite <- Hr, <- Hc, <- Ha, <- Hm, <- He, <- Hp.
  destruct (py_index rnn_cell 0) as [cell_0|]; simpl; [|done].
  destruct (py_index (rnn_states s) 0) as [state_0|]; simpl; [|done].
  destruct (_ComputeAttention _ _ _ _ _) as [[ctx probs] ast].
  erewrite rnn_layers_loop_ext; [done|].
  intros i cell [rnn_out sts]. unfold rnn_layer_body.
  rewrite <- Hr, <- Hp, <- Hm.
  destruct (py_index (rnn_states s) i) as [state_i|]; simpl; [|done].
  rewrite !ApplyDropout_inactive; done.
Qed.

Lemma rnn_layers_loop_total (self : AsrDecoderBase) (cur : TargetInfo)
    (s : DecoderStepState) (ctx : mat) (det : bool)
    (cells : list (RNNCell RnnState)) (i : nat) (rnn_out : mat)
    (sts : list RnnState) :
  (0 <= dropout_prob (params self))%Q → (dropout_prob (params self) < 1)%Q →
  (i + length cells ≤ length (rnn_states s))%nat →
  ∃ rnn_out' sts',
    rnn_layers_loop (rnn_layer_body self cur s ctx det) cells i (rnn_out, sts)
      = Ok (rnn_out', sts')
    ∧ length sts' = (length sts + length cells)%nat.
Proof.
  intros H0 H1. revert i rnn_out sts.
  induction cells as [|cell cells IH]; intros i rnn_out sts Hlen;
    cbn [rnn_layers_loop length] in *.
  - eexists _, _. split; [done | lia].
  - destruct (lookup_lt_is_Some_2 (rnn_states s) i) as [st Hst]; [lia|].
    destruct (ApplyDropout_total self
                (GetOutput cell (FProp cell st rnn_out ctx (padding cur)))
                det (Some (Z.of_nat i * 1000)%Z)
                (step_state (misc_states s)) H0 H1) as [d Hd].
    rewrite (rnn_layer_body_eq _ _ _ _ _ _ _ _ _ _ _ Hst Hd).
    cbn [mbind result_bind].
    destruct (IH (S i)
                (if residual_applies (params self) i
                 then mat_add rnn_out d else d)
                (sts ++ [FProp cell st rnn_out ctx (padding cur)]))
      as (o & sts' & -> & Hl); [lia|].
    eexists _, _. split; [done|]. rewrite Hl, length_app. simpl. lia.
Qed.

(** [SingleDecodeStep] returns when there is a cell state for every cell; it
    returns one state per cell, the [misc_states] it was given, and sets
    none of the optional fields. *)
Lemma SingleDecodeStep_total (self : AsrDecoderBase) (packed_src : PackedSrc)
    (c : TargetInfo) (s : DecoderStepState) (pad : option mat) (det : bool) :
  (0 <= dropout_prob (params self))%Q → (dropout_prob (params self) < 1)%Q →
  rnn_cell ≠ [] → length (rnn_states s) = length rnn_cell →
  ∃ step_out s1,
    SingleDecodeStep self packed_src c s pad det = Ok (step_out, s1)
    ∧ length (rnn_states s1) = length rnn_cell
    ∧ misc_states s1 = misc_states s
    ∧ fusion_states s1 = None ∧ logits s1 = None ∧ step_outs s1 = None.
Proof.
  intros H0 H1 Hne Hlen. unfold SingleDecodeStep.
  destruct rnn_cell as [|cell_0 cells] eqn:Hcells; [done|].
  destruct (rnn_states s) as [|state_0 states] eqn:Hstates; [done|].
  cbn [py_index lookup list_lookup mbind result_bind drop].
  destruct (_ComputeAttention _ _ _ _ _) as [[ctx probs] ast].
  rewrite drop_0.
  match goal with
  | |- context [rnn_layers_loop ?body cells 1%nat (?o, ?sts)] =>
      destruct (rnn_layers_loop_total self c s
                  (QueryAttention contextualizer o (misc_states s) ctx
                     packed_src) det cells 1 o sts H0 H1)
        as (o' & sts' & Hloop & Hl)
  end.
  { rewrite Hstates. simpl in *. lia. }
  rewrite Hloop. simpl. eexists _, _. split; [done|]. simpl.
  split; [rewrite Hl; simpl; lia | done].
Qed.

Lemma rnn_layers_loop_length (self : AsrDecoderBase) (cur : TargetInfo)
    (s : DecoderStepState) (ctx : mat) (det : bool)
    (cells : list (RNNCell RnnState)) (i : nat)
    (vars vars' : mat * list RnnState) :
  rnn_layers_loop (rnn_layer_body self cur s ctx det) cells i vars = Ok vars' →
  length vars'.2 = (length vars.2 + length cells)%nat.
Proof.
  revert i vars. induction cells as [|cell cells IH]; intros i vars H;
    cbn [rnn_layers_loop length] in *.
  - inv_result. lia.
  - inv_result. rewrite (IH _ _ H).
    unfold rnn_layer_body in Ha. destruct vars as [ro sts].
    inv_result. cbn [snd]. rewrite length_app. simpl. lia.
Qed.

(** The state [SingleDecodeStep] returns: one cell state per cell, the
    [misc_states] it was given, none of the optional fields. *)
Lemma SingleDecodeStep_Ok (self : AsrDecoderBase) (packed_src : PackedSrc)
    (c : TargetInfo) (s : DecoderStepState) (pad : option mat) (det : bool)
    (step_out : mat) (s1 : DecoderStepState) :
  SingleDecodeStep self packed_src c s pad det = Ok (step_out, s1) →
  length (rnn_states s1) = length rnn_cell
  ∧ misc_states s1 = misc_states s
  ∧ fusion_states s1 = None ∧ logits s1 = None ∧ step_outs s1 = None.
Proof.
  unfold SingleDecodeStep. intros H.
  apply bind_Ok in H. destruct H as (cell_0 & Hc0 & H).
  apply bind_Ok in H. destruct H as (state_0 & Hs0 & H).
  destruct (_ComputeAttention _ _ _ _ _) as [[ctx probs] ast].
  apply bind_Ok in H. destruct H as ([ro sts] & Hloop & H).
  injection H as <- <-. cbn. split; [|done].
  apply rnn_layers_loop_length in Hloop. cbn in Hloop. rewrite Hloop.
  destruct rnn_cell as [|c0 cells]; [done|]. simpl. by rewrite drop_0.
Qed.

(** ** The steps of a pass *)

Lemma bump_time_step_fields (s : DecoderStepState) :
  rnn_states (bump_time_step s) = rnn_states s
  ∧ atten_context (bump_time_step s) = atten_context s
  ∧ atten_states (bump_time_step s) = atten_states s
  ∧ fusion_states (bump_time_step s) = fusion_states s
  ∧ logits (bump_time_step s) = logits s
  ∧ step_outs (bump_time_step s) = step_outs s
  ∧ prev_predicted_ids (misc_states (bump_time_step s))
    = prev_predicted_ids (misc_states s)
  ∧ groundtruth_p (misc_states (bump_time_step s))
    = groundtruth_p (misc_states s).
Proof. done. Qed.

(** The steps all return. *)
Lemma unrolled_total (self : AsrDecoderBase) (packed_src : PackedSrc)
    (xs : list Slice) (s : DecoderStepState) (f : FusionState) :
  (0 <= dropout_prob (params self))%Q → (dropout_prob (params self) < 1)%Q →
  rnn_cell ≠ [] → length (rnn_states s) = length rnn_cell →
  ∃ recs, unrolled self packed_src s f xs = Ok recs
          ∧ length recs = length xs.
Proof.
  intros H0 H1 Hne. revert s f.
  induction xs as [|x xs IH]; intros s f Hlen; simpl.
  - by exists [].
  - destruct (FPropLm _ _ _ _) as [lm f1].
    destruct (FuseEmb _ _ _ _) as [e f2].
    destruct (SingleDecodeStep_total self packed_src (slice_target x e) s
                None false H0 H1 Hne Hlen)
      as (so & s1 & -> & Hl1 & _). simpl.
    destruct (FuseOutput _ _ _ _) as [o f3].
    destruct (IH (bump_time_step (set_fusion_states (Some f3) s1)) f3)
      as (recs & -> & Hl); [done|]. simpl.
    eexists. split; [done|]. simpl. by rewrite Hl.
Qed.

End UnrolledProperties.

Section ScanProperties.
Context `{L : Layers}.

Lemma unrolled_length (self : AsrDecoderBase) (packed_src : PackedSrc)
    (xs : list Slice) (s : DecoderStepState) (f : FusionState)
    (recs : list StepRec) :
  unrolled self packed_src s f xs = Ok recs → length recs = length xs.
Proof.
  revert s f recs. induction xs as [|x xs IH]; intros s f recs H;
    cbn [unrolled] in H.
  - by inv_result.
  - destruct (FPropLm _ _ _ _) as [lm f1].
    destruct (FuseEmb _ _ _ _) as [e f2].
    inv_result. destruct a as [so s1].
    destruct (FuseOutput _ _ _ _) as [o f3].
    inv_result. simpl. f_equal. eauto.
Qed.

(** What the fusion module computed at the steps of a pass is what its
    single-step methods compute from the decoder's step outputs and the
    softmax layer's logits. *)
Lemma unrolled_fusion (self : AsrDecoderBase) (packed_src : PackedSrc)
    (xs : list Slice) (s : DecoderStepState) (f : FusionState)
    (recs : list StepRec) :
  unrolled self packed_src s f xs = Ok recs →
  fusion_unrolled f (fusion_inputs xs recs) = fusion_outputs recs.
Proof.
  revert s f recs. induction xs as [|x xs IH]; intros s f recs H;
    cbn [unrolled] in H.
  - by inv_result.
  - destruct (FPropLm fusion f (s_id x) (s_padding x)) as [lm f1] eqn:E1.
    destruct (FuseEmb fusion f1 lm (s_emb x)) as [e f2] eqn:E2.
    inv_result. destruct a as [so s1].
    destruct (FuseOutput fusion f2 lm so) as [o f3] eqn:E3.
    inv_result.
    unfold fusion_inputs, fusion_outputs.
    cbn [zip_with fusion_unrolled fmap list_fmap fi_id fi_padding fi_emb
         fi_step_out fi_logits r_step_outs r_xent_logits r_emb r_fused_out
         r_logits].
    rewrite E1, E2, E3. f_equal. eapply IH. exact Ha0.
Qed.

(** The logits of the softmax layer are those of the fused step outputs. *)
Lemma unrolled_xent (self : AsrDecoderBase) (packed_src : PackedSrc)
    (xs : list Slice) (s : DecoderStepState) (f : FusionState)
    (recs : list StepRec) :
  unrolled self packed_src s f xs = Ok recs →
  r_xent_logits <$> recs
  = zip_with (λ x wl, softmax_FProp softmax x (Some wl.1) (Some wl.2))
      (r_fused_out <$> recs) (zip (s_weight <$> xs) (s_label <$> xs)).
Proof.
  revert s f recs. induction xs as [|x xs IH]; intros s f recs H;
    cbn [unrolled] in H.
  - by inv_result.
  - destruct (FPropLm _ _ _ _) as [lm f1].
    destruct (FuseEmb _ _ _ _) as [e f2].
    inv_result. destruct a as [so s1].
    destruct (FuseOutput _ _ _ _) as [o f3].
    inv_result. rewrite !fmap_cons. cbn [zip zip_with r_xent_logits r_fused_out fst snd].
    f_equal. eapply IH. exact Ha0.
Qed.

(** The post-step update of the function-based unroller without scheduled
    sampling: the time step moves on. *)
Lemma PostStep_functional (self : AsrDecoderBase) (s : DecoderStepState)
    (lg : option leaf) :
  use_while_loop_based_unrolling (params self) = false →
  (min_ground_truth_prob (params self) == 1)%Q →
  PostStepDecoderStateUpdate self s lg = Ok (bump_time_step s).
Proof.
  intros Hw Hm. unfold PostStepDecoderStateUpdate. rewrite Hw. simpl.
  assert (Qltb (min_ground_truth_prob (params self)) 1.0 = false) as ->.
  { apply Qltb_false. rewrite Hm. by vm_compute. }
  done.
Qed.

(** The post-step update of the graph-loop unroller without scheduled
    sampling: the logits are stored and the time step moves on. *)
Lemma PostStep_while_loop (self : AsrDecoderBase) (s : DecoderStepState)
    (lg : leaf) :
  use_while_loop_based_unrolling (params self) = true →
  Qltb 0 (_max_label_prob self) = false →
  PostStepDecoderStateUpdate self s (Some lg)
  = Ok (bump_time_step (set_logits (Some lg) s)).
Proof.
  intros Hw Hm. unfold PostStepDecoderStateUpdate. rewrite Hw. simpl.
  rewrite Hm. done.
Qed.

(** One step of the scan. *)
Lemma RnnStep_functional (self : AsrDecoderBase) (packed_src : PackedSrc)
    (c ti : TargetInfo) (s s' s1 : DecoderStepState) (so : mat) :
  dropout_inactive (params self) →
  (min_ground_truth_prob (params self) == 1)%Q →
  SingleDecodeStep self packed_src c s None false = Ok (so, s1) →
  same_core s s' → temb c = temb ti → padding c = padding ti →
  RnnStep
    (with_params (set_use_while_loop_based_unrolling false (params self))
       self) packed_src s' ti
  = Ok (bump_time_step (set_step_outs (Some so) s1)).
Proof.
  intros Hd Hm Hs Hcore He Hp. unfold RnnStep.
  rewrite (SingleDecodeStep_ext self false packed_src c ti s s' None false
             true Hd Hcore He Hp).
  rewrite Hs. cbn [mbind result_bind].
  by rewrite PostStep_functional.
Qed.

(** The scan of the function-based unroller, fed the fused embeddings, goes
    through the states of the pass. *)
Lemma unrolled_scan (self : AsrDecoderBase) (packed_src : PackedSrc)
    (xs : list Slice) (s s' : DecoderStepState) (f : FusionState)
    (recs : list StepRec) (tis : list TargetInfo) :
  let self' :=
    with_params (set_use_while_loop_based_unrolling false (params self))
      self in
  dropout_inactive (params self) →
  (min_ground_truth_prob (params self) == 1)%Q →
  unrolled self packed_src s f xs = Ok recs →
  same_core s s' →
  temb <$> tis = r_emb <$> recs →
  padding <$> tis = s_padding <$> xs →
  ∃ accs,
    Recurrent_scan (RnnStep self' packed_src) s' tis = Ok accs
    ∧ step_outs <$> accs = Some <$> (r_step_outs <$> recs)
    ∧ atten_probs <$> accs = r_atten_probs <$> recs.
Proof.
  intros self' Hd Hm. subst self'.
  revert s s' f recs tis.
  induction xs as [|x xs IH]; intros s s' f recs tis H Hcore He Hp;
    cbn [unrolled] in H.
  - inv_result. destruct tis; [|done]. by exists [].
  - destruct (FPropLm _ _ _ _) as [lm f1].
    destruct (FuseEmb _ _ _ _) as [e f2].
    inv_result. destruct a as [so s1].
    destruct (FuseOutput _ _ _ _) as [o f3].
    inv_result.
    destruct tis as [|ti tis]; [done|].
    rewrite !fmap_cons in He, Hp. cbn [r_emb] in He.
    injection He as He1 He. injection Hp as Hp1 Hp.
    cbn [Recurrent_scan].
    rewrite (RnnStep_functional self packed_src (slice_target x e) ti s s'
               s1 so Hd Hm Ha Hcore); [|done|done].
    cbn [mbind result_bind].
    destruct (IH _ (bump_time_step (set_step_outs (Some so) s1)) _ _ tis Ha0)
      as (accs & -> & Hso & Hpr); [|done|done|].
    { repeat split. }
    cbn [mbind result_bind]. eexists. split; [done|].
    rewrite !fmap_cons. cbn [r_step_outs r_atten_probs].
    rewrite Hso, Hpr. done.
Qed.

End ScanProperties.

Section LoopProperties.
Context `{L : Layers}.

(** ** The graph loop *)

(** Without scheduled sampling the target fed at a step is the slice of the
    targets. *)
Lemma TargetsToBeFed_no_sampling (self : AsrDecoderBase) (t : nat)
    (s : DecoderStepState) (tas : TargetInfoTas) (x : Slice) :
  Qltb 0 (_max_label_prob self) = false →
  tas_hold tas t [x] →
  TargetsToBeFedAtCurrentDecodeStep self t s tas
  = Ok (slice_target x (s_emb x)).
Proof.
  intros Hss Hh. destruct (Hh 0%nat x eq_refl) as (H1 & H2 & H3 & H4 & H5).
  rewrite Nat.add_0_r in *.
  unfold TargetsToBeFedAtCurrentDecodeStep.
  rewrite H1, H2, H3, H4, H5, Hss. done.
Qed.

Lemma misc_Flatten_length (m : MiscStates) :
  prev_predicted_ids m = None → groundtruth_p m = None →
  length (misc_Flatten m) = 2%nat.
Proof. intros H1 H2. unfold misc_Flatten. by rewrite H1, H2. Qed.

(** Appending the outputs of a step to the output arrays. *)
Lemma UpdateSequenceOutTensorArrays_Ok (T nf : nat)
    (o : SequenceOutTensorArrays) (recs : list StepRec) (n : nat)
    (s : DecoderStepState) (f : FusionState) (r : StepRec) :
  arrays_ok T nf o recs (S n) → (length recs + S n = T)%nat →
  length (rnn_states s) = length rnn_cell →
  logits s = Some (FloatLeaf (r_logits r)) →
  fusion_states s = Some f →
  length (fusion_Flatten fusion f) = nf →
  prev_predicted_ids (misc_states s) = None →
  groundtruth_p (misc_states s) = None →
  atten_probs s = r_atten_probs r →
  ∃ o', _UpdateSequenceOutTensorArrays s (length recs) (r_fused_out r) o
        = Ok o'
        ∧ arrays_ok T nf o' (recs ++ [r]) n.
Proof.
  intros (Hlg & Hso & Hpr & Hrl & Hrf & Hfl & Hff & Hml & Hmf) HT Hrs Hlogits
    Hfs Hnf Hprev Hgp Hap.
  unfold _UpdateSequenceOutTensorArrays.
  rewrite Hrl, Hrs, Nat.eqb_refl. cbn [py_assert mbind result_bind].
  destruct (write_each_Ok (rnn_outs o) (length recs) T
              (rnn_state_m <$> rnn_states s))
    as (ro & -> & Hro & Hrof); [by rewrite length_fmap, Hrl, Hrs | lia | done |].
  cbn [mbind result_bind]. rewrite Hlogits. cbn [getattr as_float mbind result_bind].
  destruct (ta_write_written (logits_ta o) (r_logits <$> recs) n (r_logits r)
              Hlg) as (lt & Hlt & Hltw).
  rewrite length_fmap in Hlt. rewrite Hlt. cbn [mbind result_bind].
  destruct (ta_write_written (step_outs_ta o) (r_fused_out <$> recs) n
              (r_fused_out r) Hso) as (st & Hst & Hstw).
  rewrite length_fmap in Hst. rewrite Hst. cbn [mbind result_bind].
  unfold _GetNewAttenProbs.
  destruct (ta_write_written (atten_probs_ta o) (r_atten_probs <$> recs) n
              (atten_probs s) Hpr) as (pt & Hpt & Hptw).
  rewrite length_fmap in Hpt. rewrite Hpt. cbn [mbind result_bind].
  rewrite Hfs. cbn [getattr mbind result_bind].
  destruct (write_each_Ok (fusion_ta o) (length recs) T
              (fusion_Flatten fusion f))
    as (fo & -> & Hfo & Hfof); [lia | lia | done |].
  cbn [mbind result_bind].
  destruct (write_each_Ok (misc_ta_out o) (length recs) T
              (misc_Flatten (misc_states s)))
    as (mo & -> & Hmo & Hmof);
    [by rewrite misc_Flatten_length, Hml | lia | done |].
  cbn [mbind result_bind].
  eexists. split; [done|].
  unfold arrays_ok. cbn [logits_ta step_outs_ta atten_probs_ta rnn_outs
                         fusion_ta misc_ta_out].
  rewrite !fmap_app. cbn [fmap list_fmap]. rewrite <- Hap.
  repeat split; try done; congruence.
Qed.

(** One iteration of the loop body is one step of the pass. *)
Lemma LoopBody_step (self : AsrDecoderBase) (packed_src : PackedSrc)
    (T nf : nat) (tas : TargetInfoTas) (o : SequenceOutTensorArrays)
    (recs : list StepRec) (n : nat) (s : DecoderStepState) (f : FusionState)
    (x : Slice) (xs : list Slice) (r : StepRec) (rest : list StepRec) :
  use_while_loop_based_unrolling (params self) = true →
  Qltb 0 (_max_label_prob self) = false →
  (∀ f', length (fusion_Flatten fusion f') = nf) →
  arrays_ok T nf o recs (S n) → (length recs + S n = T)%nat →
  loop_state s f →
  tas_hold tas (length recs) [x] →
  unrolled self packed_src s f (x :: xs) = Ok (r :: rest) →
  ∃ o' f',
    _LoopBody self packed_src (length recs, s, tas, o)
    = Ok (S (length recs), r_state r, tas, o')
    ∧ arrays_ok T nf o' (recs ++ [r]) n
    ∧ loop_state (r_state r) f'
    ∧ unrolled self packed_src (r_state r) f' xs = Ok rest.
Proof.
  intros Hw Hss Hnf Harr HT (Hfs & Hlg & Hrs & Hprev & Hgp) Hh H.
  cbn [unrolled] in H.
  unfold _LoopBody.
  rewrite (TargetsToBeFed_no_sampling self (length recs) s tas x Hss Hh).
  cbn [mbind result_bind]. rewrite Hfs. cbn [getattr mbind result_bind].
  cbn [slice_target id padding temb label weight].
  change (OverrideEmbedding ?c ?e) with (slice_target x e).
  destruct (FPropLm fusion f (s_id x) (s_padding x)) as [lm f1].
  destruct (FuseEmb fusion f1 lm (s_emb x)) as [e f2].
  apply bind_Ok in H. destruct H as ([so s1] & Hs & H).
  change (OverrideEmbedding _ e) with (slice_target x e).
  rewrite Hs. cbn [mbind result_bind].
  destruct (FuseOutput fusion f2 lm so) as [fo f3].
  apply bind_Ok in H. destruct H as (rest' & Hrest & H).
  injection H as <- <-.
  destruct (SingleDecodeStep_Ok _ _ _ _ _ _ _ _ Hs)
    as (Hl1 & Hm1 & Hf1 & Hlg1 & Hso1).
  rewrite PostStep_while_loop by done. cbn [mbind result_bind].
  cbn [bump_time_step set_misc_states set_logits set_fusion_states
       fusion_states logits getattr as_float mbind result_bind].
  set (xent := softmax_FProp softmax fo (Some (s_weight x))
                 (Some (s_label x))).
  set (r := {| r_emb := e; r_step_outs := so; r_fused_out := fo;
               r_xent_logits := xent;
               r_logits := ComputeLogitsWithLM fusion f3 xent false;
               r_atten_probs := atten_probs s1;
               r_state :=
                 bump_time_step (set_fusion_states (Some f3) s1) |}).
  match goal with
  | |- context [_UpdateSequenceOutTensorArrays ?st _ _ _] =>
      destruct (UpdateSequenceOutTensorArrays_Ok T nf o recs n st f3 r)
        as (o' & Ho' & Harr')
  end; try done.
  - cbn. by rewrite Hm1.
  - cbn. by rewrite Hm1.
  - change (r_fused_out r) with fo in Ho'. rewrite Ho'.
    cbn [mbind result_bind].
    exists o', f3. split; [|split; [done|split]].
    + do 3 f_equal. subst r.
      cbn [r_state bump_time_step set_misc_states set_fusion_states
           set_logits].
      cbn. f_equal.
      unfold bump_time_step, set_logits, set_misc_states, set_fusion_states.
      cbn. by rewrite Hlg1.
    + subst r. unfold loop_state. cbn. by rewrite Hm1.
    + done.
Qed.

Lemma tas_hold_cons (tas : TargetInfoTas) (t : nat) (x : Slice)
    (xs : list Slice) :
  tas_hold tas t (x :: xs) → tas_hold tas t [x] ∧ tas_hold tas (S t) xs.
Proof.
  intros H. split.
  - intros [|k] y Hy; [|done]. apply H. done.
  - intros k y Hy. replace (S t + k)%nat with (t + S k)%nat by lia.
    apply H. done.
Qed.

(** The graph loop runs the steps of the pass, in order, and fills the
    output arrays with what they compute; the fuel it is given is enough. *)
Lemma while_loop_unrolled (self : AsrDecoderBase) (packed_src : PackedSrc)
    (T nf : nat) (tas : TargetInfoTas) (xs : list Slice) :
  use_while_loop_based_unrolling (params self) = true →
  Qltb 0 (_max_label_prob self) = false →
  (∀ f', length (fusion_Flatten fusion f') = nf) →
  ∀ (recs : list StepRec) (o : SequenceOutTensorArrays)
    (s : DecoderStepState) (f : FusionState) (rest : list StepRec),
    arrays_ok T nf o recs (length xs) → (length recs + length xs = T)%nat →
    loop_state s f →
    tas_hold tas (length recs) xs →
    unrolled self packed_src s f xs = Ok rest →
    ∃ s' o',
      tf_while_loop (length xs) (_LoopContinue T) (_LoopBody self packed_src)
        (length recs, s, tas, o) = Ok (T, s', tas, o')
      ∧ arrays_ok T nf o' (recs ++ rest) 0.
Proof.
  intros Hw Hss Hnf.
  induction xs as [|x xs IH]; intros recs o s f rest Harr HT Hst Hh Hun.
  - cbn [unrolled] in Hun. injection Hun as <-.
    cbn [length] in *. cbn [tf_while_loop _LoopContinue].
    rewrite Nat.add_0_r in HT. subst T. rewrite Nat.ltb_irrefl.
    exists s, o. by rewrite app_nil_r.
  - cbn [length] in *.
    destruct (tas_hold_cons _ _ _ _ Hh) as [Hh1 Hh2].
    destruct rest as [|r rest].
    { apply unrolled_length in Hun. done. }
    destruct (LoopBody_step self packed_src T nf tas o recs (length xs) s f x
                xs r rest Hw Hss Hnf Harr HT Hst Hh1 Hun)
      as (o1 & f1 & Hbody & Harr1 & Hst1 & Hun1).
    cbn [tf_while_loop _LoopContinue].
    assert ((length recs <? T)%nat = true) as -> by (apply Nat.ltb_lt; lia).
    rewrite Hbody. cbn [mbind result_bind].
    assert (S (length recs) = length (recs ++ [r])) as Hlen
      by (rewrite length_app; simpl; lia).
    rewrite Hlen.
    destruct (IH (recs ++ [r]) o1 (r_state r) f1 rest) as (s' & o' & Hloop & Ho');
      try done.
    + rewrite <- Hlen. lia.
    + by rewrite <- Hlen.
    + exists s', o'. split; [done|]. by rewrite <- (assoc_L (++)) in Ho'.
Qed.

End LoopProperties.

Section PassProperties.
Context `{L : Layers}.

(** ** The time slices of the targets *)

Lemma fmap_lookup_total_seq {A} `{Inhabited A} (l : list A) (n : nat) :
  length l = n → (λ t, l !!! t) <$> seq 0 n = l.
Proof.
  intros <-. apply list_eq. intros i. rewrite list_lookup_fmap.
  destruct (decide (i < length l)%nat) as [Hi|Hi].
  - rewrite lookup_seq_lt by done. simpl.
    symmetry. by apply list_lookup_lookup_total_lt.
  - rewrite lookup_seq_ge by lia. simpl.
    symmetry. apply lookup_ge_None_2. lia.
Qed.

Section Slices.
Variables (I Lb : list (list Z)) (W : list (list Q)) (E P : list mat).
Variable T : nat.
Hypothesis HI : length I = T.
Hypothesis HL : length Lb = T.
Hypothesis HW : length W = T.
Hypothesis HE : length E = T.
Hypothesis HP : length P = T.

Lemma length_slices : length (slices I Lb W E P) = T.
Proof. unfold slices. by rewrite length_fmap, length_seq. Qed.

Lemma slices_id : s_id <$> slices I Lb W E P = I.
Proof.
  unfold slices. rewrite <- list_fmap_compose.
  by apply (fmap_lookup_total_seq I).
Qed.

Lemma slices_label : s_label <$> slices I Lb W E P = Lb.
Proof.
  unfold slices. rewrite <- list_fmap_compose, HI, <- HL.
  by apply (fmap_lookup_total_seq Lb).
Qed.

Lemma slices_weight : s_weight <$> slices I Lb W E P = W.
Proof.
  unfold slices. rewrite <- list_fmap_compose, HI, <- HW.
  by apply (fmap_lookup_total_seq W).
Qed.

Lemma slices_emb : s_emb <$> slices I Lb W E P = E.
Proof.
  unfold slices. rewrite <- list_fmap_compose, HI, <- HE.
  by apply (fmap_lookup_total_seq E).
Qed.

Lemma slices_padding : s_padding <$> slices I Lb W E P = P.
Proof.
  unfold slices. rewrite <- list_fmap_compose, HI, <- HP.
  by apply (fmap_lookup_total_seq P).
Qed.

(** The arrays unstacked from the time-major targets hold the slices. *)
Lemma tas_hold_slices (aux : gmap string AuxTensor) :
  tas_hold
    {| id_ta := Some <$> I; label_ta := Some <$> Lb; weight_ta := Some <$> W;
       emb_ta := Some <$> E; padding_ta := Some <$> P; misc_ta := aux |}
    0 (slices I Lb W E P).
Proof.
  intros k x Hx. unfold slices in Hx.
  rewrite list_lookup_fmap in Hx.
  destruct (seq 0 (length I) !! k) as [t|] eqn:Ht; [|done].
  apply lookup_seq in Ht as [-> Hk]. simpl in Hx. injection Hx as <-.
  cbn [s_id s_label s_weight s_emb s_padding id_ta label_ta weight_ta emb_ta
       padding_ta].
  repeat split; apply ta_read_Some, list_lookup_lookup_total_lt; lia.
Qed.

End Slices.

(** The time-major targets all have the length of the target sequences. *)
Lemma time_major_lengths (targets : Targets) :
  wf_targets targets →
  let T := length (default [] (head (ids targets))) in
  length (tf_transpose (ids targets)) = T
  ∧ length (tf_transpose (labels targets)) = T
  ∧ length (tf_transpose (weights targets)) = T
  ∧ length (tf_transpose (EmbLookup_targets (ids targets))) = T
  ∧ length ((λ row : list Q, (λ x, [x]) <$> row)
              <$> tf_transpose (paddings targets)) = T.
Proof.
  intros (Hl & Hw & Hp & Hri & Hrl & Hrw & Hrp) T.
  assert (length (ids targets) = 0%nat → T = 0%nat) as Hz.
  { subst T. by destruct (ids targets). }
  rewrite length_fmap, !length_tf_transpose.
  split; [done|].
  split; [by eapply length_head_rows|].
  split; [by eapply length_head_rows|].
  split; [|by eapply length_head_rows].
  subst T. unfold EmbLookup_targets.
  destruct (ids targets); simpl; [done | by rewrite length_fmap].
Qed.

Lemma length_time_slices (targets : Targets) :
  wf_targets targets →
  length (time_slices targets) = length (default [] (head (ids targets))).
Proof.
  intros Hwf. destruct (time_major_lengths targets Hwf) as (H1 & _).
  unfold time_slices, slices. by rewrite length_fmap, length_seq.
Qed.

(** ** The zero state *)

(** Without scheduled sampling the zero state is built whenever there is a
    cell for every layer; it is a state of the graph loop. *)
Lemma DecoderStepZeroState_Ok (self : AsrDecoderBase) (gstep : Z)
    (source_encs : list mat) (source_paddings : mat)
    (target_ids : list (list Z)) (bs : nat) :
  Qltb 0 (_max_label_prob self) = false →
  rnn_layers (params self) = length rnn_cell →
  ∃ s0 packed_src,
    DecoderStepZeroState self gstep source_encs source_paddings target_ids bs
    = Ok (s0, packed_src)
    ∧ loop_state s0 (fusion_zero_state fusion bs)
    ∧ step_outs s0 = None.
Proof.
  intros Hss Hl. unfold DecoderStepZeroState, MiscZeroState.
  rewrite Hss. cbn [mbind result_bind]. unfold BaseZeroState.
  destruct (mapM_result_Ok
              (λ i, cell ← py_index rnn_cell i; Ok (rnn_zero_state cell bs))
              (seq 0 (rnn_layers (params self)))) as (sts & -> & Hsts).
  { intros i Hi. apply elem_of_seq in Hi.
    destruct (lookup_lt_is_Some_2 rnn_cell i) as [c Hc]; [lia|].
    unfold py_index. rewrite Hc. simpl. eauto. }
  cbn [mbind result_bind].
  destruct (ComputeContextVectorWithSource _ _ _ _ _ _) as [[ctx probs] ast].
  cbn [mbind result_bind]. eexists _, _. split; [done|].
  unfold loop_state. cbn. rewrite Hsts, length_seq. done.
Qed.

End PassProperties.

Section DynamicPass.
Context `{L : Layers}.

(** ** The graph-loop unroller *)

Lemma initial_arrays_ok (self : AsrDecoderBase) (T : nat)
    (fusion_flat misc_flat : list leaf) :
  rnn_layers (params self) = length rnn_cell → length misc_flat = 2%nat →
  arrays_ok T (length fusion_flat)
    (_GetInitialSeqStateTensorArrays self T fusion_flat misc_flat) [] T.
Proof.
  intros Hl Hm. unfold arrays_ok, _GetInitialSeqStateTensorArrays.
  cbn [logits_ta step_outs_ta atten_probs_ta rnn_outs fusion_ta misc_ta_out].
  rewrite !length_fmap, length_seq.
  repeat split; try done.
  all: apply Forall_fmap, Forall_forall; intros; simpl;
    apply length_replicate.
Qed.

(** Without scheduled sampling and without dropout, the graph-loop unroller
    returns the adjusted logits of the steps of the pass, batch-major. *)
Lemma ComputePredictionsDynamic_unrolled (self : AsrDecoderBase) (gstep : Z)
    (source_encs : list mat) (source_paddings : mat) (targets : Targets) :
  use_while_loop_based_unrolling (params self) = true →
  Qltb 0 (_max_label_prob self) = false →
  dropout_inactive (params self) →
  rnn_layers (params self) = length rnn_cell → rnn_cell ≠ [] →
  wf_targets targets → fusion_flat_static →
  ∃ s0 packed_src recs,
    DecoderStepZeroState self gstep source_encs source_paddings
      (ids targets) (length (ids targets)) = Ok (s0, packed_src)
    ∧ unrolled self packed_src s0
        (fusion_zero_state fusion (length (ids targets)))
        (time_slices targets) = Ok recs
    ∧ ComputePredictionsDynamic self gstep source_encs source_paddings targets
      = Ok {| predictions_logits := tf_transpose (r_logits <$> recs);
              predictions_logits_without_bias := None;
              predictions_attention_probs :=
                tf_transpose (r_atten_probs <$> recs);
              predictions_source_enc_len := None |}.
Proof.
  intros Hw Hss (H0 & H1 & Hin) Hl Hne Hwf Hflat.
  destruct (DecoderStepZeroState_Ok self gstep source_encs source_paddings
              (ids targets) (length (ids targets)) Hss Hl)
    as (s0 & packed_src & Hzero & Hst0 & _).
  destruct Hst0 as (Hfs0 & Hlg0 & Hrs0 & Hprev0 & Hgp0).
  destruct (unrolled_total self packed_src (time_slices targets) s0
              (fusion_zero_state fusion (length (ids targets))) H0 H1 Hne
              Hrs0) as (recs & Hun & Hlen).
  exists s0, packed_src, recs. split; [done|]. split; [done|].
  destruct (time_major_lengths targets Hwf) as (HI & HL & HW & HE & HP).
  set (T := length (default [] (head (ids targets)))) in *.
  unfold ComputePredictionsDynamic. fold T.
  rewrite ApplyDropout_inactive by done. cbn [mbind result_bind].
  unfold _GetInitialTargetInfo.
  rewrite !ToTensorArray_Ok by done. cbn [mbind result_bind].
  rewrite Hzero. cbn [mbind result_bind]. rewrite Hfs0.
  cbn [getattr mbind result_bind].
  set (nf := length (fusion_Flatten fusion
                       (fusion_zero_state fusion (length (ids targets))))).
  pose proof (initial_arrays_ok self T
                (fusion_Flatten fusion
                   (fusion_zero_state fusion (length (ids targets))))
                (misc_Flatten (misc_states s0)) Hl
                (misc_Flatten_length _ Hprev0 Hgp0)) as Harr.
  fold nf in Harr.
  assert (length (time_slices targets) = T) as HT
    by by apply length_time_slices.
  assert (arrays_ok T nf
            (_GetInitialSeqStateTensorArrays self T
               (fusion_Flatten fusion
                  (fusion_zero_state fusion (length (ids targets))))
               (misc_Flatten (misc_states s0)))
            [] (length (time_slices targets))) as Harr'
    by (rewrite HT; exact Harr).
  destruct (while_loop_unrolled self packed_src T nf
              {| id_ta := Some <$> tf_transpose (ids targets);
                 label_ta := Some <$> tf_transpose (labels targets);
                 weight_ta := Some <$> tf_transpose (weights targets);
                 emb_ta :=
                   Some <$> tf_transpose (EmbLookup_targets (ids targets));
                 padding_ta :=
                   Some <$> ((λ row : list Q, (λ x, [x]) <$> row)
                               <$> tf_transpose (paddings targets));
                 misc_ta := CreateTargetInfoMisc targets |}
              (time_slices targets) Hw Hss
              (λ f', Hflat f'
                       (fusion_zero_state fusion (length (ids targets))))
              [] _ s0 (fusion_zero_state fusion (length (ids targets))) recs
              Harr')
    as (s' & o' & Hloop & Ho').
  { simpl. lia. }
  { done. }
  { by apply (tas_hold_slices _ _ _ _ _ T). }
  { done. }
  rewrite HT in Hloop. cbn [length] in Hloop. rewrite Hloop.
  cbn [mbind result_bind].
  destruct Ho' as (Hlg & Hso & Hpr & _). rewrite app_nil_l in *.
  rewrite (written_stack _ _ Hso). cbn [mbind result_bind].
  unfold _GetPredictionFromSequenceOutTensorArrays.
  rewrite (written_stack _ _ Hlg), (written_stack _ _ Hpr).
  done.
Qed.

End DynamicPass.

Section FunctionalPass.
Context `{L : Layers}.

(** ** The function-based unroller *)

Lemma fusion_inputs_fields (xs : list Slice) (recs : list StepRec) :
  length recs = length xs →
  fi_id <$> fusion_inputs xs recs = s_id <$> xs
  ∧ fi_padding <$> fusion_inputs xs recs = s_padding <$> xs
  ∧ fi_emb <$> fusion_inputs xs recs = s_emb <$> xs
  ∧ fi_step_out <$> fusion_inputs xs recs = r_step_outs <$> recs
  ∧ fi_logits <$> fusion_inputs xs recs = r_xent_logits <$> recs.
Proof.
  revert recs. induction xs as [|x xs IH]; intros [|r recs] Hl;
    try discriminate; [done|].
  injection Hl as Hl. destruct (IH recs Hl) as (H1 & H2 & H3 & H4 & H5).
  unfold fusion_inputs in *. cbn [zip_with]. rewrite !fmap_cons.
  cbn [fi_id fi_padding fi_emb fi_step_out fi_logits].
  by rewrite H1, H2, H3, H4, H5.
Qed.

Lemma fusion_outputs_fields (recs : list StepRec) :
  fo_emb <$> fusion_outputs recs = r_emb <$> recs
  ∧ fo_step_out <$> fusion_outputs recs = r_fused_out <$> recs
  ∧ fo_logits <$> fusion_outputs recs = r_logits <$> recs.
Proof.
  unfold fusion_outputs. by rewrite <- !list_fmap_compose.
Qed.

Lemma mapM_getattr {A B} (attr : string) (f : A → option B) (l : list A)
    (ys : list B) :
  f <$> l = Some <$> ys → mapM (λ x, getattr attr (f x)) l = Ok ys.
Proof.
  revert ys. induction l as [|x l IH]; intros [|y ys] H; try discriminate;
    [done|].
  rewrite !fmap_cons in H. injection H as Hx H.
  cbn [mapM]. rewrite Hx. cbn [getattr mbind result_bind].
  by rewrite (IH ys H).
Qed.

(** The slices the scan takes of its inputs. *)
Lemma inputs_slices (inputs : Inputs) (T : nat) :
  length (inputs_emb inputs) = T → length (inputs_id inputs) = T →
  length (inputs_label inputs) = T → length (inputs_weight inputs) = T →
  length (inputs_padding inputs) = T →
  ∃ tis,
    mapM (inputs_at inputs) (seq 0 (length (inputs_emb inputs))) = Ok tis
    ∧ temb <$> tis = inputs_emb inputs
    ∧ padding <$> tis = inputs_padding inputs.
Proof.
  intros HE HI HL HW HP.
  exists ((λ t, {| id := inputs_id inputs !!! t;
                   label := Some (inputs_label inputs !!! t);
                   weight := Some (inputs_weight inputs !!! t);
                   temb := inputs_emb inputs !!! t;
                   padding := inputs_padding inputs !!! t;
                   misc := (λ x, aux_time_slice x t) <$> inputs_misc inputs |})
            <$> seq 0 (length (inputs_emb inputs))).
  split; [|split].
  - apply mapM_result_fmap. intros t Ht. apply elem_of_seq in Ht.
    unfold inputs_at, py_index.
    rewrite !list_lookup_lookup_total_lt by lia. done.
  - rewrite <- list_fmap_compose.
    by apply (fmap_lookup_total_seq (inputs_emb inputs)).
  - rewrite <- list_fmap_compose, HE, <- HP.
    by apply (fmap_lookup_total_seq (inputs_padding inputs)).
Qed.

(** Without scheduled sampling and without dropout, with the attention
    context fed to the softmax layer, a softmax layer that works step by
    step and a fusion module whose whole-sequence methods agree with its
    single-step ones, the function-based unroller returns the adjusted
    logits of the steps of the pass, batch-major. *)
Lemma ComputePredictionsFunctional_unrolled (self : AsrDecoderBase)
    (gstep : Z) (source_encs : list mat) (source_paddings : mat)
    (targets : Targets) (s0 : DecoderStepState) (packed_src : PackedSrc)
    (recs : list StepRec) :
  let self' :=
    with_params (set_use_while_loop_based_unrolling false (params self))
      self in
  let f0 := fusion_zero_state fusion (length (ids targets)) in
  dropout_inactive (params self) →
  (min_ground_truth_prob (params self) == 1)%Q →
  softmax_uses_attention (params self) = true →
  wf_targets targets → softmax_timewise → fusion_seq_agrees →
  DecoderStepZeroState self gstep source_encs source_paddings (ids targets)
    (length (ids targets)) = Ok (s0, packed_src) →
  fusion_states s0 = Some f0 →
  unrolled self packed_src s0 f0 (time_slices targets) = Ok recs →
  ∃ without_bias,
    ComputePredictionsFunctional self' gstep source_encs source_paddings
      targets
    = Ok {| predictions_logits := tf_transpose (r_logits <$> recs);
            predictions_logits_without_bias := Some without_bias;
            predictions_attention_probs :=
              tf_transpose (r_atten_probs <$> recs);
            predictions_source_enc_len := None |}.
Proof.
  intros self' f0 Hd Hm Hsua Hwf Hsoft Hfus Hzero Hfs0 Hun.
  pose proof Hd as (H0 & H1 & Hin).
  destruct (time_major_lengths targets Hwf) as (HI & HL & HW & HE & HP).
  set (T := length (default [] (head (ids targets)))) in *.
  pose proof (unrolled_length _ _ _ _ _ _ Hun) as Hlen.
  pose proof (length_time_slices targets Hwf) as HT. fold T in HT.
  destruct (fusion_inputs_fields (time_slices targets) recs Hlen)
    as (Hfi1 & Hfi2 & Hfi3 & Hfi4 & Hfi5).
  destruct (fusion_outputs_fields recs) as (Hfo1 & Hfo2 & Hfo3).
  pose proof (unrolled_fusion _ _ _ _ _ _ Hun) as Hfu.
  pose proof (unrolled_xent _ _ _ _ _ _ Hun) as Hxe.
  assert (s_id <$> time_slices targets = tf_transpose (ids targets)) as Hs1
    by apply slices_id.
  assert (s_padding <$> time_slices targets
          = (λ row : list Q, (λ x, [x]) <$> row)
              <$> tf_transpose (paddings targets)) as Hs2
    by by apply (slices_padding _ _ _ _ _ T).
  assert (s_emb <$> time_slices targets
          = tf_transpose (EmbLookup_targets (ids targets))) as Hs3
    by by apply (slices_emb _ _ _ _ _ T).
  assert (s_weight <$> time_slices targets = tf_transpose (weights targets))
    as Hs4 by by apply (slices_weight _ _ _ _ _ T).
  assert (s_label <$> time_slices targets = tf_transpose (labels targets))
    as Hs5 by by apply (slices_label _ _ _ _ _ T).
  rewrite Hs1 in Hfi1. rewrite Hs2 in Hfi2. rewrite Hs3 in Hfi3.
  rewrite Hs4, Hs5 in Hxe.
  pose proof (Hfus f0 (CreateTargetInfoMisc targets)
                (fusion_inputs (time_slices targets) recs)) as Hc.
  rewrite Hfi1, Hfi2, Hfi3, Hfi4, Hfi5, Hfu, Hfo1, Hfo2, Hfo3 in Hc.
  unfold ComputePredictionsFunctional.
  assert (Qeqb (min_ground_truth_prob (params self')) 1.0 = true) as ->.
  { apply Qeqb_true. subst self'. cbn. rewrite Hm. reflexivity. }
  cbn [py_assert mbind result_bind].
  change (DecoderStepZeroState self') with (DecoderStepZeroState self).
  rewrite Hzero. cbn [mbind result_bind].
  rewrite ApplyDropout_inactive by done. cbn [mbind result_bind].
  cbn [set_step_outs fusion_states getattr]. rewrite Hfs0.
  cbn [getattr mbind result_bind inputs_id inputs_padding inputs_misc
       inputs_emb inputs_weight inputs_label].
  fold f0.
  destruct (FPropLm_seq fusion f0 _ _ _) as [lm f1].
  destruct (FuseEmb_seq fusion f1 lm _) as [fused_emb f2].
  destruct (FuseOutput_seq fusion f2 lm (r_step_outs <$> recs))
    as [fused_out f3] eqn:Hfo.
  destruct Hc as (Hc1 & Hc2 & Hc3). subst fused_emb fused_out.
  unfold Recurrent.
  match goal with
  | |- context [mapM (inputs_at ?inp) _] =>
      destruct (inputs_slices inp T) as (tis & Htis & Hte & Hpa)
  end; cbn [inputs_id inputs_padding inputs_misc inputs_emb inputs_weight
            inputs_label]; try done.
  { rewrite length_fmap. lia. }
  cbn [inputs_id inputs_padding inputs_misc inputs_emb inputs_weight
       inputs_label] in Htis, Hte, Hpa.
  rewrite Htis. cbn [mbind result_bind].
  destruct (unrolled_scan self packed_src (time_slices targets) s0
              (set_fusion_states None
                 (set_fusion_states (Some f2)
                    (set_step_outs
                       (Some (tf_zeros (length (ids targets))
                                (rnn_cell_dim (params self')
                                 + _GetAttenContextDim (params self'))))
                       s0)))
              f0 recs tis Hd Hm Hun)
    as (accs & Hscan & Hso & Hpr).
  { repeat split. }
  { done. }
  { by rewrite Hpa, Hs2. }
  fold self' in Hscan. rewrite Hscan. cbn [mbind result_bind].
  rewrite (mapM_getattr _ _ _ _ Hso). cbn [mbind result_bind].
  assert (softmax_uses_attention (params self') = true) as -> by done.
  cbn [negb]. rewrite Hfo.
  rewrite Hsoft by (rewrite ?length_fmap; lia).
  rewrite <- Hxe, Hc3, Hpr.
  eexists. done.
Qed.

End FunctionalPass.

Section Unrollers.
Context `{L : Layers}.

(** ** The two unrollers *)

(** [__init__] does not read the unrolling flag. *)
Lemma init_set_flag (p : ParamsT) (self : AsrDecoderBase) (b : bool) :
  __init__ p = Ok self →
  __init__ (set_use_while_loop_based_unrolling b p)
  = Ok (with_params (set_use_while_loop_based_unrolling b p) self).
Proof.
  unfold __init__.
  change (_GetAttenContextDim (set_use_while_loop_based_unrolling b p))
    with (_GetAttenContextDim p).
  cbn [set_use_while_loop_based_unrolling set_flags packed_input
       min_ground_truth_prob min_prob_step prob_decay_start_step random_seed
       name label_smoothing softmax_uses_attention rnn_cell_dim
       softmax_num_classes].
  destruct (py_assert (negb (packed_input p)) _); cbn [mbind result_bind];
    [|done].
  destruct (Qle_bool _ 0); [done|].
  destruct (py_assert (0 <? _GetAttenContextDim p)%nat _);
    cbn [mbind result_bind]; [|done].
  destruct (label_smoothing p) as [ls|]; cbn [mbind result_bind].
  - destruct (num_classes ls =? 0)%nat; cbn [mbind result_bind];
      [by intros [= <-]|].
    destruct (negb _); cbn [mbind result_bind]; [done | by intros [= <-]].
  - by intros [= <-].
Qed.

(** C1, as the code has it. With scheduled sampling off
    ([min_ground_truth_prob = 1]), dropout off (evaluation mode or
    probability 0), the attention context fed to the softmax layer, one cell
    per layer, target tensors of one shape, a softmax layer that computes
    the logits of a sequence step by step and a fusion module whose
    whole-sequence methods return at each step what its single-step methods
    return when threaded through the steps: the graph-loop unroller and the
    function-based unroller both return, and return the same logits and the
    same attention probabilities, in exact arithmetic. *)
Theorem unrollers_agree (p : ParamsT) (self : AsrDecoderBase) (gstep : Z)
    (source_encs : list mat) (source_paddings : mat) (targets : Targets) :
  let graph_loop :=
    with_params (set_use_while_loop_based_unrolling true p) self in
  let functional :=
    with_params (set_use_while_loop_based_unrolling false p) self in
  __init__ p = Ok self →
  (min_ground_truth_prob p == 1)%Q →
  dropout_inactive p →
  softmax_uses_attention p = true →
  rnn_layers p = length rnn_cell → rnn_cell ≠ [] →
  wf_targets targets →
  softmax_timewise → fusion_seq_agrees → fusion_flat_static →
  __init__ (set_use_while_loop_based_unrolling true p) = Ok graph_loop
  ∧ __init__ (set_use_while_loop_based_unrolling false p) = Ok functional
  ∧ ∃ dyn fn,
      ComputePredictions graph_loop gstep source_encs source_paddings targets
        = Ok dyn
      ∧ ComputePredictions functional gstep source_encs source_paddings
          targets = Ok fn
      ∧ predictions_logits dyn = predictions_logits fn
      ∧ predictions_attention_probs dyn = predictions_attention_probs fn.
Proof.
  intros graph_loop functional Hinit Hm Hd Hsua Hl Hne Hwf Hsoft Hfus Hflat.
  split; [by apply init_set_flag|]. split; [by apply init_set_flag|].
  destruct (init_Ok _ _ Hinit) as (Hp & Hmax & _).
  assert (Qltb 0 (_max_label_prob graph_loop) = false) as Hss.
  { apply Qltb_false. subst graph_loop. cbn. rewrite Hmax, Hm. by vm_compute. }
  destruct (ComputePredictionsDynamic_unrolled graph_loop gstep source_encs
              source_paddings targets)
    as (s0 & packed_src & recs & Hzero & Hun & Hdyn); try done.
  destruct (DecoderStepZeroState_Ok graph_loop gstep source_encs
              source_paddings (ids targets) (length (ids targets)) Hss Hl)
    as (s0' & packed_src' & Hzero' & (Hfs0 & _) & _).
  rewrite Hzero in Hzero'. injection Hzero' as <- <-.
  destruct (ComputePredictionsFunctional_unrolled graph_loop gstep
              source_encs source_paddings targets s0 packed_src recs)
    as (without_bias & Hfn); try done.
  change (with_params
            (set_use_while_loop_based_unrolling false (params graph_loop))
            graph_loop) with functional in Hfn.
  eexists _, _. unfold ComputePredictions.
  change (use_while_loop_based_unrolling (params graph_loop)) with true.
  change (use_while_loop_based_unrolling (params functional)) with false.
  cbn [negb]. rewrite Hdyn, Hfn. cbn [mbind result_bind].
  split; [done|]. split; [done|]. done.
Qed.

End Unrollers.

(** ** The concrete layers *)

Lemma toy_softmax_timewise (cells : list (RNNCell mat))
    (att : Attention unit unit) (u : Q) :
  softmax_timewise (L := Toy.layers cells att u).
Proof.
  intros xs. induction xs as [|x xs IH]; intros [|w ws] [|l ls] Hw Hl;
    try discriminate; [done|].
  cbn in *. f_equal. apply (IH ws ls); congruence.
Qed.

Lemma toy_fusion_seq_agrees (cells : list (RNNCell mat))
    (att : Attention unit unit) (u : Q) :
  fusion_seq_agrees (L := Toy.layers cells att u).
Proof.
  intros f aux xs. cbn.
  induction xs as [|x xs (IH1 & IH2 & IH3)]; [done|].
  cbn in *. by rewrite IH1, IH2, IH3.
Qed.

Lemma toy_fusion_flat_static (cells : list (RNNCell mat))
    (att : Attention unit unit) (u : Q) :
  fusion_flat_static (L := Toy.layers cells att u).
Proof. done. Qed.

(** * Further properties of the decoder *)

Lemma mapM_result_inv {A B} (f : A → result B) (l : list A) (ys : list B) :
  mapM f l = Ok ys → Forall2 (λ x y, f x = Ok y) l ys.
Proof.
  revert ys. induction l as [|x l IH]; intros ys Hm; simpl in Hm;
    unfold mret, result_ret in Hm.
  - inv_result. constructor.
  - inv_result. constructor; [done | by apply IH].
Qed.

Section BaseExtras.
Context `{L : Layers}.

(** ** Construction *)

(** X1 — what [__init__] has checked when it returns.  A decoder is
    returned only for input that is not packed, with
    [prob_decay_start_step] below [min_prob_step], an attention context of
    positive dimension and a label smoothing that, if there is one, has zero
    classes or as many as the softmax.  In the decoder returned the softmax
    input has the dimension of the cell, plus that of the context when the
    softmax uses attention, and the smoother always has the softmax's
    number of classes.  (The constructors of the base class and of the
    child layers are outside this file: they can only add reasons not to
    return.) *)
Theorem init_returns_only_if (p : ParamsT) (self : AsrDecoderBase) :
  __init__ p = Ok self →
  packed_input p = false
  ∧ (prob_decay_start_step p < min_prob_step p)%Q
  ∧ (0 < _GetAttenContextDim p)%nat
  ∧ (∀ ls, label_smoothing p = Some ls →
       num_classes ls = 0%nat ∨ num_classes ls = softmax_num_classes p)
  ∧ softmax_input_dim self
    = (if softmax_uses_attention p
       then rnn_cell_dim p + _GetAttenContextDim p
       else rnn_cell_dim p)%nat
  ∧ (∀ ls, label_smoothing p = Some ls →
       smoother_num_classes self = Some (softmax_num_classes p))
  ∧ (label_smoothing p = None → smoother_num_classes self = None).
Proof.
  unfold __init__. intros H.
  apply bind_Ok in H. destruct H as ([] & Hpk & H).
  apply py_assert_Ok, negb_true_iff in Hpk.
  destruct (Qle_bool (min_prob_step p - prob_decay_start_step p) 0) eqn:Hd;
    [done|].
  apply Qle_bool_false in Hd.
  apply bind_Ok in H. destruct H as ([] & Hc & H).
  apply py_assert_Ok, Nat.ltb_lt in Hc.
  apply bind_Ok in H. destruct H as (sm & Hsm & H).
  injection H as <-. cbn [softmax_input_dim smoother_num_classes].
  split; [done|]. split; [lra|]. split; [done|].
  destruct (label_smoothing p) as [ls|]; [|by inv_result].
  destruct (num_classes ls =? 0)%nat eqn:Hz.
  { apply Nat.eqb_eq in Hz. inv_result.
    split; [intros ? [= <-]; by left|]. split; [done|]. split; [|done].
    by intros. }
  destruct (num_classes ls =? softmax_num_classes p)%nat eqn:He;
    cbn [negb] in Hsm; [|done].
  apply Nat.eqb_eq in He. inv_result.
  split; [intros ? [= <-]; by right|]. split; [done|]. split; [|done].
  intros ? _. by rewrite He.
Qed.

(** ** Dropout *)

(** X3 — [_ApplyDropout] raises exactly when [dropout_prob] is outside
    [0, 1) (evaluation mode does not skip that assertion) or when dropout
    is active and deterministic and no step state is given; what it raises
    is an [AssertionError].  In range and inactive (evaluation mode or
    probability 0) it returns its input. *)
Theorem ApplyDropout_raises_iff {A} `{DropoutOps A} (self : AsrDecoderBase)
    (x : A) (deterministic : bool) (extra_seed : option Z)
    (step_state : option StepState) :
  let p := params self in
  let in_range := (0 <= dropout_prob p)%Q ∧ (dropout_prob p < 1)%Q in
  let active := is_eval p = false ∧ ¬ (dropout_prob p == 0)%Q in
  ((∃ e, _ApplyDropout self x deterministic extra_seed step_state = Raise e)
   ↔ ¬ in_range ∨ (active ∧ deterministic = true ∧ step_state = None))
  ∧ (∀ e, _ApplyDropout self x deterministic extra_seed step_state = Raise e →
       e = AssertionError "")
  ∧ (in_range → ¬ active →
     _ApplyDropout self x deterministic extra_seed step_state = Ok x).
Proof.
  intros p in_range active. subst p in_range active. unfold _ApplyDropout.
  destruct (Qle_bool 0 (dropout_prob (params self))) eqn:H0;
    [apply Qle_bool_iff in H0 | apply Qle_bool_false in H0].
  2:{ cbn [andb py_assert mbind result_bind].
      split; [split; [intros _; left; intros [? ?]; lra | eauto]|].
      split; [by intros e [= <-] | intros [? ?]; lra]. }
  destruct (Qltb (dropout_prob (params self)) 1.0) eqn:H1;
    [apply Qltb_true in H1 | apply Qltb_false in H1].
  2:{ cbn [andb py_assert mbind result_bind].
      split; [split; [intros _; left; intros [? ?]; lra | eauto]|].
      split; [by intros e [= <-] | intros [? ?]; lra]. }
  cbn [andb py_assert mbind result_bind].
  destruct (is_eval (params self)) eqn:He; cbn [orb].
  { split; [split; [intros [? ?]; done|]|].
    - intros [Hn | ((? & _) & _)]; [|done]. destruct Hn. split; lra.
    - split; [done | done]. }
  destruct (Qeqb (dropout_prob (params self)) 0.0) eqn:Hz.
  { apply Qeqb_true in Hz.
    split; [split; [intros [? ?]; done|]|].
    - intros [Hn | ((_ & Hnz) & _)]; [destruct Hn; split; lra|].
      destruct Hnz. rewrite Hz. reflexivity.
    - split; [done | done]. }
  assert (¬ (dropout_prob (params self) == 0)%Q) as Hnz.
  { intros Hq. apply not_true_iff_false in Hz. apply Hz, Qeqb_true.
    rewrite Hq. reflexivity. }
  destruct deterministic.
  - destruct step_state as [ss|].
    + split; [split; [intros [? ?]; done|]|].
      * intros [Hn | (_ & _ & ?)]; [destruct Hn; split; lra | done].
      * split; [done|]. intros _ Hna. destruct Hna. done.
    + split; [split; [intros _; right; done | eauto]|].
      split; [by intros e [= <-]|]. intros _ Hna. destruct Hna. done.
  - split; [split; [intros [? ?]; done|]|].
    + intros [Hn | (_ & ? & _)]; [destruct Hn; split; lra | done].
    + split; [done|]. intros _ Hna. destruct Hna. done.
Qed.

(** ** Scheduled sampling *)

(** X4 — the schedule in closed form.  Between [prob_decay_start_step] and
    [min_prob_step] the ground-truth probability falls linearly from 1 to
    [min_ground_truth_prob]; from [min_prob_step] on it is
    [min_ground_truth_prob]. *)
Theorem groundtruth_p_piecewise (p : ParamsT) (self : AsrDecoderBase)
    (gstep : Z) (target_ids : list (list Z)) (bs : nat) (m : MiscStates)
    (g : Q) :
  __init__ p = Ok self →
  (min_ground_truth_prob p <= 1)%Q →
  MiscZeroState self gstep target_ids bs = Ok m →
  groundtruth_p m = Some g →
  let step := inject_Z gstep in
  ((prob_decay_start_step p <= step)%Q → (step <= min_prob_step p)%Q →
   (g == 1 - (1 - min_ground_truth_prob p)
            * ((step - prob_decay_start_step p)
               / (min_prob_step p - prob_decay_start_step p)))%Q)
  ∧ ((min_prob_step p <= step)%Q → (g == min_ground_truth_prob p)%Q).
Proof.
  intros Hinit Hmin Hm Hg step.
  destruct (init_Ok _ _ Hinit) as (Hp & Hmax & Hdec & Hpos & _).
  destruct (MiscZeroState_groundtruth_p _ _ _ _ _ _ Hm Hg) as [-> _].
  unfold groundtruth_p_at. rewrite Hmax, Hdec, Hp. fold step.
  rewrite Hdec in Hpos.
  set (D := (min_prob_step p - prob_decay_start_step p)%Q) in *.
  set (sp := ((step - prob_decay_start_step p) / D)%Q).
  assert (sp * D == step - prob_decay_start_step p)%Q as Hsp.
  { unfold sp. field. lra. }
  split.
  - intros Hlo Hhi.
    assert (0 <= sp)%Q as Hsp0.
    { unfold sp. apply Qle_shift_div_l; [done | lra]. }
    assert (sp <= 1)%Q as Hsp1.
    { unfold sp. apply Qle_shift_div_r; [done|]. unfold D. lra. }
    assert (min_ground_truth_prob p
            <= 1 - (1 - min_ground_truth_prob p) * sp)%Q as Hge by nra.
    assert (1 - (1 - min_ground_truth_prob p) * sp <= 1)%Q as Hle by nra.
    rewrite Q.max_l by exact Hge.
    apply Q.min_l. lra.
  - intros Hhi.
    assert (1 <= sp)%Q as Hsp1.
    { unfold sp. apply Qle_shift_div_l; [done|]. unfold D. lra. }
    assert (1 - (1 - min_ground_truth_prob p) * sp
            <= min_ground_truth_prob p)%Q as Hle by nra.
    rewrite Q.max_r by exact Hle.
    apply Q.min_l. lra.
Qed.

(** X5 — what [MiscZeroState] carries.  Without scheduled sampling: the two
    step counters and nothing else.  With it: the call returns exactly when
    the target ids have [bs] rows, none of them empty, and then
    [prev_predicted_ids] is the first token of every row and [groundtruth_p]
    the value of the schedule.  Either way [time_step] starts at 0. *)
Theorem MiscZeroState_sampling_fields (self : AsrDecoderBase) (gstep : Z)
    (target_ids : list (list Z)) (bs : nat) :
  let counters := {| global_step := gstep; time_step := 0 |} in
  ((_max_label_prob self <= 0)%Q →
   MiscZeroState self gstep target_ids bs
   = Ok {| step_state := counters; prev_predicted_ids := None;
           groundtruth_p := None |})
  ∧ ((0 < _max_label_prob self)%Q →
     ((∃ m, MiscZeroState self gstep target_ids bs = Ok m)
      ↔ length target_ids = bs ∧ Forall (λ row, row ≠ []) target_ids)
     ∧ ∀ m, MiscZeroState self gstep target_ids bs = Ok m →
         step_state m = counters
         ∧ groundtruth_p m = Some (groundtruth_p_at self gstep)
         ∧ ∃ ids0, prev_predicted_ids m = Some ids0
                   ∧ Some <$> ids0 = head <$> target_ids).
Proof.
  intros counters. unfold MiscZeroState. split.
  { intros Hle. apply Qltb_false in Hle. by rewrite Hle. }
  intros Hlt. apply Qltb_true in Hlt. rewrite Hlt.
  cbn [step_state]. unfold first_column.
  assert (∀ col, mapM (λ row : list Z, py_index row 0) target_ids = Ok col →
            Some <$> col = head <$> target_ids) as Hcol.
  { intros col Hc. apply mapM_result_inv in Hc.
    induction Hc as [|row y rows ys Hy _ IH]; [done|].
    simpl. f_equal; [|exact IH].
    unfold py_index in Hy. destruct row; simpl in *; by inv_result. }
  split; [split|].
  - intros [m Hm]. inv_result.
    destruct (decide (length a0 = bs)) as [Hl|]; [|done].
    inv_result. pose proof (Hcol _ Ha0) as Hh.
    assert (length target_ids = length a) as Hlen.
    { rewrite <- (length_fmap head target_ids), <- Hh. by rewrite length_fmap. }
    split; [congruence|].
    apply Forall_forall. intros row Hin ->.
    apply (list_elem_of_fmap_2 head) in Hin. rewrite <- Hh in Hin.
    apply list_elem_of_fmap in Hin. destruct Hin as (? & ? & _). done.
  - intros [Hlen Hne].
    destruct (mapM_result_Ok (λ row : list Z, py_index row 0) target_ids)
      as (col & Hc & Hl).
    { intros row Hin. rewrite Forall_forall in Hne.
      specialize (Hne row Hin). destruct row; [done|]. by eexists. }
    rewrite Hc. cbn [mbind result_bind].
    rewrite decide_True by congruence. eauto.
  - intros m Hm. inv_result.
    destruct (decide (length a0 = bs)) as [Hl|]; [|done].
    inv_result. cbn. split; [done|]. split; [done|].
    eexists. split; [done|]. by apply Hcol.
Qed.

(** X6 — what [PostStepDecoderStateUpdate] leaves alone.  The recurrent,
    attention and fusion state, the step output, [global_step] and
    [groundtruth_p] come back as given.  With the function-based unroller
    the logits and the previous predictions are untouched as well.  With the
    graph loop the logits passed are stored; without scheduled sampling the
    previous predictions are kept, with it they are replaced by a sample of
    [log_softmax] of the logits, drawn by [tf.multinomial] with the seed
    [random_seed]. *)
Theorem PostStep_frame (self : AsrDecoderBase) (s s' : DecoderStepState)
    (lg : option leaf) :
  PostStepDecoderStateUpdate self s lg = Ok s' →
  let p := params self in
  rnn_states s' = rnn_states s
  ∧ atten_context s' = atten_context s
  ∧ atten_probs s' = atten_probs s
  ∧ atten_states s' = atten_states s
  ∧ fusion_states s' = fusion_states s
  ∧ step_outs s' = step_outs s
  ∧ global_step (step_state (misc_states s'))
    = global_step (step_state (misc_states s))
  ∧ groundtruth_p (misc_states s') = groundtruth_p (misc_states s)
  ∧ (use_while_loop_based_unrolling p = false →
     logits s' = logits s
     ∧ prev_predicted_ids (misc_states s')
       = prev_predicted_ids (misc_states s))
  ∧ (use_while_loop_based_unrolling p = true →
     logits s' = lg
     ∧ ((_max_label_prob self <= 0)%Q →
        prev_predicted_ids (misc_states s')
        = prev_predicted_ids (misc_states s))
     ∧ ((0 < _max_label_prob self)%Q →
        ∃ lgf, lg = Some (FloatLeaf lgf)
          ∧ prev_predicted_ids (misc_states s')
            = Some (tf_multinomial random
                      (time_step (step_state (misc_states s)))
                      (tf_nn_log_softmax lgf) (random_seed p)))).
Proof.
  intros Hs p. subst p. unfold PostStepDecoderStateUpdate in Hs.
  destruct (use_while_loop_based_unrolling (params self)); cbn [negb] in Hs.
  - destruct lg as [l|]; [|done].
    destruct (Qltb 0 (_max_label_prob self)) eqn:Hss.
    + apply Qltb_true in Hss. destruct l as [ids|lgf]; [done|].
      cbn [as_float mbind result_bind] in Hs. inv_result. cbn.
      repeat split; try done.
      * intros ?. lra.
      * intros _. eauto.
    + apply Qltb_false in Hss. cbn [mbind result_bind] in Hs. inv_result.
      cbn. repeat split; try done. intros ?. lra.
  - destruct (Qltb (min_ground_truth_prob (params self)) 1.0); [done|].
    cbn [mbind result_bind] in Hs. inv_result. cbn. repeat split; done.
Qed.

End BaseExtras.

(** ** Transposition *)

Lemma transpose_n_lookup {A} (m j : nat) (x : list (list A)) :
  (j < m)%nat → transpose_n m x !! j = Some (omap (λ r, r !! j) x).
Proof.
  revert j x. induction m as [|m IH]; intros j x Hj; [lia|].
  destruct j as [|j]; cbn [transpose_n lookup list_lookup].
  - f_equal. induction x as [|r x IHx]; [done|].
    cbn [omap list_omap]. fold (omap (M := list) (@head A) x).
    fold (omap (M := list) (λ r : list A, r !! 0%nat) x).
    rewrite IHx. by destruct r.
  - fold (@lookup _ _ _ (@list_lookup (list A))
            j (transpose_n m (drop 1 <$> x))).
    rewrite IH by lia. f_equal.
    induction x as [|r x IHx]; [done|].
    cbn [fmap list_fmap omap list_omap].
    fold (fmap (M := list) (drop (A := A) 1) x).
    fold (omap (M := list) (λ r : list A, r !! j) (drop 1 <$> x)).
    fold (omap (M := list) (λ r : list A, r !! S j) x).
    rewrite IHx, lookup_drop. done.
Qed.

Lemma omap_lookup_total {A} `{Inhabited A} (j : nat) (x : list (list A)) :
  Forall (λ r, j < length r)%nat x →
  omap (λ r, r !! j) x = (λ r, r !!! j) <$> x.
Proof.
  induction 1 as [|r x Hr _ IH]; [done|].
  cbn [fmap list_fmap omap list_omap].
  fold (fmap (M := list) (λ r : list A, r !!! j) x).
  fold (omap (M := list) (λ r : list A, r !! j) x).
  destruct (lookup_lt_is_Some_2 r j Hr) as [a Ha].
  rewrite Ha, IH. f_equal. by rewrite (list_lookup_total_correct _ _ _ Ha).
Qed.

(** Row [j] of the transpose of a rectangular tensor is its column [j]. *)
Lemma tf_transpose_lookup {A} `{Inhabited A} (x : list (list A)) (T j : nat) :
  Forall (λ r, length r = T) x → length (default [] (head x)) = T →
  (j < T)%nat →
  tf_transpose x !! j = Some ((λ r, r !!! j) <$> x).
Proof.
  intros Hrows Hhead Hj. unfold tf_transpose. rewrite Hhead.
  rewrite transpose_n_lookup by done. f_equal.
  apply omap_lookup_total. eapply Forall_impl; [exact Hrows|].
  simpl. intros; lia.
Qed.

Lemma ta_read_out_of_range {A} (v : list A) (t : nat) :
  (length v ≤ t)%nat →
  ta_read (Some <$> v) t
  = Raise (TFError "TensorArray.read: index out of range").
Proof.
  intros Ht. unfold ta_read.
  rewrite (lookup_ge_None_2 (Some <$> v) t); [done|].
  by rewrite length_fmap.
Qed.

Lemma tf_where_lookup {A} (cond : list bool) (x y r : list A) (b : nat)
    (c : bool) :
  tf_where cond x y = Ok r → cond !! b = Some c →
  r !! b = if c then x !! b else y !! b.
Proof.
  unfold tf_where. intros Hw Hc.
  destruct (decide _) as [[Hx Hy]|]; [|done]. inv_result.
  assert (b < length cond)%nat as Hb by (by eapply lookup_lt_Some).
  destruct (lookup_lt_is_Some_2 x b) as [xb Hxb]; [lia|].
  destruct (lookup_lt_is_Some_2 y b) as [yb Hyb]; [lia|].
  rewrite lookup_zip_with, Hc. simpl.
  assert (zip x y !! b = Some (xb, yb)) as ->
    by (apply lookup_zip_with_Some; eexists _, _; done).
  simpl. rewrite Hxb, Hyb. by destruct c.
Qed.

Section TargetExtras.
Context `{L : Layers}.

(** ** Targets fed at a step *)

(** X7 — teacher forcing.  Without scheduled sampling the target buffer
    built from [[batch, time]] targets of one shape feeds, at every time
    [t] below the sequence length, column [t] of the ids, labels, weights,
    embeddings and paddings, whatever the decoder state; at any later time
    the read is out of range and the call raises. *)
Theorem teacher_forcing_feeds_columns (self : AsrDecoderBase)
    (targets : Targets) (target_embs : list mat) (s : DecoderStepState) :
  let T := length (default [] (head (ids targets))) in
  (_max_label_prob self <= 0)%Q →
  wf_targets targets →
  length target_embs = length (ids targets) →
  Forall (λ r, length r = T) target_embs →
  ∃ tas,
    _GetInitialTargetInfo targets T target_embs = Ok tas
    ∧ (∀ t, (t < T)%nat →
         TargetsToBeFedAtCurrentDecodeStep self t s tas
         = Ok {| id := (λ r, r !!! t) <$> ids targets;
                 label := Some ((λ r, r !!! t) <$> labels targets);
                 weight := Some ((λ r, r !!! t) <$> weights targets);
                 temb := (λ r, r !!! t) <$> target_embs;
                 padding := (λ r, [r !!! t]) <$> paddings targets;
                 misc := ∅ |})
    ∧ (∀ t, (T ≤ t)%nat →
         TargetsToBeFedAtCurrentDecodeStep self t s tas
         = Raise (TFError "TensorArray.read: index out of range")).
Proof.
  intros T Hss (Hl & Hw & Hp & HI & HL & HW & HP) He HE.
  apply Qltb_false in Hss.
  assert (length (ids targets) = 0%nat → T = 0%nat) as Hz.
  { intros H0. subst T. by destruct (ids targets). }
  assert (∀ {A} (x : list (list A)),
            length x = length (ids targets) → Forall (λ r, length r = T) x →
            length (default [] (head x)) = T) as Hhead.
  { intros A x Hx Hrows. eapply length_head_rows; [exact Hx | done | done]. }
  assert (∀ {A} (x : list (list A)),
            length x = length (ids targets) → Forall (λ r, length r = T) x →
            length (tf_transpose x) = T) as Hlen.
  { intros A x Hx Hrows. rewrite length_tf_transpose. by apply Hhead. }
  unfold _GetInitialTargetInfo.
  rewrite !ToTensorArray_Ok by (rewrite ?length_fmap; by apply Hlen).
  cbn [mbind result_bind]. eexists. split; [done|]. split.
  - intros t Ht. unfold TargetsToBeFedAtCurrentDecodeStep.
    cbn [id_ta label_ta weight_ta emb_ta padding_ta].
    assert (∀ {A} `{Inhabited A} (x : list (list A)),
              length x = length (ids targets) →
              Forall (λ r, length r = T) x →
              ta_read (Some <$> tf_transpose x) t
              = Ok ((λ r : list A, r !!! t) <$> x)) as Hread.
    { intros A ? x Hx Hrows. apply ta_read_Some.
      apply (tf_transpose_lookup _ T); [done | by apply Hhead | done]. }
    rewrite (Hread Z _ (ids targets)), (Hread Z _ (labels targets)),
      (Hread Q _ (weights targets)), (Hread (list Q) _ target_embs) by done.
    cbn [mbind result_bind].
    rewrite (ta_read_Some (A := mat) _ t
               ((λ r : list Q, [r !!! t]) <$> paddings targets)).
    2:{ rewrite list_lookup_fmap.
        rewrite (tf_transpose_lookup _ T) by (by try apply Hhead).
        simpl. f_equal. rewrite <- list_fmap_compose. done. }
    cbn [mbind result_bind]. rewrite Hss. done.
  - intros t Ht. unfold TargetsToBeFedAtCurrentDecodeStep.
    cbn [id_ta]. rewrite ta_read_out_of_range; [done|].
    rewrite Hlen by done. done.
Qed.

(** X8 — scheduled sampling selects example by example.  With sampling on,
    example [b] of the batch is fed its ground-truth id and embedding when
    its uniform draw is below [groundtruth_p], and otherwise the id
    predicted at the previous step and the embedding looked up for that id;
    the label, the weight and the padding fed are always those of the
    target buffer. *)
Theorem sampling_selects_per_example (self : AsrDecoderBase) (time : nat)
    (s : DecoderStepState) (tas : TargetInfoTas)
    (target_id : list Z) (lbl : list Z) (wt : list Q) (emb0 : mat)
    (pad : mat) (gp : Q) (ids_prev : list Z) :
  let u :=
    tf_random_uniform random (Z.of_nat time) (length ids_prev)
      (random_seed (params self)) in
  (0 < _max_label_prob self)%Q →
  ta_read (id_ta tas) time = Ok target_id →
  ta_read (label_ta tas) time = Ok lbl →
  ta_read (weight_ta tas) time = Ok wt →
  ta_read (emb_ta tas) time = Ok emb0 →
  ta_read (padding_ta tas) time = Ok pad →
  groundtruth_p (misc_states s) = Some gp →
  prev_predicted_ids (misc_states s) = Some ids_prev →
  length target_id = length ids_prev →
  length emb0 = length ids_prev →
  length u = length ids_prev →
  ∃ ti,
    TargetsToBeFedAtCurrentDecodeStep self time s tas = Ok ti
    ∧ label ti = Some lbl ∧ weight ti = Some wt ∧ padding ti = pad
    ∧ ∀ b ub, u !! b = Some ub →
        ((ub < gp)%Q →
         id ti !! b = target_id !! b ∧ temb ti !! b = emb0 !! b)
        ∧ ((gp <= ub)%Q →
           id ti !! b = ids_prev !! b
           ∧ temb ti !! b = EmbLookup emb <$> ids_prev !! b).
Proof.
  intros u Hss Hid Hlabel Hweight Hemb Hpad Hgp Hprev Hlid Hlemb Hlu.
  apply Qltb_true in Hss.
  unfold TargetsToBeFedAtCurrentDecodeStep.
  rewrite Hid, Hlabel, Hweight, Hemb, Hpad. cbn [mbind result_bind].
  rewrite Hss, Hprev, Hgp. cbn [getattr mbind result_bind]. fold u.
  destruct (tf_where ((λ x, Qltb x gp) <$> u) emb0
              (EmbLookup emb <$> ids_prev)) as [e1|] eqn:He.
  2:{ unfold tf_where in He. rewrite decide_True in He; [done|].
      rewrite !length_fmap. split; congruence. }
  destruct (tf_where ((λ x, Qltb x gp) <$> u) target_id ids_prev)
    as [i1|] eqn:Hi.
  2:{ unfold tf_where in Hi. rewrite decide_True in Hi; [done|].
      rewrite !length_fmap. split; congruence. }
  cbn [mbind result_bind]. eexists. split; [done|].
  cbn [label weight padding id temb]. repeat split; try done.
  - erewrite (tf_where_lookup _ _ _ _ b true Hi); [done|].
    rewrite list_lookup_fmap, H. simpl. f_equal. by apply Qltb_true.
  - erewrite (tf_where_lookup _ _ _ _ b true He); [done|].
    rewrite list_lookup_fmap, H. simpl. f_equal. by apply Qltb_true.
  - erewrite (tf_where_lookup _ _ _ _ b false Hi); [done|].
    rewrite list_lookup_fmap, H. simpl. f_equal. by apply Qltb_false.
  - erewrite (tf_where_lookup _ _ _ _ b false He).
    + by rewrite list_lookup_fmap.
    + rewrite list_lookup_fmap, H. simpl. f_equal. by apply Qltb_false.
Qed.

End TargetExtras.

Section StepExtras.
Context `{L : Layers}.

(** ** One decoding step *)

Lemma py_index_Ok {A} (l : list A) (i : nat) (x : A) :
  py_index l i = Ok x ↔ l !! i = Some x.
Proof.
  unfold py_index. destruct (l !! i); split; intros H; congruence.
Qed.

Lemma ApplyDropout_Ok_range {A} `{DropoutOps A} (self : AsrDecoderBase)
    (x y : A) (det : bool) (extra : option Z) (ss : option StepState) :
  _ApplyDropout self x det extra ss = Ok y →
  (0 <= dropout_prob (params self))%Q ∧ (dropout_prob (params self) < 1)%Q.
Proof.
  unfold _ApplyDropout. intros Hy. inv_result.
  apply andb_true_iff in Ha as [H0 H1].
  apply Qle_bool_iff in H0. apply Qltb_true in H1. split; lra.
Qed.

Lemma rnn_layers_loop_Ok_inv (self : AsrDecoderBase) (cur : TargetInfo)
    (s : DecoderStepState) (ctx : mat) (det : bool)
    (cells : list (RNNCell RnnState)) (i : nat)
    (vars vars' : mat * list RnnState) :
  rnn_layers_loop (rnn_layer_body self cur s ctx det) cells i vars = Ok vars' →
  cells ≠ [] →
  (i + length cells ≤ length (rnn_states s))%nat
  ∧ (0 <= dropout_prob (params self))%Q ∧ (dropout_prob (params self) < 1)%Q.
Proof.
  revert i vars. induction cells as [|cell cells IH]; intros i vars H Hne;
    [done|].
  cbn [rnn_layers_loop] in H. apply bind_Ok in H.
  destruct H as (vars1 & Hbody & H).
  unfold rnn_layer_body in Hbody. destruct vars as [ro sts].
  apply bind_Ok in Hbody. destruct Hbody as (st & Hst & Hbody).
  apply bind_Ok in Hbody. destruct Hbody as (d & Hd & _).
  apply py_index_Ok, lookup_lt_Some in Hst.
  apply ApplyDropout_Ok_range in Hd.
  split; [|exact Hd].
  destruct cells as [|cell' cells]; [simpl; lia|].
  destruct (IH _ _ H) as [Hl _]; [done|]. simpl in *. lia.
Qed.

(** Past the residual layers, or with none, and with dropout off, the loop
    over the layers hands on the output of the last cell run. *)
Lemma rnn_layers_loop_no_residual (self : AsrDecoderBase) (cur : TargetInfo)
    (s : DecoderStepState) (ctx : mat) (det : bool)
    (cells : list (RNNCell RnnState)) (i : nat) (cell : RNNCell RnnState)
    (st : RnnState) (sts : list RnnState) (vars' : mat * list RnnState) :
  dropout_inactive (params self) →
  (∀ j, (i ≤ j < i + length cells)%nat →
        residual_applies (params self) j = false) →
  last sts = Some st →
  rnn_layers_loop (rnn_layer_body self cur s ctx det) cells i
    (GetOutput cell st, sts) = Ok vars' →
  ∃ cell' st',
    last (cell :: cells) = Some cell' ∧ last vars'.2 = Some st'
    ∧ vars'.1 = GetOutput cell' st'.
Proof.
  intros (H0 & H1 & Hin). revert i cell st sts.
  induction cells as [|c cells IH]; intros i cell st sts Hres Hlast H;
    cbn [rnn_layers_loop] in H.
  - inv_result. by exists cell, st.
  - apply bind_Ok in H. destruct H as (vars1 & Hbody & H).
    assert (∃ sti, rnn_states s !! i = Some sti) as [sti Hsti].
    { unfold rnn_layer_body in Hbody. apply bind_Ok in Hbody.
      destruct Hbody as (sti & Hsti & _). apply py_index_Ok in Hsti. eauto. }
    rewrite (rnn_layer_body_eq _ _ _ _ _ _ _ _ _ _ _ Hsti
               (ApplyDropout_inactive _ _ _ _ _ H0 H1 Hin)) in Hbody.
    rewrite Hres in Hbody by (simpl; lia). inv_result.
    rewrite last_cons_cons.
    eapply (IH (S i)); [| |exact H].
    + intros j Hj. apply Hres. simpl. lia.
    + apply last_snoc.
Qed.

(** X9 — what a decoding step returns.  The new state has one recurrent
    state per cell, the first being the first cell run on the embedding fed
    and the previous context; the attention is queried with that first
    layer's output and the step counters of the state given;
    [misc_states] comes back unchanged (the time step is not advanced here)
    and none of the optional fields is set.  The step output ends in the new
    attention context. *)
Theorem SingleDecodeStep_frame (self : AsrDecoderBase)
    (packed_src : PackedSrc) (c : TargetInfo) (s : DecoderStepState)
    (pad : option mat) (det : bool) (step_out : mat)
    (s1 : DecoderStepState) :
  SingleDecodeStep self packed_src c s pad det = Ok (step_out, s1) →
  length (rnn_states s1) = length rnn_cell
  ∧ misc_states s1 = misc_states s
  ∧ fusion_states s1 = None ∧ logits s1 = None ∧ step_outs s1 = None
  ∧ (∃ rnn_out, step_out = tf_concat1 rnn_out (atten_context s1))
  ∧ ∃ cell_0 state_0,
      rnn_cell !! 0%nat = Some cell_0
      ∧ rnn_states s !! 0%nat = Some state_0
      ∧ let new_state_0 :=
          FProp cell_0 state_0 (temb c) (atten_context s) (padding c) in
        let attended :=
          _ComputeAttention (GetOutput cell_0 new_state_0) packed_src
            (atten_states s) pad (step_state (misc_states s)) in
        rnn_states s1 !! 0%nat = Some new_state_0
        ∧ atten_context s1
          = QueryAttention contextualizer (GetOutput cell_0 new_state_0)
              (misc_states s) attended.1.1 packed_src
        ∧ atten_probs s1 = attended.1.2
        ∧ atten_states s1 = attended.2.
Proof.
  intros H.
  destruct (SingleDecodeStep_Ok _ _ _ _ _ _ _ _ H)
    as (Hlen & Hmisc & Hfs & Hlg & Hso).
  repeat (split; [done|]).
  unfold SingleDecodeStep in H.
  apply bind_Ok in H. destruct H as (cell_0 & Hc0 & H).
  apply bind_Ok in H. destruct H as (state_0 & Hs0 & H).
  apply py_index_Ok in Hc0, Hs0.
  destruct (_ComputeAttention _ _ _ _ _) as [[ctx probs] ast] eqn:Hatt.
  apply bind_Ok in H. destruct H as ([ro sts] & Hloop & H).
  injection H as <- <-. cbn [atten_context rnn_states atten_probs atten_states].
  split; [eauto|]. exists cell_0, state_0. split; [done|]. split; [done|].
  cbn zeta. rewrite Hatt. cbn [fst snd]. split; [|done].
  clear -Hloop.
  assert (∀ cells i (vars vars' : mat * list RnnState) body,
            rnn_layers_loop body cells i vars = Ok vars' →
            (∀ j cell v v', body j cell v = Ok v' → ∃ x, v'.2 = v.2 ++ [x]) →
            ∀ x, vars.2 !! 0%nat = Some x → vars'.2 !! 0%nat = Some x) as Hkeep.
  { induction cells as [|cell cells IH]; intros i vars vars' body Hl Hb x Hx;
      cbn [rnn_layers_loop] in Hl.
    - by inv_result.
    - apply bind_Ok in Hl. destruct Hl as (v1 & Hv1 & Hl).
      eapply IH; [exact Hl | exact Hb|].
      destruct (Hb _ _ _ _ Hv1) as [y ->].
      by apply lookup_app_l_Some. }
  eapply (Hkeep _ _ _ _ _ Hloop); [|done].
  intros j cell [o st] v' Hb. unfold rnn_layer_body in Hb.
  apply bind_Ok in Hb. destruct Hb as (sti & _ & Hb).
  apply bind_Ok in Hb. destruct Hb as (d & _ & Hb).
  injection Hb as <-. cbn [snd]. eauto.
Qed.

(** X10 — when a decoding step returns.  It returns exactly when there is
    at least one cell, the state given holds a recurrent state for every
    cell, and, if there are two cells or more, [dropout_prob] is in
    [0, 1): with a single cell the step never reaches the dropout
    assertion.  Without any cell, or without any recurrent state, it raises
    an [IndexError]. *)
Theorem SingleDecodeStep_returns_iff (self : AsrDecoderBase)
    (packed_src : PackedSrc) (c : TargetInfo) (s : DecoderStepState)
    (pad : option mat) (det : bool) :
  ((∃ r, SingleDecodeStep self packed_src c s pad det = Ok r)
   ↔ rnn_cell ≠ []
     ∧ (length rnn_cell ≤ length (rnn_states s))%nat
     ∧ ((2 ≤ length rnn_cell)%nat →
        (0 <= dropout_prob (params self))%Q
        ∧ (dropout_prob (params self) < 1)%Q))
  ∧ (rnn_cell = [] ∨ rnn_states s = [] →
     SingleDecodeStep self packed_src c s pad det = Raise IndexError).
Proof.
  unfold SingleDecodeStep.
  destruct rnn_cell as [|cell_0 cells] eqn:Hcells.
  { cbn [py_index lookup list_lookup mbind result_bind].
    split; [split; [intros [? ?]; done | intros [? _]; done] | done]. }
  cbn [py_index lookup list_lookup mbind result_bind drop].
  destruct (rnn_states s) as [|state_0 states] eqn:Hstates.
  { cbn [py_index lookup list_lookup mbind result_bind].
    split; [split; [intros [? ?]; done | intros (_ & ? & _); simpl in *; lia]
           | done]. }
  cbn [py_index lookup list_lookup mbind result_bind].
  destruct (_ComputeAttention _ _ _ _ _) as [[ctx probs] ast].
  rewrite drop_0. split; [|intros [?|?]; done]. split.
  - intros [r Hr]. apply bind_Ok in Hr. destruct Hr as (vars' & Hloop & _).
    split; [done|].
    destruct cells as [|cell_1 cells]; [simpl; split; lia|].
    apply rnn_layers_loop_Ok_inv in Hloop; [|done].
    rewrite Hstates in Hloop. destruct Hloop as (Hl & Hr).
    split; [simpl in *; lia | by intros _].
  - intros (_ & Hl & Hr).
    destruct cells as [|cell_1 cells].
    { cbn [rnn_layers_loop mbind result_bind]. eauto. }
    destruct Hr as [H0 H1]; [simpl; lia|].
    match goal with
    | |- context [rnn_layers_loop ?body ?cs 1%nat (?o, ?sts)] =>
        destruct (rnn_layers_loop_total self c s
                    (QueryAttention contextualizer o (misc_states s) ctx
                       packed_src) det cs 1 o sts H0 H1)
          as (o' & sts' & Hloop & _)
    end.
    { rewrite Hstates. simpl in *. lia. }
    rewrite Hloop. cbn [mbind result_bind]. eauto.
Qed.

(** X11 — what a decoding step reads.  Of the target fed it reads the
    embedding and the padding only, not the id, the label or the weight; of
    the state it reads the recurrent states, the attention context, the
    attention state and [misc_states], not the previous attention
    probabilities, fusion state, logits or step output. *)
Theorem SingleDecodeStep_reads (self : AsrDecoderBase)
    (packed_src : PackedSrc) (c c' : TargetInfo) (s s' : DecoderStepState)
    (pad : option mat) (det : bool) :
  temb c = temb c' → padding c = padding c' → same_core s s' →
  SingleDecodeStep self packed_src c s pad det
  = SingleDecodeStep self packed_src c' s' pad det.
Proof.
  intros He Hp (Hr & Hc & Ha & Hm).
  unfold SingleDecodeStep. rewrite <- Hr, <- Hc, <- Ha, <- Hm, <- He, <- Hp.
  destruct (py_index rnn_cell 0) as [cell_0|]; simpl; [|done].
  destruct (py_index (rnn_states s) 0) as [state_0|]; simpl; [|done].
  destruct (_ComputeAttention _ _ _ _ _) as [[ctx probs] ast].
  erewrite rnn_layers_loop_ext; [done|].
  intros i cell [rnn_out sts]. unfold rnn_layer_body.
  by rewrite <- Hr, <- Hp, <- Hm.
Qed.

(** X12 — without residual connections ([residual_start] not positive, or
    beyond the number of layers) and with dropout off, the step output is
    the output of the last cell on its new state, followed by the new
    attention context. *)
Theorem step_output_is_last_layer_output (self : AsrDecoderBase)
    (packed_src : PackedSrc) (c : TargetInfo) (s : DecoderStepState)
    (pad : option mat) (det : bool) (step_out : mat)
    (s1 : DecoderStepState) :
  dropout_inactive (params self) →
  (residual_start (params self) ≤ 0
   ∨ Z.of_nat (length rnn_cell) < residual_start (params self))%Z →
  SingleDecodeStep self packed_src c s pad det = Ok (step_out, s1) →
  ∃ cell st,
    last rnn_cell = Some cell ∧ last (rnn_states s1) = Some st
    ∧ step_out = tf_concat1 (GetOutput cell st) (atten_context s1).
Proof.
  intros Hdrop Hres H. unfold SingleDecodeStep in H.
  apply bind_Ok in H. destruct H as (cell_0 & Hc0 & H).
  apply bind_Ok in H. destruct H as (state_0 & Hs0 & H).
  destruct (_ComputeAttention _ _ _ _ _) as [[ctx probs] ast].
  apply bind_Ok in H. destruct H as ([ro sts] & Hloop & H).
  injection H as <- <-. cbn [atten_context rnn_states].
  apply py_index_Ok in Hc0.
  destruct rnn_cell as [|c0 cells] eqn:Hcells; [done|].
  injection Hc0 as ->. cbn [drop] in Hloop. rewrite drop_0 in Hloop.
  apply (rnn_layers_loop_no_residual _ _ _ _ _ _ _ _ _ _ _ Hdrop)
    in Hloop; [| |done].
  - cbn [fst snd] in Hloop. destruct Hloop as (cell' & st' & Hl & Hs & ->).
    eauto.
  - intros j Hj. unfold residual_applies. simpl in Hres.
    destruct Hres as [Hle | Hgt].
    + replace (0 <? residual_start (params self))%Z with false
        by (symmetry; apply Z.ltb_ge; lia).
      apply andb_false_r.
    + replace (residual_start (params self) <=? Z.of_nat j + 1)%Z with false
        by (symmetry; apply Z.leb_gt; lia).
      done.
Qed.

End StepExtras.

Section BeamExtras.
Context `{L : Layers}.

(** ** Beam search *)

Lemma zero_states_from (bs n i : nat) :
  (i + n ≤ length rnn_cell)%nat →
  mapM (λ i, cell ← py_index rnn_cell i; Ok (rnn_zero_state cell bs))
    (seq i n)
  = Ok ((λ cell, rnn_zero_state cell bs) <$> take n (drop i rnn_cell)).
Proof.
  revert i. induction n as [|n IH]; intros i Hi; [done|].
  destruct (lookup_lt_is_Some_2 rnn_cell i) as [c Hc]; [lia|].
  cbn [seq mapM]. rewrite (proj2 (py_index_Ok rnn_cell i c) Hc).
  cbn [mbind result_bind]. rewrite IH by lia. cbn [mbind result_bind].
  rewrite (drop_S _ _ _ Hc). done.
Qed.

Lemma zero_states_inv (bs n : nat) (sts : list RnnState) :
  mapM (λ i, cell ← py_index rnn_cell i; Ok (rnn_zero_state cell bs))
    (seq 0 n) = Ok sts →
  (n ≤ length rnn_cell)%nat.
Proof.
  intros Hm. apply mapM_result_inv in Hm.
  destruct (decide (n ≤ length rnn_cell)%nat) as [|Hn]; [done|].
  destruct (Forall2_lookup_l _ _ _ (length rnn_cell) (length rnn_cell) Hm)
    as (y & _ & Hy).
  { apply lookup_seq_lt. lia. }
  unfold py_index in Hy.
  rewrite (lookup_ge_None_2 rnn_cell (length rnn_cell)) in Hy by lia.
  done.
Qed.

Lemma first_column_replicate (n : nat) (x : Z) :
  first_column (replicate n [x]) n = Ok (replicate n x).
Proof.
  unfold first_column.
  rewrite (mapM_result_fmap _ (λ _, x)).
  - cbn [mbind result_bind]. rewrite fmap_replicate.
    by rewrite decide_True by apply length_replicate.
  - intros row Hin. apply elem_of_replicate in Hin as [-> _]. done.
Qed.

(** X13 — the initial beam search state is built exactly when there is a
    cell for every layer, scheduled sampling or not.  It holds the zero
    state of the first [rnn_layers] cells for batch times hypotheses
    examples, the step counters at the global step and time 0, the fusion
    zero state, and the attention probabilities that the callback also
    returns; with scheduled sampling on, the previous prediction of every
    hypothesis is the start-of-sentence id. *)
Theorem InitBeamSearchState_returns_iff (self : AsrDecoderBase) (gstep : Z)
    (source_encs : list mat) (source_paddings : mat)
    (num_hyps_per_beam : nat) :
  let p := params self in
  let n := (length (default [] (head source_encs)) * num_hyps_per_beam)%nat in
  ((∃ r, _InitBeamSearchStateCallback self gstep source_encs source_paddings
           num_hyps_per_beam = Ok r)
   ↔ (rnn_layers p ≤ length rnn_cell)%nat)
  ∧ ∀ probs st,
      _InitBeamSearchStateCallback self gstep source_encs source_paddings
        num_hyps_per_beam = Ok (probs, st) →
      bs_rnn_states st
      = (λ cell, rnn_zero_state cell n) <$> take (rnn_layers p) rnn_cell
      ∧ step_state (bs_misc_states st)
        = {| global_step := gstep; time_step := 0 |}
      ∧ bs_fusion_states st = fusion_zero_state fusion n
      ∧ bs_atten_probs (all_atten_states st) = probs
      ∧ ((0 < _max_label_prob self)%Q →
         prev_predicted_ids (bs_misc_states st)
         = Some (replicate n (1 * target_sos_id p)%Z))
      ∧ ((_max_label_prob self <= 0)%Q →
         prev_predicted_ids (bs_misc_states st) = None).
Proof.
  intros p n. subst p.
  unfold _InitBeamSearchStateCallback, InitDecoder, DecoderStepZeroState,
    _GetNumHypsForBeamSearch. fold n.
  assert (∃ m, MiscZeroState self gstep
                 (replicate n [(1 * target_sos_id (params self))%Z]) n = Ok m
               ∧ step_state m = {| global_step := gstep; time_step := 0 |}
               ∧ ((0 < _max_label_prob self)%Q →
                  prev_predicted_ids m
                  = Some (replicate n (1 * target_sos_id (params self))%Z))
               ∧ ((_max_label_prob self <= 0)%Q →
                  prev_predicted_ids m = None)) as (m & -> & Hm).
  { unfold MiscZeroState.
    destruct (Qltb 0 (_max_label_prob self)) eqn:Hss.
    - apply Qltb_true in Hss. rewrite first_column_replicate.
      cbn [mbind result_bind]. eexists. split; [done|]. cbn.
      split; [done|]. split; [done|]. intros ?. lra.
    - apply Qltb_false in Hss. eexists. split; [done|]. cbn.
      split; [done|]. split; [intros ?; lra | done]. }
  cbn [mbind result_bind]. unfold BaseZeroState.
  destruct (decide (rnn_layers (params self) ≤ length rnn_cell)%nat)
    as [Hle | Hgt].
  - rewrite zero_states_from by (simpl; lia). rewrite drop_0.
    cbn [mbind result_bind].
    destruct (ComputeContextVectorWithSource _ _ _ _ _ _)
      as [[ctx probs] ast].
    cbn [mbind result_bind getattr fusion_states].
    split; [split; [done | eauto]|].
    intros probs' st Hst. inv_result. cbn. destruct Hm as (? & ? & ?). done.
  - destruct (mapM _ (seq 0 (rnn_layers (params self)))) as [sts|] eqn:Hsts.
    { apply zero_states_inv in Hsts. done. }
    cbn [mbind result_bind].
    split; [split; [intros [? ?]; done | done] | intros ? ? ?; done].
Qed.

(** X14 — a beam search step keeps the shape of the state.  With
    [dropout_prob] in [0, 1), at least one cell and a recurrent state for
    every cell, the callback before a step returns; the state it returns
    has again one recurrent state per cell and the [misc_states] it was
    given, so that the time step is never advanced during a beam search;
    the attention probabilities in the results are those of the new state;
    nothing depends on [num_hyps_per_beam]; and the callback after the step
    hands the state on as it is. *)
Theorem PreBeamSearchStep_keeps_state_shape (self : AsrDecoderBase)
    (source_encs : list mat) (source_paddings : mat)
    (step_ids : list (list Z)) (states : BeamSearchStates)
    (num_hyps_per_beam : nat) :
  (0 <= dropout_prob (params self))%Q → (dropout_prob (params self) < 1)%Q →
  rnn_cell ≠ [] → length (bs_rnn_states states) = length rnn_cell →
  ∃ results new_states,
    _PreBeamSearchStepCallback self source_encs source_paddings step_ids
      states num_hyps_per_beam = Ok (results, new_states)
    ∧ length (bs_rnn_states new_states) = length rnn_cell
    ∧ bs_misc_states new_states = bs_misc_states states
    ∧ res_atten_probs results = bs_atten_probs (all_atten_states new_states)
    ∧ _PostBeamSearchStepCallback new_states = new_states
    ∧ ∀ k, _PreBeamSearchStepCallback self source_encs source_paddings
             step_ids states k = Ok (results, new_states).
Proof.
  intros H0 H1 Hne Hlen. unfold _PreBeamSearchStepCallback.
  destruct (FPropLm _ _ _ _) as [lm f1].
  destruct (FuseEmb _ _ _ _) as [e f2].
  match goal with
  | |- context [SingleDecodeStep self ?ps ?c ?s None false] =>
      destruct (SingleDecodeStep_total self ps c s None false H0 H1 Hne Hlen)
        as (so & s1 & -> & Hl1 & Hm1 & _)
  end.
  cbn [mbind result_bind].
  destruct (FuseOutput _ _ _ _) as [o f3].
  eexists _, _. split; [done|]. cbn. done.
Qed.

End BeamExtras.

(** ** Sums *)

Lemma Qsum_Forall2 (x y : list Q) : Forall2 Qeq x y → (Qsum x == Qsum y)%Q.
Proof.
  induction 1 as [|a b x y Hab _ IH]; [reflexivity|].
  cbn [Qsum foldr]. fold (Qsum x). fold (Qsum y). rewrite Hab, IH. reflexivity.
Qed.

Lemma Qsum_nonneg (x : list Q) : Forall (λ a, (0 <= a)%Q) x → (0 <= Qsum x)%Q.
Proof.
  induction 1 as [|a x Ha _ IH]; [done|].
  cbn [Qsum foldr]. fold (Qsum x). lra.
Qed.

Lemma Qsum_mul_bound (c w : list Q) :
  Forall (λ a, (0 <= a)%Q ∧ (a <= 1)%Q) c → Forall (λ a, (0 <= a)%Q) w →
  (0 <= Qsum (zip_with Qmult c w))%Q
  ∧ (Qsum (zip_with Qmult c w) <= Qsum w)%Q.
Proof.
  intros Hc. revert w. induction Hc as [|a c [Ha0 Ha1] _ IH]; intros w Hw.
  - split; [done|]. by apply Qsum_nonneg.
  - destruct Hw as [|b w Hb Hw]; [done|].
    destruct (IH w Hw) as [IH0 IH1].
    cbn [zip_with Qsum foldr]. fold (Qsum (zip_with Qmult c w)).
    fold (Qsum w). split; nra.
Qed.

Lemma reduce_sum_nonneg (w : list (list Q)) :
  Forall (Forall (λ a, (0 <= a)%Q)) w → (0 <= reduce_sum w)%Q.
Proof.
  intros Hw. unfold reduce_sum. apply Qsum_nonneg, Forall_fmap.
  eapply Forall_impl; [exact Hw|]. intros r Hr. by apply Qsum_nonneg.
Qed.

Lemma reduce_sum_mul_bound (c w : list (list Q)) :
  Forall (Forall (λ a, (0 <= a)%Q ∧ (a <= 1)%Q)) c →
  Forall (Forall (λ a, (0 <= a)%Q)) w →
  (0 <= reduce_sum (mul2 c w))%Q ∧ (reduce_sum (mul2 c w) <= reduce_sum w)%Q.
Proof.
  intros Hc. revert w. unfold reduce_sum, mul2.
  induction Hc as [|cr c Hcr _ IH]; intros w Hw.
  - split; [done|]. by apply reduce_sum_nonneg.
  - destruct Hw as [|wr w Hwr Hw]; [done|].
    destruct (IH w Hw) as [IH0 IH1].
    destruct (Qsum_mul_bound cr wr Hcr Hwr) as [H0 H1].
    cbn [zip_with fmap list_fmap Qsum foldr].
    fold (fmap (M := list) Qsum (zip_with (zip_with Qmult) c w)).
    fold (fmap (M := list) Qsum w).
    fold (Qsum (Qsum <$> zip_with (zip_with Qmult) c w)).
    fold (Qsum (Qsum <$> w)). split; lra.
Qed.

Section MetricsExtras.
Context `{L : Layers}.

(** ** Metrics *)

Lemma correct_preds_in_01 (logits : list mat) (target_labels : list (list Z)) :
  Forall (Forall (λ a, (0 <= a)%Q ∧ (a <= 1)%Q))
    (zip_with
       (zip_with (λ (v : vec) (l : Z),
                    if (tf_argmax v =? l)%Z then 1%Q else 0%Q))
       logits target_labels).
Proof.
  revert target_labels. induction logits as [|r logits IH];
    intros [|lr labels]; try constructor; [|apply IH].
  revert lr. induction r as [|v r IHr]; intros [|l lr]; try constructor;
    [|apply IHr].
  destruct (tf_argmax v =? l)%Z; split; lra.
Qed.

(** X15 — the metrics by averaging mode.  [log_pplx] is always the sum of
    the per-sequence losses over the sum of the weights plus [1e-6], with
    the sum of the weights as its weight.  With [per_token_avg_loss] the
    loss is that same pair; without it the loss is the mean of the
    per-sequence losses and its weight is the number of sequences, which is
    the batch size when logits, labels and weights have one batch size. *)
Theorem metrics_by_averaging_mode (self : AsrDecoderBase) (logits : list mat)
    (target_labels : list (list Z)) (target_weights : list (list Q))
    (target_probs : option (list mat)) :
  let r :=
    _ComputeMetrics self logits target_labels target_weights target_probs in
  let w := reduce_sum target_weights in
  let n := inject_Z (Z.of_nat (length r.2)) in
  r.1 !! "log_pplx" = Some ((Qsum r.2 / (w + 0.000001))%Q, w)
  ∧ (per_token_avg_loss (params self) = true →
     r.1 !! "loss" = r.1 !! "log_pplx")
  ∧ (per_token_avg_loss (params self) = false →
     r.1 !! "loss" = Some ((Qsum r.2 / n)%Q, n))
  ∧ (target_probs = None → length target_labels = length logits →
     length target_weights = length logits → length r.2 = length logits).
Proof.
  intros r w n. subst r w n. unfold _ComputeMetrics.
  destruct (per_token_avg_loss (params self)); cbn zeta;
    destruct (negb use_tpu); cbn [fst snd];
    rewrite ?lookup_insert_ne by done;
    rewrite ?lookup_insert_eq, ?lookup_singleton_eq;
    (split; [done|]); (split; [done|]); (split; [done|]);
    intros -> Hl Hw; unfold reduce_sum_1, mul2, per_example_loss;
    rewrite length_fmap, !length_zip_with; lia.
Qed.

(** X17 — the accuracy.  On TPU the metrics hold no
    [fraction_of_correct_next_step_preds]; elsewhere they do, weighted by
    the sum of the weights, and with non-negative weights its value is at
    least 0 and at most 1: the weights of the correct tokens over the
    weights of all of them plus [1e-6]. *)
Theorem accuracy_between_0_and_1 (self : AsrDecoderBase) (logits : list mat)
    (target_labels : list (list Z)) (target_weights : list (list Q))
    (target_probs : option (list mat)) :
  Forall (Forall (λ w, (0 <= w)%Q)) target_weights →
  let metrics :=
    (_ComputeMetrics self logits target_labels target_weights
       target_probs).1 in
  if use_tpu
  then metrics !! "fraction_of_correct_next_step_preds" = None
  else ∃ a,
    metrics !! "fraction_of_correct_next_step_preds"
    = Some (a, reduce_sum target_weights)
    ∧ (0 <= a)%Q ∧ (a <= 1)%Q.
Proof.
  intros Hw metrics. subst metrics. unfold _ComputeMetrics.
  destruct (per_token_avg_loss (params self)); cbn zeta;
    destruct use_tpu; cbn [negb fst];
    rewrite ?lookup_insert_ne by done; rewrite ?lookup_singleton_ne by done;
    rewrite ?lookup_insert_eq; try done.
  all: eexists; split; [done|].
  all: destruct (reduce_sum_mul_bound _ _
                   (correct_preds_in_01 logits target_labels) Hw)
         as [H0 H1].
  all: pose proof (reduce_sum_nonneg _ Hw) as HW.
  all: split; [apply Qle_shift_div_l; lra | apply Qle_shift_div_r; lra].
Qed.

End MetricsExtras.

(** ** Merging the metrics of the logit heads *)

Lemma metric_names_slash_ne (k k' n : string) :
  k ∈ metric_names → k' ∈ metric_names → k +:+ "/" +:+ n ≠ k'.
Proof.
  unfold metric_names. intros Hk Hk'.
  repeat (apply elem_of_cons in Hk as [-> | Hk]);
    [| | | by apply elem_of_nil in Hk];
    repeat (apply elem_of_cons in Hk' as [-> | Hk']);
    try (by apply elem_of_nil in Hk'); simpl; discriminate.
Qed.

Lemma metric_names_slash_inj (k k' n n' : string) :
  k ∈ metric_names → k' ∈ metric_names →
  k +:+ "/" +:+ n = k' +:+ "/" +:+ n' → k = k' ∧ n = n'.
Proof.
  unfold metric_names. intros Hk Hk'.
  repeat (apply elem_of_cons in Hk as [-> | Hk]);
    [| | | by apply elem_of_nil in Hk];
    repeat (apply elem_of_cons in Hk' as [-> | Hk']);
    try (by apply elem_of_nil in Hk'); cbv [String.append]; intros [=];
    auto.
Qed.

Lemma merge_metric_plain (n : string) (w : Q) (M : gmap string (Q * Q))
    (k : string) (v : Q * Q) :
  k +:+ "/" +:+ n ≠ k →
  merge_metric n w M (k, v) !! k
  = Some (AddToMetric (default (0%Q, 0%Q) (M !! k)) w v).
Proof.
  intros Hne. unfold merge_metric. rewrite lookup_insert_eq. do 2 f_equal.
  assert (<[k +:+ "/" +:+ n := v]> M !! k = M !! k) as Hk
    by (by apply lookup_insert_ne).
  rewrite Hk. rewrite lookup_total_alt.
  destruct (M !! k) as [acc|] eqn:HM.
  - by rewrite Hk.
  - by rewrite lookup_insert_eq.
Qed.

Lemma merge_metric_slash (n : string) (w : Q) (M : gmap string (Q * Q))
    (k : string) (v : Q * Q) :
  k +:+ "/" +:+ n ≠ k →
  merge_metric n w M (k, v) !! (k +:+ "/" +:+ n) = Some v.
Proof.
  intros Hne. assert (k ≠ k +:+ "/" +:+ n) as Hne' by congruence.
  unfold merge_metric. rewrite lookup_insert_ne by exact Hne'.
  destruct (<[k +:+ "/" +:+ n := v]> M !! k); [by rewrite lookup_insert_eq|].
  rewrite lookup_insert_ne by exact Hne'. by rewrite lookup_insert_eq.
Qed.

Lemma merge_metric_other (n : string) (w : Q) (M : gmap string (Q * Q))
    (k x : string) (v : Q * Q) :
  x ≠ k → x ≠ k +:+ "/" +:+ n →
  merge_metric n w M (k, v) !! x = M !! x.
Proof.
  intros Hk Hs. assert (k ≠ x) as Hk' by congruence.
  assert (k +:+ "/" +:+ n ≠ x) as Hs' by congruence.
  unfold merge_metric. rewrite lookup_insert_ne by exact Hk'.
  destruct (<[k +:+ "/" +:+ n := v]> M !! k).
  - by rewrite lookup_insert_ne.
  - rewrite lookup_insert_ne by exact Hk'. by rewrite lookup_insert_ne.
Qed.

(** The loop over the metrics of one head: keys it does not write. *)
Lemma merge_fold_other (n : string) (w : Q) (items : list (string * (Q * Q)))
    (M : gmap string (Q * Q)) (x : string) :
  (∀ k v, (k, v) ∈ items → x ≠ k ∧ x ≠ k +:+ "/" +:+ n) →
  foldl (merge_metric n w) M items !! x = M !! x.
Proof.
  revert M. induction items as [|[k v] items IH]; intros M H; [done|].
  cbn [foldl]. rewrite IH.
  - apply merge_metric_other; apply (H k v); left.
  - intros k' v' Hin. apply (H k' v'). by right.
Qed.

(** The merged metric under the name of a metric. *)
Lemma merge_fold_plain (n : string) (w : Q) (items : list (string * (Q * Q)))
    (M : gmap string (Q * Q)) (k : string) (v : Q * Q) :
  NoDup items.*1 → (∀ k' v', (k', v') ∈ items → k' ∈ metric_names) →
  (k, v) ∈ items →
  foldl (merge_metric n w) M items !! k
  = Some (AddToMetric (default (0%Q, 0%Q) (M !! k)) w v).
Proof.
  revert M. induction items as [|[k1 v1] items IH]; intros M Hnd Hkeys Hin.
  { by apply elem_of_nil in Hin. }
  cbn [fmap list_fmap fst] in Hnd. apply NoDup_cons in Hnd as [Hk1 Hnd].
  assert (k1 ∈ metric_names) as Hk1m by (apply (Hkeys k1 v1); left).
  cbn [foldl]. apply elem_of_cons in Hin as [[= -> ->] | Hin].
  - rewrite merge_fold_other.
    + apply merge_metric_plain. by apply metric_names_slash_ne.
    + intros k' v' Hin'. split.
      * intros ->. apply Hk1. apply list_elem_of_fmap. by exists (k', v').
      * apply not_eq_sym, metric_names_slash_ne; [|done].
        apply (Hkeys k' v'). by right.
  - assert (k ∈ metric_names) as Hkm by (apply (Hkeys k v); by right).
    rewrite IH; [|done| |done].
    + rewrite merge_metric_other; [done| |].
      * intros ->. apply Hk1. apply list_elem_of_fmap. by exists (k1, v).
      * by apply not_eq_sym, metric_names_slash_ne.
    + intros k' v' Hin'. apply (Hkeys k' v'). by right.
Qed.

(** The metric of the head, kept under its name and the name of the head. *)
Lemma merge_fold_slash (n : string) (w : Q) (items : list (string * (Q * Q)))
    (M : gmap string (Q * Q)) (k : string) (v : Q * Q) :
  NoDup items.*1 → (∀ k' v', (k', v') ∈ items → k' ∈ metric_names) →
  (k, v) ∈ items →
  foldl (merge_metric n w) M items !! (k +:+ "/" +:+ n) = Some v.
Proof.
  revert M. induction items as [|[k1 v1] items IH]; intros M Hnd Hkeys Hin.
  { by apply elem_of_nil in Hin. }
  cbn [fmap list_fmap fst] in Hnd. apply NoDup_cons in Hnd as [Hk1 Hnd].
  assert (k1 ∈ metric_names) as Hk1m by (apply (Hkeys k1 v1); left).
  cbn [foldl]. apply elem_of_cons in Hin as [[= -> ->] | Hin].
  - rewrite merge_fold_other.
    + apply merge_metric_slash. by apply metric_names_slash_ne.
    + intros k' v' Hin'.
      assert (k' ∈ metric_names) as Hk'm by (apply (Hkeys k' v'); by right).
      split; [by apply metric_names_slash_ne|].
      intros Heq. apply metric_names_slash_inj in Heq as [-> _]; [|done..].
      apply Hk1. apply list_elem_of_fmap. by exists (k', v').
  - apply IH; [done| |done].
    intros k' v' Hin'. apply (Hkeys k' v'). by right.
Qed.

Section LossExtras.
Context `{L : Layers}.

Lemma ComputeMetrics_keys (self : AsrDecoderBase) (lg : list mat)
    (lbl : list (list Z)) (wt : list (list Q)) (probs : option (list mat))
    (k : string) (v : Q * Q) :
  (_ComputeMetrics self lg lbl wt probs).1 !! k = Some v → k ∈ metric_names.
Proof.
  unfold _ComputeMetrics, metric_names.
  destruct (per_token_avg_loss (params self)); cbn zeta; cbn [fst];
    destruct (negb use_tpu); intros Hk;
    repeat (apply lookup_insert_Some in Hk as [[<- _] | [_ Hk]]);
    try (apply lookup_singleton_Some in Hk as [<- _]);
    set_solver.
Qed.

Lemma ComputeMetrics_has (self : AsrDecoderBase) (lg : list mat)
    (lbl : list (list Z)) (wt : list (list Q)) (probs : option (list mat))
    (k : string) :
  k = "loss" ∨ k = "log_pplx" →
  is_Some ((_ComputeMetrics self lg lbl wt probs).1 !! k).
Proof.
  unfold _ComputeMetrics.
  destruct (per_token_avg_loss (params self)); cbn zeta; cbn [fst];
    destruct (negb use_tpu); intros [-> | ->];
    rewrite ?lookup_insert_ne by done;
    rewrite ?lookup_insert_eq, ?lookup_singleton_eq; eauto.
Qed.

(** One head merged. *)
Lemma merge_head_Ok (self : AsrDecoderBase) (predictions : Predictions)
    (targets : Targets) (probs : option (list mat))
    (M : gmap string (Q * Q)) (P : PerSequenceLoss) (n : string) (w : Q)
    (hm : gmap string (Q * Q) * list Q) :
  head_metrics self predictions targets probs n = Ok hm →
  merge_head self predictions targets probs (M, P) (n, w)
  = Ok (foldl (merge_metric n w) M (map_to_list hm.1),
        add_per_sequence_loss P w hm.2).
Proof.
  unfold head_metrics, merge_head. intros H.
  destruct (predictions_getattr predictions n) as [lg|]; [|done].
  cbn [mbind result_bind] in *. injection H as <-.
  by destruct (_ComputeMetrics _ _ _ _ _).
Qed.

Lemma head_metrics_keys (self : AsrDecoderBase) (predictions : Predictions)
    (targets : Targets) (probs : option (list mat)) (n : string)
    (hm : gmap string (Q * Q) * list Q) :
  head_metrics self predictions targets probs n = Ok hm →
  (∀ k v, (k, v) ∈ map_to_list hm.1 → k ∈ metric_names)
  ∧ (∀ k, k = "loss" ∨ k = "log_pplx" → is_Some (hm.1 !! k)).
Proof.
  unfold head_metrics. intros H.
  destruct (predictions_getattr predictions n) as [lg|]; [|done].
  cbn [mbind result_bind] in H. injection H as <-. split.
  - intros k v Hin. apply elem_of_map_to_list in Hin.
    by eapply ComputeMetrics_keys.
  - intros k Hk. by apply ComputeMetrics_has.
Qed.

(** The loop over the logit heads, from any accumulator. *)
Lemma merge_heads_spec (self : AsrDecoderBase) (predictions : Predictions)
    (targets : Targets) (probs : option (list mat))
    (heads : list (string * Q))
    (hms : list (gmap string (Q * Q) * list Q)) :
  Forall2 (λ h hm, head_metrics self predictions targets probs h.1 = Ok hm)
    heads hms →
  NoDup heads.*1 →
  ∀ M P, ∃ M' P',
    merge_heads self predictions targets probs heads (M, P) = Ok (M', P')
    ∧ (∀ x, (∀ h k, h ∈ heads → k ∈ metric_names →
               x ≠ k ∧ x ≠ k +:+ "/" +:+ h.1) →
            M' !! x = M !! x)
    ∧ (∀ i h hm k v,
         heads !! i = Some h → hms !! i = Some hm → hm.1 !! k = Some v →
         M' !! (k +:+ "/" +:+ h.1) = Some v)
    ∧ (∀ k, k = "loss" ∨ k = "log_pplx" →
         (is_Some (M !! k) ∨ heads ≠ [] → is_Some (M' !! k))
         ∧ ((default (0, 0) (M' !! k)).1
            == (default (0, 0) (M !! k)).1
               + Qsum (zip_with (λ h hm, h.2 * (hm.1 !!! k).1) heads hms))%Q
         ∧ ((default (0, 0) (M' !! k)).2
            == (default (0, 0) (M !! k)).2
               + Qsum (zip_with (λ h hm, h.2 * (hm.1 !!! k).2) heads hms))%Q).
Proof.
  induction 1 as [|[n w] hm heads hms Hh HF IH]; intros Hnd M P.
  { exists M, P. split; [done|]. split; [done|].
    split; [intros i h hm k v Hi; by rewrite lookup_nil in Hi|].
    intros k Hk. split; [intros [?|?]; done|]. cbn. split; ring. }
  cbn [fmap list_fmap fst] in Hnd. apply NoDup_cons in Hnd as [Hn Hnd].
  cbn [merge_heads fst]. cbn [fst] in Hh.
  rewrite (merge_head_Ok _ _ _ _ _ _ _ _ _ Hh). cbn [mbind result_bind].
  destruct (head_metrics_keys _ _ _ _ _ _ Hh) as [Hkeys Hhas].
  pose proof (NoDup_fst_map_to_list hm.1) as Hitems.
  set (M1 := foldl (merge_metric n w) M (map_to_list hm.1)).
  destruct (IH Hnd M1 (add_per_sequence_loss P w hm.2))
    as (M' & P' & -> & Hother & Hslash & Hplain).
  exists M', P'. split; [done|]. split; [|split].
  - intros x Hx. rewrite Hother.
    + apply merge_fold_other. intros k v Hin.
      apply (Hx (n, w) k); [left | by eapply Hkeys].
    + intros h k Hin Hk. apply Hx; [by right | done].
  - intros i h hm' k v Hi Hi' Hv. destruct i as [|i].
    + cbn in Hi, Hi'. injection Hi as <-. injection Hi' as <-. cbn [fst].
      assert ((k, v) ∈ map_to_list hm.1) as Hin
        by (by apply elem_of_map_to_list).
      rewrite Hother; [by apply merge_fold_slash|].
      intros h' k' Hh' Hk'. split.
      * apply metric_names_slash_ne; [by eapply Hkeys | done].
      * intros Heq.
        apply metric_names_slash_inj in Heq as [_ ->];
          [|by eapply Hkeys | done].
        apply Hn. by apply list_elem_of_fmap_2.
    + by eapply Hslash.
  - intros k Hk. destruct (Hplain k Hk) as (Hsome & H1 & H2).
    destruct (Hhas k Hk) as [v Hv].
    assert (M1 !! k = Some (AddToMetric (default (0%Q, 0%Q) (M !! k)) w v))
      as HM1.
    { apply merge_fold_plain; [done | done|]. by apply elem_of_map_to_list. }
    split; [intros _; apply Hsome; left; by rewrite HM1|].
    rewrite H1, H2, HM1. cbn [zip_with Qsum foldr default fst snd AddToMetric].
    rewrite (lookup_total_correct _ _ _ Hv).
    match goal with
    | |- context [foldr Qplus 0%Q ?l] => fold (Qsum l)
    end.
    match goal with
    | |- context [foldr Qplus 0%Q ?l] => fold (Qsum l)
    end.
    unfold Datatypes.id, AddToMetric. cbn [fst snd]. split; ring.
Qed.

Lemma merge_heads_Raise (self : AsrDecoderBase) (predictions : Predictions)
    (targets : Targets) (probs : option (list mat))
    (heads : list (string * Q)) (n : string) (w : Q) (e : exn) :
  (n, w) ∈ heads → predictions_getattr predictions n = Raise e →
  ∀ acc, ∃ e', merge_heads self predictions targets probs heads acc
               = Raise e'.
Proof.
  intros Hin He. induction heads as [|h heads IH]; intros acc.
  { by apply elem_of_nil in Hin. }
  cbn [merge_heads].
  destruct (merge_head self predictions targets probs acc h) as [acc'|e']
    eqn:Hh; cbn [mbind result_bind]; [|eauto].
  apply elem_of_cons in Hin as [<- | Hin]; [|by apply IH].
  unfold merge_head in Hh. destruct acc as [M P]. rewrite He in Hh. done.
Qed.

(** X19 — the merged metrics are the weighted sums over the logit heads.
    When every logit head named by [logit_types] is a field of the
    predictions, the merged metrics keep every metric of every head under
    the name of the metric, a slash and the name of the head, and the
    merged [loss] and [log_pplx] are, value and weight, the sums over the
    heads of the weight of the head times the head's own. *)
Theorem merged_metrics_weighted_sum
    (smoother_FProp : mat → list (list Z) → list (list Z) → list mat)
    (self : AsrDecoderBase) (predictions : Predictions) (targets : Targets)
    (hms : list (gmap string (Q * Q) * list Q)) :
  let heads := logit_types (params self) in
  let probs := smoothed_target_probs smoother_FProp self targets in
  NoDup heads.*1 →
  Forall2 (λ h hm, head_metrics self predictions targets probs h.1 = Ok hm)
    heads hms →
  ∃ merged per_sequence,
    ComputeMetricsAndPerSequenceLoss smoother_FProp self predictions targets
    = Ok (merged, per_sequence)
    ∧ (∀ i h hm k v,
         heads !! i = Some h → hms !! i = Some hm → hm.1 !! k = Some v →
         merged !! (k +:+ "/" +:+ h.1) = Some v)
    ∧ (heads ≠ [] →
       ∀ k, k = "loss" ∨ k = "log_pplx" →
         ∃ acc, merged !! k = Some acc
           ∧ (acc.1
              == Qsum (zip_with (λ h hm, h.2 * (hm.1 !!! k).1) heads hms))%Q
           ∧ (acc.2
              == Qsum (zip_with (λ h hm, h.2 * (hm.1 !!! k).2) heads hms))%Q).
Proof.
  intros heads probs Hnd HF.
  destruct (merge_heads_spec _ _ _ _ _ _ HF Hnd ∅ (PyFloat 0))
    as (M' & P' & Hm & _ & Hslash & Hplain).
  exists M', P'. split; [exact Hm|]. split; [exact Hslash|].
  intros Hne k Hk. destruct (Hplain k Hk) as (Hsome & H1 & H2).
  destruct Hsome as [acc Hacc]; [by right|].
  exists acc. split; [done|]. rewrite Hacc, lookup_empty in H1, H2.
  cbn [default fst snd] in H1, H2. rewrite H1, H2. split; ring.
Qed.

(** X20 — one head.  With [logit_types] naming the head [logits] only, as
    by default, the loss is computed whenever there are predictions: the
    merged metrics hold every metric of the logits twice, as it is under
    the name followed by [/logits], and scaled by the weight of the head
    under the name itself; the merged per-sequence loss is the per-sequence
    loss scaled likewise. *)
Theorem single_head_loss
    (smoother_FProp : mat → list (list Z) → list (list Z) → list mat)
    (self : AsrDecoderBase) (predictions : Predictions) (targets : Targets)
    (w : Q) :
  logit_types (params self) = [("logits", w)] →
  let hm :=
    _ComputeMetrics self (predictions_logits predictions) (labels targets)
      (weights targets) (smoothed_target_probs smoother_FProp self targets) in
  ∃ merged per_sequence,
    ComputeMetricsAndPerSequenceLoss smoother_FProp self predictions targets
    = Ok (merged, PerSequence per_sequence)
    ∧ ComputeLoss smoother_FProp self predictions targets = Ok merged
    ∧ Forall2 (λ a b, (a == w * b)%Q) per_sequence hm.2
    ∧ ∀ k v, hm.1 !! k = Some v →
        merged !! (k +:+ "/" +:+ "logits") = Some v
        ∧ ∃ v', merged !! k = Some v'
                ∧ (v'.1 == w * v.1)%Q ∧ (v'.2 == w * v.2)%Q.
Proof.
  intros Hlt hm.
  assert (head_metrics self predictions targets
            (smoothed_target_probs smoother_FProp self targets) "logits"
          = Ok hm) as Hh by done.
  assert (ComputeMetricsAndPerSequenceLoss smoother_FProp self predictions
            targets
          = Ok (foldl (merge_metric "logits" w) ∅ (map_to_list hm.1),
                add_per_sequence_loss (PyFloat 0) w hm.2)) as Hc.
  { unfold ComputeMetricsAndPerSequenceLoss. rewrite Hlt.
    cbn [merge_heads].
    fold (smoothed_target_probs smoother_FProp self targets).
    by rewrite (merge_head_Ok _ _ _ _ _ _ _ _ _ Hh). }
  destruct (head_metrics_keys _ _ _ _ _ _ Hh) as [Hkeys _].
  pose proof (NoDup_fst_map_to_list hm.1) as Hitems.
  eexists _, _. split; [exact Hc|]. split; [|split].
  - unfold ComputeLoss. by rewrite Hc.
  - apply Forall2_fmap_l, Forall_Forall2_diag, Forall_forall.
    intros x _. unfold compose. ring.
  - intros k v Hv. apply elem_of_map_to_list in Hv.
    split; [by apply merge_fold_slash|].
    eexists. split; [by apply merge_fold_plain|].
    rewrite lookup_empty. unfold AddToMetric. cbn [default fst snd].
    split; ring.
Qed.

End LossExtras.

(** ** The unrollers *)

Ltac inv_bind H :=
  apply bind_Ok in H; destruct H as (? & _ & H);
  repeat match type of H with
         | context [match ?x with pair _ _ => _ end] => destruct x
         end.

Section UnrollExtras.
Context `{L : Layers}.

Lemma ComputePredictionsDynamic_fields (self : AsrDecoderBase) (gstep : Z)
    (source_encs : list mat) (source_paddings : mat) (targets : Targets)
    (pr : Predictions) :
  ComputePredictionsDynamic self gstep source_encs source_paddings targets
    = Ok pr →
  predictions_logits_without_bias pr = None.
Proof.
  unfold ComputePredictionsDynamic. intros H.
  do 6 inv_bind H.
  unfold _GetPredictionFromSequenceOutTensorArrays in H.
  do 2 inv_bind H. by injection H as <-.
Qed.

Lemma ComputePredictionsFunctional_fields (self : AsrDecoderBase) (gstep : Z)
    (source_encs : list mat) (source_paddings : mat) (targets : Targets)
    (pr : Predictions) :
  ComputePredictionsFunctional self gstep source_encs source_paddings targets
    = Ok pr →
  is_Some (predictions_logits_without_bias pr).
Proof.
  unfold ComputePredictionsFunctional. intros H.
  do 6 inv_bind H. injection H as <-. cbn. eauto.
Qed.

Lemma ta_write_read {A} (ta ta' : TensorArray A) (t : nat) (x : A) :
  ta_write ta t x = Ok ta' →
  ta_read ta' t = Ok x ∧ length ta' = length ta
  ∧ ∀ t', t' ≠ t → ta' !! t' = ta !! t'.
Proof.
  unfold ta_write, ta_read. intros H.
  destruct (decide (t < length ta)%nat) as [Ht|]; [|done].
  injection H as <-. rewrite list_lookup_insert_eq by done.
  split; [done|]. split; [apply length_insert|].
  intros t' Ht'. by apply list_lookup_insert_ne.
Qed.

Lemma Qsum_one_minus (l : list Q) :
  (Qsum ((λ x, 1 - x) <$> l) == inject_Z (Z.of_nat (length l)) - Qsum l)%Q.
Proof.
  induction l as [|a l IH]; [reflexivity|].
  cbn [fmap list_fmap Qsum foldr length].
  fold (fmap (M := list) (λ x : Q, 1 - x)%Q l).
  fold (Qsum ((λ x : Q, 1 - x)%Q <$> l)). fold (Qsum l).
  rewrite IH, Nat2Z.inj_succ. unfold Z.succ. rewrite inject_Z_plus. ring.
Qed.

Lemma first_column_empty_row (target_ids : list (list Z)) (bs : nat) :
  [] ∈ target_ids → first_column target_ids bs = Raise IndexError.
Proof.
  intros Hin. unfold first_column.
  assert (mapM (λ row : list Z, py_index row 0) target_ids
          = Raise IndexError) as ->; [|done].
  induction target_ids as [|row rows IH]; [by apply elem_of_nil in Hin|].
  apply elem_of_cons in Hin. cbn [mapM].
  destruct row as [|x row]; [done|].
  destruct Hin as [|Hin]; [done|].
  cbn [py_index lookup list_lookup mbind result_bind].
  rewrite (IH Hin). done.
Qed.

Lemma predictions_getattr_without_bias (predictions : Predictions) :
  predictions_logits_without_bias predictions = None →
  predictions_getattr predictions "logits_without_bias"
  = Raise (AttributeError "logits_without_bias").
Proof.
  intros H. unfold predictions_getattr.
  rewrite decide_False by done. rewrite decide_True by done.
  by rewrite H.
Qed.

(** The body of the graph loop of a decoder configured for the
    function-based unroller stops at the logits the state does not hold. *)
Lemma LoopBody_without_flag (self : AsrDecoderBase) (packed_src : PackedSrc)
    (t : nat) (s : DecoderStepState) (f : FusionState) (tas : TargetInfoTas)
    (x : Slice) (o : SequenceOutTensorArrays) :
  use_while_loop_based_unrolling (params self) = false →
  (min_ground_truth_prob (params self) == 1)%Q →
  Qltb 0 (_max_label_prob self) = false →
  (0 <= dropout_prob (params self))%Q → (dropout_prob (params self) < 1)%Q →
  rnn_cell ≠ [] → length (rnn_states s) = length rnn_cell →
  fusion_states s = Some f →
  tas_hold tas t [x] →
  _LoopBody self packed_src (t, s, tas, o) = Raise (AttributeError "logits").
Proof.
  intros Hw Hmin Hss H0 H1 Hne Hlen Hfs Hh. unfold _LoopBody.
  rewrite (TargetsToBeFed_no_sampling self t s tas x Hss Hh).
  cbn [mbind result_bind]. rewrite Hfs. cbn [getattr mbind result_bind].
  destruct (FPropLm _ _ _ _) as [lm f1].
  destruct (FuseEmb _ _ _ _) as [e f2].
  match goal with
  | |- context [SingleDecodeStep self packed_src ?c s None false] =>
      destruct (SingleDecodeStep_total self packed_src c s None false H0 H1
                  Hne Hlen) as (so & s1 & -> & _ & _ & _ & Hlg1 & _)
  end.
  cbn [mbind result_bind].
  destruct (FuseOutput _ _ _ _) as [fo f3].
  rewrite PostStep_functional by done. cbn [mbind result_bind].
  cbn [bump_time_step set_misc_states set_fusion_states fusion_states logits
       getattr mbind result_bind].
  by rewrite Hlg1.
Qed.

(** X21 — [logits_without_bias] comes from the function-based unroller
    only.  The predictions of the function-based unroller hold
    [logits_without_bias]; those of the graph loop do not, so that a
    training pass whose [logit_types] names that head raises: an
    [AttributeError] when it is the first head. *)
Theorem logits_without_bias_by_unroller
    (smoother_FProp : mat → list (list Z) → list (list Z) → list mat)
    (self : AsrDecoderBase) (gstep : Z) (source_encs : list mat)
    (source_paddings : mat) (targets : Targets) (predictions : Predictions) :
  ComputePredictions self gstep source_encs source_paddings targets
    = Ok predictions →
  let p := params self in
  (use_while_loop_based_unrolling p = false →
   is_Some (predictions_logits_without_bias predictions))
  ∧ (use_while_loop_based_unrolling p = true →
     predictions_logits_without_bias predictions = None
     ∧ (∀ w rest, logit_types p = ("logits_without_bias", w) :: rest →
          decoder_FProp smoother_FProp self gstep source_encs source_paddings
            targets
          = Raise (AttributeError "logits_without_bias"))
     ∧ (∀ w, ("logits_without_bias", w) ∈ logit_types p →
          ∃ e, decoder_FProp smoother_FProp self gstep source_encs
                 source_paddings targets = Raise e)).
Proof.
  intros Hcp p. subst p. pose proof Hcp as H. unfold ComputePredictions in H.
  apply bind_Ok in H. destruct H as (pr & Hpr & H). injection H as <-.
  cbn [predictions_logits_without_bias].
  destruct (use_while_loop_based_unrolling (params self)).
  - split; [done|]. intros _.
    pose proof (ComputePredictionsDynamic_fields _ _ _ _ _ _ Hpr) as Hnone.
    split; [done|].
    set (pred := {| predictions_logits := predictions_logits pr;
                    predictions_logits_without_bias :=
                      predictions_logits_without_bias pr;
                    predictions_attention_probs :=
                      predictions_attention_probs pr;
                    predictions_source_enc_len := _ |}) in *.
    assert (predictions_getattr pred "logits_without_bias"
            = Raise (AttributeError "logits_without_bias")) as Hget
      by (by apply predictions_getattr_without_bias).
    split.
    + intros w rest Hlt. unfold decoder_FProp. rewrite Hcp.
      cbn [mbind result_bind].
      unfold ComputeLoss, ComputeMetricsAndPerSequenceLoss. rewrite Hlt.
      cbn [merge_heads]. unfold merge_head. rewrite Hget. done.
    + intros w Hin. unfold decoder_FProp. rewrite Hcp.
      cbn [mbind result_bind].
      unfold ComputeLoss, ComputeMetricsAndPerSequenceLoss.
      match goal with
      | |- context [merge_heads self pred targets ?pb ?hs ?acc] =>
          destruct (merge_heads_Raise self pred targets pb hs _ _ _ Hin Hget
                      acc) as [e ->]
      end.
      cbn [mbind result_bind]. eauto.
  - split; [|done]. intros _.
    by eapply ComputePredictionsFunctional_fields.
Qed.

(** X22 — scheduled sampling needs a first token.  With scheduled
    sampling on, the zero state takes the first token of every target
    sequence as the previous prediction.  Over targets one of whose
    sequences is empty (a batch of zero time steps), the zero state is not
    built, so that the graph loop raises, and so does [ComputePredictions]
    when the graph loop is the unroller. *)
Theorem sampling_needs_first_token (self : AsrDecoderBase) (gstep : Z)
    (source_encs : list mat) (source_paddings : mat) (targets : Targets) :
  (0 < _max_label_prob self)%Q →
  [] ∈ ids targets →
  (∃ e, DecoderStepZeroState self gstep source_encs source_paddings
          (ids targets) (length (ids targets)) = Raise e)
  ∧ (∃ e, ComputePredictionsDynamic self gstep source_encs source_paddings
            targets = Raise e)
  ∧ (use_while_loop_based_unrolling (params self) = true →
     ∃ e, ComputePredictions self gstep source_encs source_paddings targets
          = Raise e).
Proof.
  intros Hss Hin. apply Qltb_true in Hss.
  assert (∃ e, DecoderStepZeroState self gstep source_encs source_paddings
                 (ids targets) (length (ids targets)) = Raise e) as Hzero.
  { unfold DecoderStepZeroState, MiscZeroState. rewrite Hss.
    rewrite first_column_empty_row by done. cbn [mbind result_bind]. eauto. }
  assert (∃ e, ComputePredictionsDynamic self gstep source_encs
                 source_paddings targets = Raise e) as Hdyn.
  { unfold ComputePredictionsDynamic.
    destruct (_ApplyDropout _ _ _ _ _) as [embs|]; cbn [mbind result_bind];
      [|eauto].
    destruct (_GetInitialTargetInfo _ _ _) as [tas|];
      cbn [mbind result_bind]; [|eauto].
    destruct Hzero as [e ->]. cbn [mbind result_bind]. eauto. }
  split; [exact Hzero|]. split; [exact Hdyn|].
  intros Hw. unfold ComputePredictions. rewrite Hw.
  destruct Hdyn as [e ->]. cbn [mbind result_bind]. eauto.
Qed.

(** X23 — the graph loop needs its flag.  On a decoder configured for the
    function-based unroller (no scheduled sampling, dropout off), the graph
    loop over targets of at least one step raises an [AttributeError] in
    its first iteration: the state update stores logits only under
    [use_while_loop_based_unrolling]. *)
Theorem graph_loop_needs_its_flag (self : AsrDecoderBase) (gstep : Z)
    (source_encs : list mat) (source_paddings : mat) (targets : Targets) :
  use_while_loop_based_unrolling (params self) = false →
  (min_ground_truth_prob (params self) == 1)%Q →
  (_max_label_prob self <= 0)%Q →
  dropout_inactive (params self) →
  rnn_layers (params self) = length rnn_cell → rnn_cell ≠ [] →
  wf_targets targets →
  (0 < length (default [] (head (ids targets))))%nat →
  ComputePredictionsDynamic self gstep source_encs source_paddings targets
  = Raise (AttributeError "logits").
Proof.
  intros Hw Hmin Hss (H0 & H1 & Hin) Hl Hne Hwf Hpos.
  apply Qltb_false in Hss.
  destruct (DecoderStepZeroState_Ok self gstep source_encs source_paddings
              (ids targets) (length (ids targets)) Hss Hl)
    as (s0 & packed_src & Hzero & Hst0 & _).
  destruct Hst0 as (Hfs0 & Hlg0 & Hrs0 & Hprev0 & Hgp0).
  destruct (time_major_lengths targets Hwf) as (HI & HL & HW & HE & HP).
  set (T := length (default [] (head (ids targets)))) in *.
  unfold ComputePredictionsDynamic. fold T.
  rewrite ApplyDropout_inactive by done. cbn [mbind result_bind].
  unfold _GetInitialTargetInfo.
  rewrite !ToTensorArray_Ok by done. cbn [mbind result_bind].
  rewrite Hzero. cbn [mbind result_bind]. rewrite Hfs0.
  cbn [getattr mbind result_bind].
  pose proof (tas_hold_slices _ _ _ _ _ T HI HL HW HE HP
                (CreateTargetInfoMisc targets)) as Hhold.
  fold (time_slices targets) in Hhold.
  assert (length (time_slices targets) = T) as HTs
    by by apply length_time_slices.
  destruct (time_slices targets) as [|x xs] eqn:Hxs; [simpl in HTs; lia|].
  apply tas_hold_cons in Hhold as [Hhold _].
  destruct T as [|T']; [lia|].
  cbn [tf_while_loop _LoopContinue Nat.ltb Nat.leb].
  rewrite (LoopBody_without_flag self packed_src 0 s0 _ _ x _ Hw Hmin Hss H0
             H1 Hne Hrs0 Hfs0 Hhold).
  done.
Qed.

(** X24 — [source_enc_len].  [ComputePredictions] adds to the predictions
    of the unroller the length of every source sequence: for example [b]
    of a rectangular [[time, batch]] padding tensor, the number of frames
    minus the sum of its paddings, which is the number of frames not
    padded when paddings are 0 or 1. *)
Theorem source_enc_len_counts_frames (self : AsrDecoderBase) (gstep : Z)
    (source_encs : list mat) (source_paddings : mat) (targets : Targets)
    (predictions : Predictions) :
  let B := length (default [] (head source_paddings)) in
  ComputePredictions self gstep source_encs source_paddings targets
    = Ok predictions →
  Forall (λ r, length r = B) source_paddings →
  ∃ lens,
    predictions_source_enc_len predictions = Some lens
    ∧ length lens = B
    ∧ ∀ b, (b < B)%nat →
        (lens !!! b
         == inject_Z (Z.of_nat (length source_paddings))
            - Qsum ((λ r : vec, r !!! b) <$> source_paddings))%Q.
Proof.
  intros B H Hrows. unfold ComputePredictions in H.
  apply bind_Ok in H. destruct H as (pr & _ & H). injection H as <-.
  cbn [predictions_source_enc_len].
  set (flipped := (λ row : vec, (λ x, 1 - x)%Q <$> row) <$> source_paddings).
  assert (length (default [] (head flipped)) = B) as Hhead.
  { subst flipped B. destruct source_paddings; [done|].
    simpl. by rewrite length_fmap. }
  assert (Forall (λ r, length r = B) flipped) as Hrows'.
  { subst flipped. apply Forall_fmap. eapply Forall_impl; [exact Hrows|].
    intros r Hr. simpl. by rewrite length_fmap. }
  eexists. split; [done|].
  split; [by rewrite length_fmap, length_tf_transpose|].
  intros b Hb.
  assert ((Qsum <$> tf_transpose flipped) !! b
          = Some (Qsum ((λ r : vec, r !!! b) <$> flipped))) as Hb'.
  { rewrite list_lookup_fmap.
    by rewrite (tf_transpose_lookup flipped B b Hrows' Hhead Hb). }
  rewrite (list_lookup_total_correct _ _ _ Hb').
  subst flipped.
  transitivity
    (Qsum ((λ x, 1 - x)%Q <$> ((λ r : vec, r !!! b) <$> source_paddings))).
  - rewrite <- !list_fmap_compose. apply Qsum_Forall2.
    apply Forall2_fmap, Forall_Forall2_diag.
    eapply Forall_impl; [exact Hrows|]. intros r Hr. unfold compose.
    cbn beta in Hr.
    rewrite (@list_lookup_total_fmap Q Q _ Q_inhabited Q_inhabited r b)
      by lia.
    reflexivity.
  - rewrite Qsum_one_minus, length_fmap. reflexivity.
Qed.

(** X25 — one step written to the output arrays.  When
    [_UpdateSequenceOutTensorArrays] returns, the state held logits, and
    reading the new arrays at [time] gives those logits, the step output
    and the attention probabilities of the state; every other slot of
    these arrays is as before.  It returns only if there is one array of
    recurrent outputs per recurrent state: otherwise the assertion
    fails. *)
Theorem UpdateSequenceOut_writes_step (s : DecoderStepState) (time : nat)
    (step_outs : mat) (o : SequenceOutTensorArrays) :
  (length (rnn_outs o) ≠ length (rnn_states s) →
   _UpdateSequenceOutTensorArrays s time step_outs o
   = Raise (AssertionError ""))
  ∧ ∀ o', _UpdateSequenceOutTensorArrays s time step_outs o = Ok o' →
      length (rnn_outs o) = length (rnn_states s)
      ∧ (∃ lg, logits s = Some (FloatLeaf lg)
               ∧ ta_read (logits_ta o') time = Ok lg)
      ∧ ta_read (step_outs_ta o') time = Ok step_outs
      ∧ ta_read (atten_probs_ta o') time = Ok (atten_probs s)
      ∧ ∀ t, t ≠ time →
          logits_ta o' !! t = logits_ta o !! t
          ∧ step_outs_ta o' !! t = step_outs_ta o !! t
          ∧ atten_probs_ta o' !! t = atten_probs_ta o !! t.
Proof.
  unfold _UpdateSequenceOutTensorArrays. split.
  { intros Hne. apply Nat.eqb_neq in Hne. by rewrite Hne. }
  intros o' H.
  apply bind_Ok in H. destruct H as (? & Hassert & H).
  apply py_assert_Ok, Nat.eqb_eq in Hassert.
  apply bind_Ok in H. destruct H as (ro & _ & H).
  apply bind_Ok in H. destruct H as (lf & Hlf & H).
  apply bind_Ok in H. destruct H as (lg & Hlg & H).
  apply bind_Ok in H. destruct H as (lta & Hlta & H).
  apply bind_Ok in H. destruct H as (sta & Hsta & H).
  apply bind_Ok in H. destruct H as (ata & Hata & H).
  apply bind_Ok in H. destruct H as (fs & _ & H).
  apply bind_Ok in H. destruct H as (fta & _ & H).
  apply bind_Ok in H. destruct H as (mta & _ & H).
  injection H as <-. cbn [logits_ta step_outs_ta atten_probs_ta].
  destruct (logits s) as [[ids|lgf]|]; cbn [getattr] in Hlf;
    [injection Hlf as <-; done | | done].
  injection Hlf as <-. cbn [as_float] in Hlg. injection Hlg as <-.
  unfold _GetNewAttenProbs in Hata.
  destruct (ta_write_read _ _ _ _ Hlta) as (Hr1 & _ & Ho1).
  destruct (ta_write_read _ _ _ _ Hsta) as (Hr2 & _ & Ho2).
  destruct (ta_write_read _ _ _ _ Hata) as (Hr3 & _ & Ho3).
  split; [done|]. split; [eauto|]. split; [done|]. split; [done|].
  intros t Ht. auto.
Qed.

End UnrollExtras.

(** * Instances *)

Lemma groundtruth_p_schedule_witness :
  ∃ g1 g2 : Q,
    ((5000 ≤ 505000)%Z → (g2 <= g1)%Q)
    ∧ (min_ground_truth_prob (Toy.hparams 1 0 0 0.5 true) <= g1)%Q
    ∧ ((inject_Z 5000 <= prob_decay_start_step (Toy.hparams 1 0 0 0.5 true))%Q
       → (g1 == 1)%Q).
Proof.
  eexists _, _.
  eapply (groundtruth_p_schedule (L := Toy.one_sum)
            (Toy.hparams 1 0 0 0.5 true) _ 5000 505000 [[1%Z]] 1).
  - reflexivity.
  - reflexivity.
  - reflexivity.
  - reflexivity.
  - reflexivity.
Defined.

(** [__init__] accepts scheduled sampling together with the function-based
    unroller. *)
Lemma init_accepts_sampling_with_functional_unroller :
  (min_ground_truth_prob (Toy.hparams 1 0 0 0.5 false) < 1)%Q
  ∧ use_while_loop_based_unrolling (Toy.hparams 1 0 0 0.5 false) = false
  ∧ __init__ (L := Toy.one_sum) (Toy.hparams 1 0 0 0.5 false)
    = Ok (Toy.decoder 1 0 0 0.5 false).
Proof. split; [reflexivity | split; reflexivity]. Qed.

Lemma scheduled_sampling_functional_fails_at_call_witness :
  ComputePredictions (L := Toy.one_sum) (Toy.decoder 1 0 0 0.5 false) 0
    [[[1%Q]; [1%Q]]] [[0%Q; 0%Q]] (Toy.targets Toy.one_sum None)
  = Raise (AssertionError "")
  ∧ PostStepDecoderStateUpdate (L := Toy.one_sum)
      (Toy.decoder 1 0 0 0.5 false) (Toy.state Toy.one_sum [[[0%Q]]] tt None None) None
    = Raise (ValueError "SS is not yet supported").
Proof.
  apply (scheduled_sampling_functional_fails_at_call (L := Toy.one_sum)
           (Toy.hparams 1 0 0 0.5 false)).
  - reflexivity.
  - reflexivity.
  - reflexivity.
Defined.

(** Three layers, [residual_start = 2], dropout off, cells putting out 1, 10
    and 100: the layers put out 1, 11 and 111, not 1, 10 and 110. *)
Lemma residual_scenario_counterexample :
  layer_outputs (L := Toy.three_const) (Toy.decoder 3 2 0 1 true) tt
    (Toy.target Toy.three_const 1) (Toy.state Toy.three_const [[[0]]; [[0]]; [[0]]]%Q tt None None) None false
  = Ok [[[1]]; [[11]]; [[111]]]%Q
  ∧ ¬ residual_scenario_as_stated (L := Toy.three_const)
        (Toy.decoder 3 2 0 1 true) tt (Toy.target Toy.three_const 1)
        (Toy.state Toy.three_const [[[0]]; [[0]]; [[0]]]%Q tt None None).
Proof.
  split; [reflexivity|].
  intros H.
  specialize (H (Toy.const_cell 1) (Toy.const_cell 10) (Toy.const_cell 100)
                [[0%Q]] [[0%Q]] [[0%Q]] _ _ eq_refl eq_refl eq_refl eq_refl
                eq_refl).
  discriminate H.
Qed.

Lemma residual_from_layer_two_witness :
  ∃ out1 out2 out3 ctx new_state,
    layer_outputs (L := Toy.three_sum) (Toy.decoder 3 2 0.5 1 true) tt
      (Toy.target Toy.three_sum 1) (Toy.state Toy.three_sum [[[0]]; [[0]]; [[0]]]%Q tt None None) None
      false
    = Ok [out1; out2; out3]
    ∧ SingleDecodeStep (L := Toy.three_sum) (Toy.decoder 3 2 0.5 1 true) tt
        (Toy.target Toy.three_sum 1) (Toy.state Toy.three_sum [[[0]]; [[0]]; [[0]]]%Q tt None None) None
        false
      = Ok (tf_concat1 out3 ctx, new_state).
Proof.
  destruct (residual_from_layer_two (L := Toy.three_sum)
              (Toy.decoder 3 2 0.5 1 true) tt (Toy.target Toy.three_sum 1)
              (Toy.state Toy.three_sum [[[0]]; [[0]]; [[0]]]%Q tt None None) false
              (Toy.sum_cell 1) (Toy.sum_cell 10) (Toy.sum_cell 100)
              [[0%Q]] [[0%Q]] [[0%Q]] _ _ _
              eq_refl eq_refl eq_refl eq_refl eq_refl eq_refl)
    as [H1 [new_state H2]].
  eexists _, _, _, _, _. split; [exact H1 | exact H2].
Defined.

(** Two layers and [residual_start = 1]: the first layer puts out 2, not 2
    plus its input, and the second 2 + 14. *)
Lemma first_layer_has_no_residual_witness :
  ∃ new_state,
    SingleDecodeStep (L := Toy.two_sum) (Toy.decoder 2 1 0 1 true) tt
      (Toy.target Toy.two_sum 1)
      (Toy.state Toy.two_sum [[[0]]; [[0]]]%Q tt None None) None false
    = Ok ([[16; 2]]%Q, new_state)
    ∧ layer_outputs (L := Toy.two_sum) (Toy.decoder 2 1 0 1 true) tt
        (Toy.target Toy.two_sum 1)
        (Toy.state Toy.two_sum [[[0]]; [[0]]]%Q tt None None) None false
      = Ok [[[2]]; [[16]]]%Q.
Proof.
  destruct (first_layer_has_no_residual (L := Toy.two_sum)
              (Toy.decoder 2 1 0 1 true) tt (Toy.target Toy.two_sum 1)
              (Toy.state Toy.two_sum [[[0]]; [[0]]]%Q tt None None) None false
              (Toy.sum_cell 1) [Toy.sum_cell 10] [[0%Q]] [[[0%Q]]]
              eq_refl eq_refl)
    as (outs & step_out & new_state & Hstep & Houts & Hlen & Hout & _ & _
        & _ & _ & Hsecond).
  - simpl. lia.
  - simpl. lra.
  - simpl. lra.
  - destruct (Hsecond (Toy.sum_cell 10) [[0%Q]] [[14%Q]] eq_refl eq_refl
                eq_refl) as [_ H0].
    destruct outs as [|o [|o' outs]]; [discriminate H0 | | discriminate Hlen].
    injection H0 as ->.
    exists new_state. split; [|exact Houts].
    rewrite Hstep, Hout. reflexivity.
Defined.

Lemma groundtruth_fed_when_p_is_one_witness :
  ∃ target_info,
    TargetsToBeFedAtCurrentDecodeStep (L := Toy.one_sum)
      (Toy.decoder 1 0 0 0.5 true) 0
      (Toy.state Toy.one_sum [[[0%Q]]] tt (Some [7%Z]) (Some 1%Q))
      {| id_ta := [Some [3%Z]]; label_ta := [Some [4%Z]];
         weight_ta := [Some [1%Q]]; emb_ta := [Some [[3%Q]]];
         padding_ta := [Some [[0%Q]]]; misc_ta := ∅ |}
    = Ok target_info
    ∧ id target_info = [3%Z]
    ∧ temb target_info = [[3%Q]].
Proof.
  eapply (groundtruth_fed_when_p_is_one (L := Toy.one_sum)
            (Toy.decoder 1 0 0 0.5 true) 0
            (Toy.state Toy.one_sum [[[0%Q]]] tt (Some [7%Z]) (Some 1%Q)) _
            [3%Z] [4%Z] [1%Q] [[3%Q]] [[0%Q]] 1%Q [7%Z]).
  - reflexivity.
  - reflexivity.
  - reflexivity.
  - reflexivity.
  - reflexivity.
  - reflexivity.
  - reflexivity.
  - reflexivity.
  - reflexivity.
  - reflexivity.
  - split; [reflexivity|]. simpl. repeat constructor; simpl; lra.
Defined.

Lemma step_misc_is_empty_witness :
  ∃ (target_info_tas : @TargetInfoTas Toy.one_sum)
    (target_info : @TargetInfo Toy.one_sum),
    misc target_info = ∅
    ∧ misc_ta target_info_tas
      = CreateTargetInfoMisc (Toy.targets Toy.one_sum (Some 7%Z))
    ∧ (∀ x, fst_bias_probs (Toy.targets Toy.one_sum (Some 7%Z))
            = Some x →
         misc_ta target_info_tas !! "fst_bias_probs" = Some x
         ∧ misc target_info !! "fst_bias_probs" = None).
Proof.
  eexists _, _.
  eapply (step_misc_is_empty (L := Toy.one_sum) (Toy.decoder 1 0 0 1 true)
            (Toy.targets Toy.one_sum (Some 7%Z)) 3
            (EmbLookup_targets (L := Toy.one_sum)
               (ids (Toy.targets Toy.one_sum None)))
            _ 0 (Toy.state Toy.one_sum [[[0%Q]; [0%Q]]] tt None None)).
  - reflexivity.
  - reflexivity.
Defined.

Lemma log_probs_by_flag_witness :
  ∃ results new_states logits,
    _PreBeamSearchStepCallback (L := Toy.one_sum) (Toy.decoder 1 0 0 1 true)
      [[[1%Q]]] [[0%Q]] [[1%Z]] (Toy.beam_states Toy.one_sum [[[0%Q]]] tt tt)
      1 = Ok (results, new_states)
    ∧ log_probs results = logits
    ∧ _PreBeamSearchStepCallback (L := Toy.one_sum)
        (with_params
           (set_use_unnormalized_logits_as_log_probs false
              (Toy.hparams 1 0 0 1 true))
           (Toy.decoder 1 0 0 1 true))
        [[[1%Q]]] [[0%Q]] [[1%Z]]
        (Toy.beam_states Toy.one_sum [[[0%Q]]] tt tt) 1
      = Ok ({| res_atten_probs := res_atten_probs results;
               log_probs := @tf_nn_log_softmax Toy.one_sum logits |},
            new_states).
Proof.
  destruct (log_probs_by_flag (L := Toy.one_sum) (Toy.decoder 1 0 0 1 true)
              [[[1%Q]]] [[0%Q]] [[1%Z]]
              (Toy.beam_states Toy.one_sum [[[0%Q]]] tt tt) 1 _ _ eq_refl)
    as [(softmax_input & H1 & H2 & H3) _].
  eexists _, _, _. split; [reflexivity | split; [exact H1 | exact H3]].
Defined.

Lemma per_token_avg_loss_formula_witness :
  ∃ loss,
    (_ComputeMetrics (L := Toy.one_sum) (Toy.decoder 1 0 0 1 true)
       Toy.logits4 (labels (Toy.targets Toy.one_sum None))
       (weights (Toy.targets Toy.one_sum None)) None).1
      !! "loss"
    = Some (loss, reduce_sum (weights (Toy.targets Toy.one_sum None)))
    ∧ (loss ==
       per_token_avg_loss_spec
         (per_example_loss (L := Toy.one_sum) Toy.logits4
            (labels (Toy.targets Toy.one_sum None)) None)
         (weights (Toy.targets Toy.one_sum None)))%Q.
Proof.
  apply (per_token_avg_loss_formula (L := Toy.one_sum)
           (Toy.decoder 1 0 0 1 true) Toy.logits4
           (labels (Toy.targets Toy.one_sum None))
           (weights (Toy.targets Toy.one_sum None)) None).
  reflexivity.
Defined.

(** Two layers, dropout at probability 0.5 in training mode, scheduled
    sampling off: the graph loop draws its dropout masks with
    [tf.nn.dropout], the scan with the deterministic dropout, and the logits
    differ. *)
Lemma dropout_unrollers_differ :
  ¬ logits_agree_as_stated (L := Toy.two_sum) (Toy.hparams 2 0 0.5 1 true)
      0 [[[1%Q]; [1%Q]]] [[0%Q; 0%Q]] (Toy.targets Toy.two_sum None).
Proof.
  intros H.
  destruct (ComputePredictions (L := Toy.two_sum)
              (Toy.decoder 2 0 0.5 1 true) 0 [[[1%Q]; [1%Q]]] [[0%Q; 0%Q]]
              (Toy.targets Toy.two_sum None)) as [dyn|] eqn:Hdyn;
    [|vm_compute in Hdyn; discriminate].
  destruct (ComputePredictions (L := Toy.two_sum)
              (Toy.decoder 2 0 0.5 1 false) 0 [[[1%Q]; [1%Q]]] [[0%Q; 0%Q]]
              (Toy.targets Toy.two_sum None)) as [fn|] eqn:Hfn;
    [|vm_compute in Hfn; discriminate].
  specialize (H (Toy.decoder 2 0 0.5 1 true) (Toy.decoder 2 0 0.5 1 false)
                dyn fn eq_refl eq_refl (Qeq_refl 1) Hdyn Hfn).
  vm_compute in Hdyn, Hfn.
  injection Hdyn as <-. injection Hfn as <-.
  discriminate H.
Qed.

Lemma unrollers_agree_witness :
  __init__ (L := Toy.two_sum)
    (set_use_while_loop_based_unrolling true (Toy.hparams 2 0 0 1 true))
  = Ok (with_params
          (set_use_while_loop_based_unrolling true (Toy.hparams 2 0 0 1 true))
          (Toy.decoder 2 0 0 1 true))
  ∧ __init__ (L := Toy.two_sum)
      (set_use_while_loop_based_unrolling false (Toy.hparams 2 0 0 1 true))
    = Ok (with_params
            (set_use_while_loop_based_unrolling false
               (Toy.hparams 2 0 0 1 true))
            (Toy.decoder 2 0 0 1 true))
  ∧ ∃ dyn fn,
      ComputePredictions (L := Toy.two_sum)
        (with_params
           (set_use_while_loop_based_unrolling true
              (Toy.hparams 2 0 0 1 true))
           (Toy.decoder 2 0 0 1 true))
        0 [[[1%Q]; [1%Q]]] [[0%Q; 0%Q]] (Toy.targets Toy.two_sum None)
      = Ok dyn
      ∧ ComputePredictions (L := Toy.two_sum)
          (with_params
             (set_use_while_loop_based_unrolling false
                (Toy.hparams 2 0 0 1 true))
             (Toy.decoder 2 0 0 1 true))
          0 [[[1%Q]; [1%Q]]] [[0%Q; 0%Q]] (Toy.targets Toy.two_sum None)
        = Ok fn
      ∧ predictions_logits dyn = predictions_logits fn
      ∧ predictions_attention_probs dyn = predictions_attention_probs fn.
Proof.
  apply (unrollers_agree (L := Toy.two_sum) (Toy.hparams 2 0 0 1 true)
           (Toy.decoder 2 0 0 1 true) 0 [[[1%Q]; [1%Q]]] [[0%Q; 0%Q]]
           (Toy.targets Toy.two_sum None)).
  - reflexivity.
  - reflexivity.
  - split; [simpl; lra | split; [simpl; lra | right; reflexivity]].
  - reflexivity.
  - reflexivity.
  - discriminate.
  - unfold wf_targets. simpl. repeat split; repeat constructor.
  - apply toy_softmax_timewise.
  - apply toy_fusion_seq_agrees.
  - apply toy_fusion_flat_static.
Defined.

(** With [softmax_uses_attention] unset (and dropout off) the function-based
    unroller strips the attention context from the step outputs before the
    softmax layer; the graph loop feeds them whole, and the logits differ. *)
Lemma softmax_without_attention_differs :
  ∀ dyn fn,
    ComputePredictions (L := Toy.two_sum) (Toy.decoder_with false 2 0 0 1 true)
      0 [[[1%Q]; [1%Q]]] [[0%Q; 0%Q]] (Toy.targets Toy.two_sum None) = Ok dyn →
    ComputePredictions (L := Toy.two_sum)
      (Toy.decoder_with false 2 0 0 1 false)
      0 [[[1%Q]; [1%Q]]] [[0%Q; 0%Q]] (Toy.targets Toy.two_sum None)
    = Ok fn →
    predictions_logits dyn = [[[-16; 16]; [-21; 21]; [-32; 32]];
                              [[-13; 13]; [-21; 21]; [-32; 32]]]%Q
    ∧ predictions_logits fn = [[[-14; 14]; [-17; 17]; [-24; 24]];
                               [[-12; 12]; [-17; 17]; [-24; 24]]]%Q.
Proof.
  intros dyn fn Hdyn Hfn. vm_compute in Hdyn, Hfn.
  injection Hdyn as <-. injection Hfn as <-. split; reflexivity.
Qed.

(** * Instances of the further properties *)

Lemma init_returns_only_if_witness :
  packed_input (Toy.hparams 1 0 0 1 true) = false
  ∧ softmax_input_dim (Toy.decoder 1 0 0 1 true) = 2%nat
  ∧ smoother_num_classes (Toy.decoder 1 0 0 1 true) = None.
Proof.
  destruct (init_returns_only_if (L := Toy.one_sum)
              (Toy.hparams 1 0 0 1 true) (Toy.decoder 1 0 0 1 true) eq_refl)
    as (H1 & _ & _ & _ & H5 & _ & H7).
  split; [exact H1 | split; [exact H5 | exact (H7 eq_refl)]].
Defined.

Lemma groundtruth_p_piecewise_witness :
  ∃ g : Q,
    ((1e4 <= inject_Z 505000)%Q → (inject_Z 505000 <= 1e6)%Q →
     (g == 1 - (1 - 0.5) * ((inject_Z 505000 - 1e4) / (1e6 - 1e4)))%Q)
    ∧ ((1e6 <= inject_Z 505000)%Q → (g == 0.5)%Q).
Proof.
  eexists.
  eapply (groundtruth_p_piecewise (L := Toy.one_sum)
            (Toy.hparams 1 0 0 0.5 true) _ 505000 [[1%Z]] 1).
  - reflexivity.
  - simpl. lra.
  - reflexivity.
  - reflexivity.
Defined.

Lemma PostStep_frame_witness :
  ∃ s',
    PostStepDecoderStateUpdate (L := Toy.one_sum)
      (Toy.decoder 1 0 0 0.5 true)
      (Toy.state Toy.one_sum [[[0%Q]]] tt (Some [7%Z]) (Some 1%Q))
      (Some (FloatLeaf [[1; 2]]%Q)) = Ok s'
    ∧ rnn_states s' = [[[0%Q]]]
    ∧ logits s' = Some (FloatLeaf [[1; 2]]%Q).
Proof.
  eexists. split; [reflexivity|].
  destruct (PostStep_frame (L := Toy.one_sum) (Toy.decoder 1 0 0 0.5 true)
              (Toy.state Toy.one_sum [[[0%Q]]] tt (Some [7%Z]) (Some 1%Q))
              _ (Some (FloatLeaf [[1; 2]]%Q)) eq_refl)
    as (H1 & _ & _ & _ & _ & _ & _ & _ & _ & H10).
  split; [exact H1 | exact (proj1 (H10 eq_refl))].
Defined.

Lemma teacher_forcing_feeds_columns_witness :
  ∃ tas,
    _GetInitialTargetInfo (L := Toy.one_sum) (Toy.targets Toy.one_sum None) 3
      (EmbLookup_targets (L := Toy.one_sum)
         (ids (Toy.targets Toy.one_sum None))) = Ok tas
    ∧ TargetsToBeFedAtCurrentDecodeStep (L := Toy.one_sum)
        (Toy.decoder 1 0 0 1 true) 1
        (Toy.state Toy.one_sum [[[0%Q]]] tt None None) tas
      = Ok {| id := [0; 1]%Z; label := Some [1; 1]%Z;
              weight := Some [1; 1]%Q; temb := [[0]; [1]]%Q;
              padding := [[0]; [0]]%Q; misc := ∅ |}.
Proof.
  destruct (teacher_forcing_feeds_columns (L := Toy.one_sum)
              (Toy.decoder 1 0 0 1 true) (Toy.targets Toy.one_sum None)
              (EmbLookup_targets (L := Toy.one_sum)
                 (ids (Toy.targets Toy.one_sum None)))
              (Toy.state Toy.one_sum [[[0%Q]]] tt None None))
    as (tas & Hinit & Hlt & _).
  - simpl. lra.
  - unfold wf_targets. simpl. repeat split; repeat constructor.
  - reflexivity.
  - repeat constructor.
  - exists tas. split; [exact Hinit|]. apply (Hlt 1%nat). simpl. lia.
Defined.

Lemma sampling_selects_per_example_witness :
  ∃ ti,
    TargetsToBeFedAtCurrentDecodeStep (L := Toy.one_sum)
      (Toy.decoder 1 0 0 0.5 true) 0
      (Toy.state Toy.one_sum [[[0%Q]]] tt (Some [7%Z]) (Some 0.25%Q))
      {| id_ta := [Some [3%Z]]; label_ta := [Some [4%Z]];
         weight_ta := [Some [1%Q]]; emb_ta := [Some [[3%Q]]];
         padding_ta := [Some [[0%Q]]]; misc_ta := ∅ |}
    = Ok ti
    ∧ label ti = Some [4%Z]
    ∧ id ti !! 0%nat = Some 7%Z
    ∧ temb ti !! 0%nat = Some [7%Q].
Proof.
  destruct (sampling_selects_per_example (L := Toy.one_sum)
              (Toy.decoder 1 0 0 0.5 true) 0
              (Toy.state Toy.one_sum [[[0%Q]]] tt (Some [7%Z]) (Some 0.25%Q))
              {| id_ta := [Some [3%Z]]; label_ta := [Some [4%Z]];
                 weight_ta := [Some [1%Q]]; emb_ta := [Some [[3%Q]]];
                 padding_ta := [Some [[0%Q]]]; misc_ta := ∅ |}
              [3%Z] [4%Z] [1%Q] [[3%Q]] [[0%Q]] 0.25%Q [7%Z])
    as (ti & Hti & Hl & _ & _ & Hsel).
  - simpl. lra.
  - reflexivity.
  - reflexivity.
  - reflexivity.
  - reflexivity.
  - reflexivity.
  - reflexivity.
  - reflexivity.
  - reflexivity.
  - reflexivity.
  - reflexivity.
  - exists ti. split; [exact Hti|]. split; [exact Hl|].
    destruct (Hsel 0%nat 0.5%Q eq_refl) as [_ Hge].
    apply Hge. unfold Qle. simpl. lia.
Defined.

Lemma SingleDecodeStep_frame_witness :
  ∃ step_out s1,
    SingleDecodeStep (L := Toy.two_sum) (Toy.decoder 2 1 0 1 true) tt
      (Toy.target Toy.two_sum 1)
      (Toy.state Toy.two_sum [[[0]]; [[0]]]%Q tt None None) None false
    = Ok (step_out, s1)
    ∧ length (rnn_states s1) = 2%nat
    ∧ misc_states s1
      = misc_states (Toy.state Toy.two_sum [[[0]]; [[0]]]%Q tt None None).
Proof.
  eexists _, _. split; [reflexivity|].
  destruct (SingleDecodeStep_frame (L := Toy.two_sum)
              (Toy.decoder 2 1 0 1 true) tt (Toy.target Toy.two_sum 1)
              (Toy.state Toy.two_sum [[[0]]; [[0]]]%Q tt None None) None
              false _ _ eq_refl) as (H1 & H2 & _).
  split; [exact H1 | exact H2].
Defined.

Lemma SingleDecodeStep_reads_witness :
  SingleDecodeStep (L := Toy.two_sum) (Toy.decoder 2 1 0 1 true) tt
    (Toy.target Toy.two_sum 1)
    (Toy.state Toy.two_sum [[[0]]; [[0]]]%Q tt None None) None false
  = SingleDecodeStep (L := Toy.two_sum) (Toy.decoder 2 1 0 1 true) tt
      (OverrideEmbedding (Toy.target Toy.two_sum 5) [[1%Q]])
      (set_step_outs (L := Toy.two_sum) (Some [[1%Q]])
         (set_logits (L := Toy.two_sum) (Some (IntLeaf [3%Z]))
            (set_fusion_states (L := Toy.two_sum) (Some tt)
               (Toy.state Toy.two_sum [[[0]]; [[0]]]%Q tt None None))))
      None false.
Proof.
  apply (SingleDecodeStep_reads (L := Toy.two_sum)).
  - reflexivity.
  - reflexivity.
  - unfold same_core. repeat split; reflexivity.
Defined.

Lemma step_output_is_last_layer_output_witness :
  ∃ step_out s1 cell st,
    SingleDecodeStep (L := Toy.two_sum) (Toy.decoder 2 0 0 1 true) tt
      (Toy.target Toy.two_sum 1)
      (Toy.state Toy.two_sum [[[0]]; [[0]]]%Q tt None None) None false
    = Ok (step_out, s1)
    ∧ last (@rnn_cell Toy.two_sum) = Some cell
    ∧ last (rnn_states s1) = Some st
    ∧ step_out = tf_concat1 (GetOutput cell st) (atten_context s1).
Proof.
  destruct (step_output_is_last_layer_output (L := Toy.two_sum)
              (Toy.decoder 2 0 0 1 true) tt (Toy.target Toy.two_sum 1)
              (Toy.state Toy.two_sum [[[0]]; [[0]]]%Q tt None None) None
              false _ _
              (conj (Qle_refl 0) (conj eq_refl (or_intror (Qeq_refl 0))))
              (or_introl (Z.le_refl 0)) eq_refl)
    as (cell & st & H1 & H2 & H3).
  eexists _, _, cell, st. split; [reflexivity|].
  split; [exact H1 | split; [exact H2 | exact H3]].
Defined.

Lemma PreBeamSearchStep_keeps_state_shape_witness :
  ∃ results new_states,
    _PreBeamSearchStepCallback (L := Toy.one_sum) (Toy.decoder 1 0 0 1 true)
      [[[1%Q]]] [[0%Q]] [[1%Z]] (Toy.beam_states Toy.one_sum [[[0%Q]]] tt tt)
      1 = Ok (results, new_states)
    ∧ length (bs_rnn_states new_states) = 1%nat
    ∧ bs_misc_states new_states
      = bs_misc_states (Toy.beam_states Toy.one_sum [[[0%Q]]] tt tt).
Proof.
  destruct (PreBeamSearchStep_keeps_state_shape (L := Toy.one_sum)
              (Toy.decoder 1 0 0 1 true) [[[1%Q]]] [[0%Q]] [[1%Z]]
              (Toy.beam_states Toy.one_sum [[[0%Q]]] tt tt) 1)
    as (results & new_states & H1 & H2 & H3 & _).
  - simpl. lra.
  - simpl. lra.
  - discriminate.
  - reflexivity.
  - exists results, new_states.
    split; [exact H1 | split; [exact H2 | exact H3]].
Defined.

Lemma accuracy_between_0_and_1_witness :
  ∃ a,
    (_ComputeMetrics (L := Toy.one_sum) (Toy.decoder 1 0 0 1 true)
       Toy.logits4 (labels (Toy.targets Toy.one_sum None))
       (weights (Toy.targets Toy.one_sum None)) None).1
      !! "fraction_of_correct_next_step_preds"
    = Some (a, reduce_sum (weights (Toy.targets Toy.one_sum None)))
    ∧ (0 <= a)%Q ∧ (a <= 1)%Q.
Proof.
  refine (accuracy_between_0_and_1 (L := Toy.one_sum)
            (Toy.decoder 1 0 0 1 true) Toy.logits4
            (labels (Toy.targets Toy.one_sum None))
            (weights (Toy.targets Toy.one_sum None)) None _).
  repeat constructor; simpl; lra.
Defined.

Lemma merged_metrics_weighted_sum_witness :
  ∃ merged per_sequence acc,
    ComputeMetricsAndPerSequenceLoss (L := Toy.one_sum) (λ _ _ _, [])
      (with_params
         (set_logit_types [("logits", 1%Q); ("logits_without_bias", 0.5%Q)]
            (Toy.hparams 1 0 0 1 true))
         (Toy.decoder 1 0 0 1 true))
      two_head_predictions (Toy.targets Toy.one_sum None)
    = Ok (merged, per_sequence)
    ∧ merged !! "loss" = Some acc.
Proof.
  destruct (merged_metrics_weighted_sum (L := Toy.one_sum) (λ _ _ _, [])
              (with_params
                 (set_logit_types
                    [("logits", 1%Q); ("logits_without_bias", 0.5%Q)]
                    (Toy.hparams 1 0 0 1 true))
                 (Toy.decoder 1 0 0 1 true))
              two_head_predictions (Toy.targets Toy.one_sum None)
              [_ComputeMetrics (L := Toy.one_sum) (Toy.decoder 1 0 0 1 true)
                 Toy.logits4 (labels (Toy.targets Toy.one_sum None))
                 (weights (Toy.targets Toy.one_sum None)) None;
               _ComputeMetrics (L := Toy.one_sum) (Toy.decoder 1 0 0 1 true)
                 logits4_last_changed
                 (labels (Toy.targets Toy.one_sum None))
                 (weights (Toy.targets Toy.one_sum None)) None])
    as (merged & per_sequence & Hc & _ & Hplain).
  - apply NoDup_cons. split; [|apply NoDup_singleton].
    intros Hin. apply list_elem_of_singleton in Hin. discriminate Hin.
  - repeat constructor.
  - destruct (Hplain ltac:(discriminate) "loss" (or_introl eq_refl))
      as (acc & Hacc & _).
    exists merged, per_sequence, acc. split; [exact Hc | exact Hacc].
Defined.

Lemma single_head_loss_witness :
  ∃ merged per_sequence,
    ComputeMetricsAndPerSequenceLoss (L := Toy.one_sum) (λ _ _ _, [])
      (Toy.decoder 1 0 0 1 true) two_head_predictions
      (Toy.targets Toy.one_sum None)
    = Ok (merged, PerSequence per_sequence)
    ∧ ComputeLoss (L := Toy.one_sum) (λ _ _ _, [])
        (Toy.decoder 1 0 0 1 true) two_head_predictions
        (Toy.targets Toy.one_sum None) = Ok merged.
Proof.
  destruct (single_head_loss (L := Toy.one_sum) (λ _ _ _, [])
              (Toy.decoder 1 0 0 1 true) two_head_predictions
              (Toy.targets Toy.one_sum None) 1.0%Q eq_refl)
    as (merged & per_sequence & H1 & H2 & _).
  exists merged, per_sequence. split; [exact H1 | exact H2].
Defined.

Lemma logits_without_bias_by_unroller_witness :
  ∃ predictions,
    ComputePredictions (L := Toy.two_sum) (Toy.decoder 2 0 0 1 true) 0
      [[[1%Q]; [1%Q]]] [[0%Q; 0%Q]] (Toy.targets Toy.two_sum None)
    = Ok predictions
    ∧ predictions_logits_without_bias predictions = None.
Proof.
  destruct (ComputePredictions (L := Toy.two_sum) (Toy.decoder 2 0 0 1 true)
              0 [[[1%Q]; [1%Q]]] [[0%Q; 0%Q]] (Toy.targets Toy.two_sum None))
    as [predictions|] eqn:H; [|vm_compute in H; discriminate].
  exists predictions. split; [reflexivity|].
  exact (proj1 (proj2 (logits_without_bias_by_unroller (L := Toy.two_sum)
                         (λ _ _ _, []) (Toy.decoder 2 0 0 1 true) 0
                         [[[1%Q]; [1%Q]]] [[0%Q; 0%Q]]
                         (Toy.targets Toy.two_sum None) predictions H)
                 eq_refl)).
Defined.

Lemma sampling_needs_first_token_witness :
  ∃ e,
    ComputePredictionsDynamic (L := Toy.two_sum) (Toy.decoder 2 0 0 0.5 true)
      0 [[[1%Q]; [1%Q]]] [[0%Q; 0%Q]] (empty_targets Toy.two_sum)
    = Raise e.
Proof.
  refine (proj1 (proj2 (sampling_needs_first_token (L := Toy.two_sum)
                          (Toy.decoder 2 0 0 0.5 true) 0 [[[1%Q]; [1%Q]]]
                          [[0%Q; 0%Q]] (empty_targets Toy.two_sum) _ _))).
  - simpl. lra.
  - apply list_elem_of_here.
Defined.

Lemma graph_loop_needs_its_flag_witness :
  ComputePredictionsDynamic (L := Toy.two_sum) (Toy.decoder 2 0 0 1 false) 0
    [[[1%Q]; [1%Q]]] [[0%Q; 0%Q]] (Toy.targets Toy.two_sum None)
  = Raise (AttributeError "logits").
Proof.
  apply (graph_loop_needs_its_flag (L := Toy.two_sum)
           (Toy.decoder 2 0 0 1 false)).
  - reflexivity.
  - reflexivity.
  - simpl. lra.
  - split; [simpl; lra | split; [simpl; lra | right; reflexivity]].
  - reflexivity.
  - discriminate.
  - unfold wf_targets. simpl. repeat split; repeat constructor.
  - simpl. lia.
Defined.

Lemma source_enc_len_counts_frames_witness :
  ∃ predictions lens,
    ComputePredictions (L := Toy.two_sum) (Toy.decoder 2 0 0 1 true) 0
      [[[1%Q]; [1%Q]]] [[0%Q; 0%Q]] (Toy.targets Toy.two_sum None)
    = Ok predictions
    ∧ predictions_source_enc_len predictions = Some lens
    ∧ length lens = 2%nat.
Proof.
  destruct (ComputePredictions (L := Toy.two_sum) (Toy.decoder 2 0 0 1 true)
              0 [[[1%Q]; [1%Q]]] [[0%Q; 0%Q]] (Toy.targets Toy.two_sum None))
    as [predictions|] eqn:H; [|vm_compute in H; discriminate].
  destruct (source_enc_len_counts_frames (L := Toy.two_sum)
              (Toy.decoder 2 0 0 1 true) 0 [[[1%Q]; [1%Q]]] [[0%Q; 0%Q]]
              (Toy.targets Toy.two_sum None) predictions H)
    as (lens & H1 & H2 & _).
  - repeat constructor.
  - exists predictions, lens.
    split; [reflexivity | split; [exact H1 | exact H2]].
Defined.
